(** * A model of the browser game client in [game.js]

    The client is one [GameClient] object driven by callbacks of the host
    (keyboard, pointer, socket, timers, animation frames).  The model is a
    record of the object's fields and one function per method, written in
    the order of the source statements; a host callback is an [event] and
    [step] runs the callback's handler.

    Conventions of the embedding:
    - JavaScript numbers are doubles.  A finite double is a rational:
      coordinates and sizes are held as rationals ([Q]), counters and
      millisecond amounts as integers ([Z]).  The arithmetic of click
      targeting, of the coordinate conversions, of the score counters
      and of the drawing of avatars, cooldown bar, range indicator and
      overlay is that of binary64, every operation rounded to nearest
      ([Double]).
      The viewport offset and the placement of the world map are
      computed with exact operations, which is what the doubles give on
      the integer coordinates and sizes that the server and the window
      supply.  [NaN] and the infinities are outside the model.
    - A JavaScript [Map] iterates in insertion order: [players] is an
      association list.  An [Avatar] object is reachable from the map
      only, apart from the respawn timer, which keeps the object itself:
      avatars are stored by value and carry the identity of their object
      ([oid]), by which the timer finds its object if it is still in the
      map.
    - What the client asks of the host (socket construction, [send],
      [close], [setTimeout]) is recorded in the state: [effects] and
      [timers].
    - What the client draws is the list of the calls it makes on the 2D
      context of its canvas ([Context2D.call]), in order; drawing reads
      the state of the client and changes none of it. *)

From Stdlib Require Import ZArith QArith Qminmax Qround Qabs String Ascii List Lia Psatz.
From Stdlib Require Import DecimalString DecimalFacts DecimalPos DecimalZ.
From stdpp Require Import gmap strings list.

Open Scope string_scope.

(** ** Doubles

    The arithmetic of binary64 on the rationals: a result is the exact
    result rounded to the nearest double, to the one with an even last
    digit when two are equally near.  Doubles have 53 binary digits and
    their last place is not below 2^-1074.  A result of magnitude 2^1024
    or more, where a double is an infinity, is kept as the rounded
    rational: the client compares such a result only with numbers
    smaller than it, and the infinity compares with them in the same
    way. *)

Module Double.

#[local] Open Scope Z_scope.

(** [floor (log2 (n / d))] for positive [n] and [d] *)
Definition log2_floor (n d : Z) : Z :=
  let l := Z.log2 n - Z.log2 d in
  if (if 0 <=? l then d * 2 ^ l <=? n else d <=? n * 2 ^ (- l))
  then l else l - 1.

(** The integer nearest to [n / d], the even one of two that are equally
    near, for [0 <= n] and [0 < d]. *)
Definition nearest_even (n d : Z) : Z :=
  let q := n / d in
  match 2 * (n mod d) ?= d with
  | Lt => q
  | Gt => q + 1
  | Eq => if Z.even q then q else q + 1
  end.

(** [m * 2^e] *)
Definition scale (m e : Z) : Q :=
  if 0 <=? e then inject_Z (m * 2 ^ e) else m # Z.to_pos (2 ^ (- e)).

(** The exponent of the last place of the doubles of magnitude 2^l to
    2^(l+1). *)
Definition last_place (l : Z) : Z := Z.max (l - 52) (-1074).

(** The double nearest to [q]. *)
Definition round (q : Q) : Q :=
  let q := Qred q in
  let n := Z.abs (Qnum q) in
  let d := Zpos (Qden q) in
  if n =? 0 then 0%Q else
  let e := last_place (log2_floor n d) in
  let m := if 0 <=? e then nearest_even n (d * 2 ^ e)
           else nearest_even (n * 2 ^ (- e)) d in
  Qred (scale (Z.sgn (Qnum q) * m) e).

Definition add (a b : Q) : Q := round (a + b).
Definition sub (a b : Q) : Q := round (a - b).
Definition mul (a b : Q) : Q := round (a * b).
Definition div (a b : Q) : Q := round (a / b).

(** [Math.sqrt(q)] for [0 <= q]: the double nearest to the square
    root. *)
Definition sqrt (q : Q) : Q :=
  let q := Qred q in
  let n := Qnum q in
  let d := Zpos (Qden q) in
  if n <=? 0 then 0%Q else
  let e := last_place (log2_floor n d / 2) in
  let N := if 0 <=? e then n else n * 4 ^ (- e) in
  let D := if 0 <=? e then d * 4 ^ e else d in
  let m := Z.sqrt (N / D) in
  let m := match (2 * m + 1) * (2 * m + 1) * D ?= 4 * N with
           | Lt => m + 1
           | Gt => m
           | Eq => if Z.even m then m else m + 1
           end in
  Qred (scale m e).

(** [Math.pow(q, 2)]: the double nearest to the square. *)
Definition square (q : Q) : Q := mul q q.

(** Sum and difference of two doubles that hold integers; the result
    holds an integer. *)
Definition add_Z (a b : Z) : Z := Qfloor (add (inject_Z a) (inject_Z b)).
Definition sub_Z (a b : Z) : Z := Qfloor (sub (inject_Z a) (inject_Z b)).

End Double.

(** ** The 2D context

    The calls the client makes on the [CanvasRenderingContext2D] of its
    canvas, in the order made; an assignment to a property of the context
    is the call of its setter.  [Image] is the type of the image objects.
    [drawImage_world] is [drawImage(this.worldImage, sx, sy, sWidth,
    sHeight, dx, dy, dWidth, dHeight)]; [arc] always receives the angles
    [0] and [2 * Math.PI], which are left out.  Images are taken to have
    loaded. *)

Module Context2D.

Inductive call {Image : Type} :=
| save
| restore
| scale (x y : Q)
| clearRect (x y w h : Q)
| fillRect (x y w h : Q)
| strokeRect (x y w h : Q)
| drawImage (image : Image) (dx dy dWidth dHeight : Q)
| drawImage_world (sx sy sWidth sHeight dx dy dWidth dHeight : Q)
| beginPath
| moveTo (x y : Q)
| lineTo (x y : Q)
| arc (x y radius : Q)
| stroke
| setLineDash (segments : list Q)
| strokeText (text : string) (x y : Q)
| fillText (text : string) (x y : Q)
| set_fillStyle (v : string)
| set_strokeStyle (v : string)
| set_lineWidth (v : Q)
| set_font (v : string)
| set_textAlign (v : string).
Arguments call : clear implicits.

End Context2D.

(** ** Avatar *)

Module Avatar.

(** An [Image] object of the host: [new Image()] followed by
    [img.src = base64].  [img_id] is the identity of the object. *)
Record Image := { img_id : nat; img_src : string }.

Record Frames := { north : list Image; south : list Image; east : list Image }.

(** The frame set of an avatar type as the server sends it: each
    direction is an array of base64 strings, or absent. *)
Record FrameData := {
  fd_north : option (list string);
  fd_south : option (list string);
  fd_east : option (list string) }.

Record AvatarData := { ad_name : string; ad_frames : FrameData }.

(** A player snapshot of the server. *)
Record PlayerData := {
  pd_id : string;
  pd_username : string;
  pd_x : Q;
  pd_y : Q;
  pd_facing : string;
  pd_isMoving : bool;
  pd_animationFrame : option Z;
  pd_avatar : string }.

(** [oid] is the identity of the [Avatar] object; the other fields are
    those of the source. *)
Record t := {
  oid : nat;
  id : string;
  username : string;
  x : Q;
  y : Q;
  facing : string;
  isMoving : bool;
  animationFrame : Z;
  avatarName : string;
  isDead : bool;
  frames : Frames }.

Definition avatarSize : Q := 32.

Definition with_frames (f : Frames) (a : t) : t :=
  {| oid := oid a; id := id a; username := username a; x := x a; y := y a;
     facing := facing a; isMoving := isMoving a;
     animationFrame := animationFrame a; avatarName := avatarName a;
     isDead := isDead a; frames := f |}.

Definition with_facing (f : string) (a : t) : t :=
  {| oid := oid a; id := id a; username := username a; x := x a; y := y a;
     facing := f; isMoving := isMoving a;
     animationFrame := animationFrame a; avatarName := avatarName a;
     isDead := isDead a; frames := frames a |}.

Definition with_isDead (d : bool) (a : t) : t :=
  {| oid := oid a; id := id a; username := username a; x := x a; y := y a;
     facing := facing a; isMoving := isMoving a;
     animationFrame := animationFrame a; avatarName := avatarName a;
     isDead := d; frames := frames a |}.

Definition with_position (px py : Q) (a : t) : t :=
  {| oid := oid a; id := id a; username := username a; x := px; y := py;
     facing := facing a; isMoving := isMoving a;
     animationFrame := animationFrame a; avatarName := avatarName a;
     isDead := isDead a; frames := frames a |}.

(** [list.map(base64 => { const img = new Image(); img.src = base64;
    return img; })], the images taking the object identities [n],
    [n + 1], ... *)
Definition load_images (n : nat) (l : list string) : list Image :=
  imap (fun i src => {| img_id := n + i; img_src := src |}) l.

(** [loadAvatarFrames(frames)]: each direction that is present replaces
    the avatar's sequence; [n] is the next free image identity, returned
    updated. *)
Definition loadAvatarFrames (fd : FrameData) (n : nat) (a : t) : t * nat :=
  let f := frames a in
  let '(fn, n1) :=
    match fd_north fd with
    | Some l => (load_images n l, n + length l)
    | None => (north f, n)
    end in
  let '(fs, n2) :=
    match fd_south fd with
    | Some l => (load_images n1 l, n1 + length l)
    | None => (south f, n1)
    end in
  let '(fe, n3) :=
    match fd_east fd with
    | Some l => (load_images n2 l, n2 + length l)
    | None => (east f, n2)
    end in
  (with_frames {| north := fn; south := fs; east := fe |} a, n3).

(** [playerData.animationFrame || 0] *)
Definition animationFrame_or_0 (p : PlayerData) : Z :=
  match pd_animationFrame p with
  | Some z => z
  | None => 0%Z
  end.

(** [new Avatar(playerData, avatarData)]; [avatarData] is [None] when the
    catalog has no entry ([undefined]).  The avatar takes the identity
    [n], its images the following ones.  An [AvatarData] always carries
    its [frames]. *)
Definition new (p : PlayerData) (ad : option AvatarData) (n : nat) : t * nat :=
  let a := {| oid := n; id := pd_id p; username := pd_username p;
              x := pd_x p; y := pd_y p; facing := pd_facing p;
              isMoving := pd_isMoving p;
              animationFrame := animationFrame_or_0 p;
              avatarName := pd_avatar p; isDead := false;
              frames := {| north := []; south := []; east := [] |} |} in
  match ad with
  | Some d => loadAvatarFrames (ad_frames d) (S n) a
  | None => (a, S n)
  end.

Definition update (p : PlayerData) (a : t) : t :=
  {| oid := oid a; id := id a; username := username a; x := pd_x p; y := pd_y p;
     facing := pd_facing p; isMoving := pd_isMoving p;
     animationFrame := animationFrame_or_0 p; avatarName := avatarName a;
     isDead := isDead a; frames := frames a |}.

(** The value of [getCurrentFrame]: [{image, flipHorizontal}].  [image]
    is [None] when the array has no element at the index
    ([undefined]). *)
Record Frame := { image : option Image; flipHorizontal : bool }.

(** [arr[i]] for an integer [i]: [undefined] out of range. *)
Definition js_index {A} (arr : list A) (i : Z) : option A :=
  if (i <? 0)%Z then None else arr !! Z.to_nat i.

(** The [switch (this.facing)] of [getCurrentFrame]: the sequence and the
    flip flag. *)
Definition selectFrameSet (a : t) : list Image * bool :=
  if String.eqb (facing a) "north" then (north (frames a), false)
  else if String.eqb (facing a) "south" then (south (frames a), false)
  else if String.eqb (facing a) "east" then (east (frames a), false)
  else if String.eqb (facing a) "west" then (east (frames a), true)
  else (south (frames a), false).

(** [%] of JavaScript truncates towards zero: [Z.rem]. *)
Definition getCurrentFrame (a : t) : option Frame :=
  let '(frameSet, flip) := selectFrameSet a in
  if (0 <? length frameSet)%nat then
    let frameIndex := if isMoving a then animationFrame a else 0%Z in
    Some {| image := js_index frameSet
                       (Z.rem frameIndex (Z.of_nat (length frameSet)));
            flipHorizontal := flip |}
  else None.

(** *** Drawing an avatar *)

Definition Call := Context2D.call Image.

Definition Qlt_bool (a b : Q) : bool := negb (Qle_bool b a).

(** [renderDeadPlayer(ctx, screenX, screenY)] *)
Definition renderDeadPlayer (screenX screenY : Q) (a : t) : list Call :=
  let textY :=
    Double.sub (Double.sub screenY (Double.div avatarSize 2)) 5 in
  [Context2D.save;
   Context2D.set_strokeStyle "red";
   Context2D.set_lineWidth 3;
   Context2D.beginPath;
   Context2D.moveTo (Double.sub screenX 15) (Double.sub screenY 15);
   Context2D.lineTo (Double.add screenX 15) (Double.add screenY 15);
   Context2D.moveTo (Double.add screenX 15) (Double.sub screenY 15);
   Context2D.lineTo (Double.sub screenX 15) (Double.add screenY 15);
   Context2D.stroke;
   Context2D.set_fillStyle "red";
   Context2D.set_strokeStyle "black";
   Context2D.set_lineWidth 2;
   Context2D.set_font "12px Arial";
   Context2D.set_textAlign "center";
   Context2D.strokeText (username a ++ " (DEAD)") screenX textY;
   Context2D.fillText (username a ++ " (DEAD)") screenX textY;
   Context2D.restore].

(** [renderUsername(ctx, screenX, screenY)] *)
Definition renderUsername (screenX screenY : Q) (a : t) : list Call :=
  let textY :=
    Double.sub (Double.sub screenY (Double.div avatarSize 2)) 5 in
  [Context2D.save;
   Context2D.set_fillStyle "white";
   Context2D.set_strokeStyle "black";
   Context2D.set_lineWidth 2;
   Context2D.set_font "12px Arial";
   Context2D.set_textAlign "center";
   Context2D.strokeText (username a) screenX textY;
   Context2D.fillText (username a) screenX textY;
   Context2D.restore].

(** [render(ctx, viewportOffsetX, viewportOffsetY)]; [canvasWidth] and
    [canvasHeight] are [ctx.canvas.width] and [ctx.canvas.height]. *)
Definition render (canvasWidth canvasHeight viewportOffsetX viewportOffsetY : Q)
    (a : t) : list Call :=
  let screenX := Double.sub (x a) viewportOffsetX in
  let screenY := Double.sub (y a) viewportOffsetY in
  if Qlt_bool screenX (- avatarSize)
     || Qlt_bool (Double.add canvasWidth avatarSize) screenX
     || Qlt_bool screenY (- avatarSize)
     || Qlt_bool (Double.add canvasHeight avatarSize) screenY
  then []
  else if isDead a then renderDeadPlayer screenX screenY a
  else
    (match getCurrentFrame a with
     | Some {| image := Some img; flipHorizontal := flip |} =>
         let drawX := Double.sub screenX (Double.div avatarSize 2) in
         let drawY := Double.sub screenY (Double.div avatarSize 2) in
         [Context2D.save]
         ++ (if flip
             then [Context2D.scale (-1) 1;
                   Context2D.drawImage img (Double.sub (- drawX) avatarSize)
                     drawY avatarSize avatarSize]
             else [Context2D.drawImage img drawX drawY avatarSize avatarSize])
         ++ [Context2D.restore]
     | _ => []
     end)
    ++ renderUsername screenX screenY a.

End Avatar.

(** ** Exceptions *)

Inductive exn := SyntaxError | TypeError.

(** The result of code that may raise.  [OutsideModel] marks inputs on
    which the source computes with values the model has no counterpart
    for. *)
Inductive outcome (A : Type) :=
| Returns (a : A)
| Throws (e : exn)
| OutsideModel.
Arguments Returns {A} a.
Arguments Throws {A} e.
Arguments OutsideModel {A}.

(** ** JSON.parse

    The text is lexed one character at a time and the tokens drive a
    pushdown automaton, so parsing is total.  A string value is the
    sequence of its UTF-8 bytes, code units written as escapes being
    encoded one by one; a number keeps its literal. *)

Module JSON.

#[local] Unset Elimination Schemes.
Inductive value :=
| Null
| Bool (b : bool)
| Number (lexeme : string)
| Str (s : string)
| Array (l : list value)
| Object (l : list (string * value)).
#[local] Set Elimination Schemes.

Inductive token :=
| TLBrace | TRBrace | TLBracket | TRBracket | TColon | TComma
| TScalar (v : value).

Definition code (c : ascii) : N := N_of_ascii c.

Definition dquote : ascii := "034"%char.
Definition backslash : ascii := "092"%char.

Definition is_ws (c : ascii) : bool :=
  match c with
  | " "%char | "009"%char | "010"%char | "013"%char => true
  | _ => false
  end.

Definition is_digit (c : ascii) : bool :=
  ((48 <=? code c) && (code c <=? 57))%N.

Definition is_letter (c : ascii) : bool :=
  (((65 <=? code c) && (code c <=? 90)) || ((97 <=? code c) && (code c <=? 122)))%N.

(** Characters that continue a number or a literal name. *)
Definition is_word (c : ascii) : bool :=
  is_digit c || is_letter c ||
  match c with "-"%char | "+"%char | "."%char => true | _ => false end.

Definition hex_val (c : ascii) : option N :=
  let n := code c in
  if ((48 <=? n) && (n <=? 57))%N then Some (n - 48)%N
  else if ((65 <=? n) && (n <=? 70))%N then Some (n - 55)%N
  else if ((97 <=? n) && (n <=? 102))%N then Some (n - 87)%N
  else None.

(** The UTF-8 bytes of the code unit [u < 65536]. *)
Definition utf8 (u : N) : string :=
  if (u <? 128)%N then String (ascii_of_N u) EmptyString
  else if (u <? 2048)%N then
    String (ascii_of_N (192 + u / 64)) (String (ascii_of_N (128 + u mod 64)) EmptyString)
  else
    String (ascii_of_N (224 + u / 4096))
      (String (ascii_of_N (128 + (u / 64) mod 64))
         (String (ascii_of_N (128 + u mod 64)) EmptyString)).

Fixpoint skip_digits (s : string) : string :=
  match s with
  | String c r => if is_digit c then skip_digits r else s
  | EmptyString => s
  end.

Definition number_exponent (s : string) : bool :=
  match s with
  | EmptyString => true
  | String c r =>
      if Ascii.eqb c "e" || Ascii.eqb c "E" then
        let r' := match r with
                  | String sg r1 =>
                      if Ascii.eqb sg "+" || Ascii.eqb sg "-" then r1 else r
                  | EmptyString => r
                  end in
        match r' with
        | String d r2 => is_digit d && String.eqb (skip_digits r2) EmptyString
        | EmptyString => false
        end
      else false
  end.

Definition number_fraction (s : string) : bool :=
  match s with
  | String c r =>
      if Ascii.eqb c "." then
        match r with
        | String d r' => is_digit d && number_exponent (skip_digits r')
        | EmptyString => false
        end
      else number_exponent s
  | EmptyString => true
  end.

(** An optional minus, then 0 or a digit sequence without leading zero,
    an optional fraction and an optional exponent. *)
Definition unsigned_number (s : string) : bool :=
  match s with
  | String d r =>
      if Ascii.eqb d "0" then number_fraction r
      else is_digit d && number_fraction (skip_digits r)
  | EmptyString => false
  end.

Definition is_number (s : string) : bool :=
  match s with
  | String c r => if Ascii.eqb c "-" then unsigned_number r else unsigned_number s
  | EmptyString => false
  end.

Definition word_token (w : string) : option token :=
  if String.eqb w "true" then Some (TScalar (Bool true))
  else if String.eqb w "false" then Some (TScalar (Bool false))
  else if String.eqb w "null" then Some (TScalar Null)
  else if is_number w then Some (TScalar (Number w))
  else None.

Definition punct (c : ascii) : option token :=
  match c with
  | "{"%char => Some TLBrace
  | "}"%char => Some TRBrace
  | "["%char => Some TLBracket
  | "]"%char => Some TRBracket
  | ":"%char => Some TColon
  | ","%char => Some TComma
  | _ => None
  end.

Definition escape (c : ascii) : option ascii :=
  if Ascii.eqb c dquote then Some dquote
  else if Ascii.eqb c backslash then Some backslash
  else match c with
       | "/"%char => Some "/"%char
       | "b"%char => Some "008"%char
       | "f"%char => Some "012"%char
       | "n"%char => Some "010"%char
       | "r"%char => Some "013"%char
       | "t"%char => Some "009"%char
       | _ => None
       end.

(** The lexer reads one character at a time. *)
Inductive lex_state :=
| LIdle
| LWord (w : string)
| LString (acc : string)
| LEscape (acc : string)
| LUnicode (acc : string) (hex : list N).

Definition snoc (s : string) (c : ascii) : string := s ++ String c EmptyString.

Fixpoint lex (st : lex_state) (s : string) (out : list token) : option (list token) :=
  match s with
  | EmptyString =>
      match st with
      | LIdle => Some out
      | LWord w => t ← word_token w; Some (out ++ [t])%list
      | _ => None
      end
  | String c r =>
      match st with
      | LIdle =>
          if is_ws c then lex LIdle r out
          else if Ascii.eqb c dquote then lex (LString EmptyString) r out
          else if is_word c then lex (LWord (String c EmptyString)) r out
          else t ← punct c; lex LIdle r (out ++ [t])%list
      | LWord w =>
          if is_word c then lex (LWord (snoc w c)) r out
          else
            t ← word_token w;
            if is_ws c then lex LIdle r (out ++ [t])%list
            else if Ascii.eqb c dquote then lex (LString EmptyString) r (out ++ [t])%list
            else p ← punct c; lex LIdle r (out ++ [t; p])%list
      | LString acc =>
          if Ascii.eqb c dquote then lex LIdle r (out ++ [TScalar (Str acc)])%list
          else if Ascii.eqb c backslash then lex (LEscape acc) r out
          else if (code c <? 32)%N then None
          else lex (LString (snoc acc c)) r out
      | LEscape acc =>
          if Ascii.eqb c "u" then lex (LUnicode acc []) r out
          else e ← escape c; lex (LString (snoc acc e)) r out
      | LUnicode acc hex =>
          h ← hex_val c;
          match hex with
          | [h1; h2; h3] =>
              lex (LString (acc ++ utf8 (((h1 * 16 + h2) * 16 + h3) * 16 + h))) r out
          | _ => lex (LUnicode acc (hex ++ [h])%list) r out
          end
      end
  end.

(** The parser is a pushdown automaton over the tokens. *)
Inductive frame :=
| FArray (done : list value)
| FObject (done : list (string * value)) (key : string).

Inductive mode :=
| MValue            (* a value must follow *)
| MValueOrEnd       (* just after [ *)
| MKeyOrEnd (done : list (string * value)) (first : bool) (* a key; } allowed when first *)
| MColon (done : list (string * value)) (key : string)
| MAfter            (* after a value inside an array or object *)
| MDone (v : value).

(** A value is complete: it goes into the innermost open container. *)
Definition complete (v : value) (stack : list frame) : list frame * mode :=
  match stack with
  | [] => ([], MDone v)
  | FArray done :: st => (FArray (done ++ [v])%list :: st, MAfter)
  | FObject done k :: st => (FObject (done ++ [(k, v)])%list k :: st, MAfter)
  end.

Definition parse_step (t : token) (stack : list frame) (m : mode)
  : option (list frame * mode) :=
  match m, t with
  | (MValue | MValueOrEnd), TScalar v => Some (complete v stack)
  | (MValue | MValueOrEnd), TLBracket => Some (FArray [] :: stack, MValueOrEnd)
  | (MValue | MValueOrEnd), TLBrace => Some (stack, MKeyOrEnd [] true)
  | MValueOrEnd, TRBracket =>
      match stack with
      | FArray done :: st => Some (complete (Array done) st)
      | _ => None
      end
  | MKeyOrEnd done _, TScalar (Str k) => Some (stack, MColon done k)
  | MKeyOrEnd done true, TRBrace => Some (complete (Object done) stack)
  | MColon done k, TColon => Some (FObject done k :: stack, MValue)
  | MAfter, TComma =>
      match stack with
      | FArray _ :: _ => Some (stack, MValue)
      | FObject done _ :: st => Some (st, MKeyOrEnd done false)
      | [] => None
      end
  | MAfter, TRBracket =>
      match stack with
      | FArray done :: st => Some (complete (Array done) st)
      | _ => None
      end
  | MAfter, TRBrace =>
      match stack with
      | FObject done _ :: st => Some (complete (Object done) st)
      | _ => None
      end
  | _, _ => None
  end.

Fixpoint parse_tokens (ts : list token) (stack : list frame) (m : mode) : option value :=
  match ts with
  | [] => match m with MDone v => Some v | _ => None end
  | t :: ts' =>
      '(stack', m') ← parse_step t stack m;
      parse_tokens ts' stack' m'
  end.

(** [JSON.parse(text)]; [None] stands for the [SyntaxError]. *)
Definition parse (text : string) : option value :=
  ts ← lex LIdle text [];
  parse_tokens ts [] MValue.

(** The value of a number literal that is an integer of magnitude at most
    2^52, where the arithmetic of doubles on it is exact. *)
Definition integer (lexeme : string) : option Z :=
  match NilZero.int_of_string lexeme with
  | Some d =>
      let z := Z.of_int d in
      if (Z.abs z <=? 2 ^ 52)%Z then Some z else None
  | None => None
  end.

End JSON.

(** ** GameClient *)

Module GameClient.

Inductive GameState := playing | paused | stopped.

Record Score := { kills : Z; deaths : Z; total : Z }.

Record Canvas := { width : Q; height : Q }.

(** Actions sent to the server. *)
Inductive action :=
| join_game (username : string)
| move (direction : string)
| stop
| attack (targetId : string).

(** Messages of the server, after [JSON.parse]; [message.action] is the
    constructor.  The [avatars] and [players] objects are given as their
    [Object.entries]; [None] is an absent field. *)
Inductive message :=
| join_game_result (success : bool) (playerId : string)
    (avatars : option (list (string * Avatar.AvatarData)))
    (players : option (list (string * Avatar.PlayerData)))
| player_joined (player : Avatar.PlayerData) (avatar : option Avatar.AvatarData)
| players_moved (players : option (list (string * Avatar.PlayerData)))
| player_left (playerId : string)
| attack_result (success : bool) (targetId : string) (kill : bool)
| player_died (playerId : string)
| player_respawned (playerId : string) (x y : Q)
| unknown_action (tag : string).

(** Calls on the socket objects of the host. *)
Inductive effect :=
| WsNew (socket : nat)
| WsClose (socket : nat)
| WsSend (socket : nat) (a : action).

(** Callbacks handed to [setTimeout] that have not run yet: the fallback
    of [attackPlayer] (1000 ms) and the respawn of [simulatePlayerDeath]
    (3000 ms), which holds the [Avatar] object itself. *)
Inductive timer :=
| AttackFallback (targetId : string)
| SimulatedRespawn (player : nat).

(** The host as far as the client touches it: the [localStorage] item
    ['mmorpg_score'], the calls made on sockets, the pending timers, and
    the identities handed out to new objects. *)
Record Host := {
  localStorage : option string;
  effects : list effect;
  timers : list timer;
  next_socket : nat;
  next_object : nat }.

Definition set_localStorage (v : option string) (s : Host) : Host :=
  {| localStorage := v; effects := effects s; timers := timers s;
     next_socket := next_socket s; next_object := next_object s |}.
Definition set_effects (v : list effect) (s : Host) : Host :=
  {| localStorage := localStorage s; effects := v; timers := timers s;
     next_socket := next_socket s; next_object := next_object s |}.
Definition set_timers (v : list timer) (s : Host) : Host :=
  {| localStorage := localStorage s; effects := effects s; timers := v;
     next_socket := next_socket s; next_object := next_object s |}.
Definition set_next_socket (v : nat) (s : Host) : Host :=
  {| localStorage := localStorage s; effects := effects s;
     timers := timers s; next_socket := v; next_object := next_object s |}.
Definition set_next_object (v : nat) (s : Host) : Host :=
  {| localStorage := localStorage s; effects := effects s;
     timers := timers s; next_socket := next_socket s; next_object := v |}.

(** The fields of the [GameClient] object.  [players] is the [Map] in
    insertion order. *)
Record t := {
  canvas : Canvas;
  worldWidth : Q;
  worldHeight : Q;
  myPlayerId : option string;
  players : list (string * Avatar.t);
  avatars : gmap string Avatar.AvatarData;
  websocket : option nat;
  connected : bool;
  viewportOffsetX : Q;
  viewportOffsetY : Q;
  viewportInitialized : bool;
  pressedKeys : gset string;
  attackCooldown : Z;
  score : Score;
  gameState : GameState;
  pauseStartTime : Z;
  totalPauseTime : Z;
  host : Host }.

Definition set_canvas (v : Canvas) (s : t) : t :=
  {| canvas := v; worldWidth := worldWidth s; worldHeight := worldHeight s;
     myPlayerId := myPlayerId s; players := players s;
     avatars := avatars s; websocket := websocket s;
     connected := connected s; viewportOffsetX := viewportOffsetX s;
     viewportOffsetY := viewportOffsetY s;
     viewportInitialized := viewportInitialized s;
     pressedKeys := pressedKeys s; attackCooldown := attackCooldown s;
     score := score s; gameState := gameState s;
     pauseStartTime := pauseStartTime s;
     totalPauseTime := totalPauseTime s; host := host s |}.
Definition set_myPlayerId (v : option string) (s : t) : t :=
  {| canvas := canvas s; worldWidth := worldWidth s;
     worldHeight := worldHeight s; myPlayerId := v; players := players s;
     avatars := avatars s; websocket := websocket s;
     connected := connected s; viewportOffsetX := viewportOffsetX s;
     viewportOffsetY := viewportOffsetY s;
     viewportInitialized := viewportInitialized s;
     pressedKeys := pressedKeys s; attackCooldown := attackCooldown s;
     score := score s; gameState := gameState s;
     pauseStartTime := pauseStartTime s;
     totalPauseTime := totalPauseTime s; host := host s |}.
Definition set_players (v : list (string * Avatar.t)) (s : t) : t :=
  {| canvas := canvas s; worldWidth := worldWidth s;
     worldHeight := worldHeight s; myPlayerId := myPlayerId s;
     players := v; avatars := avatars s; websocket := websocket s;
     connected := connected s; viewportOffsetX := viewportOffsetX s;
     viewportOffsetY := viewportOffsetY s;
     viewportInitialized := viewportInitialized s;
     pressedKeys := pressedKeys s; attackCooldown := attackCooldown s;
     score := score s; gameState := gameState s;
     pauseStartTime := pauseStartTime s;
     totalPauseTime := totalPauseTime s; host := host s |}.
Definition set_avatars (v : gmap string Avatar.AvatarData) (s : t) : t :=
  {| canvas := canvas s; worldWidth := worldWidth s;
     worldHeight := worldHeight s; myPlayerId := myPlayerId s;
     players := players s; avatars := v; websocket := websocket s;
     connected := connected s; viewportOffsetX := viewportOffsetX s;
     viewportOffsetY := viewportOffsetY s;
     viewportInitialized := viewportInitialized s;
     pressedKeys := pressedKeys s; attackCooldown := attackCooldown s;
     score := score s; gameState := gameState s;
     pauseStartTime := pauseStartTime s;
     totalPauseTime := totalPauseTime s; host := host s |}.
Definition set_websocket (v : option nat) (s : t) : t :=
  {| canvas := canvas s; worldWidth := worldWidth s;
     worldHeight := worldHeight s; myPlayerId := myPlayerId s;
     players := players s; avatars := avatars s; websocket := v;
     connected := connected s; viewportOffsetX := viewportOffsetX s;
     viewportOffsetY := viewportOffsetY s;
     viewportInitialized := viewportInitialized s;
     pressedKeys := pressedKeys s; attackCooldown := attackCooldown s;
     score := score s; gameState := gameState s;
     pauseStartTime := pauseStartTime s;
     totalPauseTime := totalPauseTime s; host := host s |}.
Definition set_connected (v : bool) (s : t) : t :=
  {| canvas := canvas s; worldWidth := worldWidth s;
     worldHeight := worldHeight s; myPlayerId := myPlayerId s;
     players := players s; avatars := avatars s; websocket := websocket s;
     connected := v; viewportOffsetX := viewportOffsetX s;
     viewportOffsetY := viewportOffsetY s;
     viewportInitialized := viewportInitialized s;
     pressedKeys := pressedKeys s; attackCooldown := attackCooldown s;
     score := score s; gameState := gameState s;
     pauseStartTime := pauseStartTime s;
     totalPauseTime := totalPauseTime s; host := host s |}.
Definition set_viewportOffsetX (v : Q) (s : t) : t :=
  {| canvas := canvas s; worldWidth := worldWidth s;
     worldHeight := worldHeight s; myPlayerId := myPlayerId s;
     players := players s; avatars := avatars s; websocket := websocket s;
     connected := connected s; viewportOffsetX := v;
     viewportOffsetY := viewportOffsetY s;
     viewportInitialized := viewportInitialized s;
     pressedKeys := pressedKeys s; attackCooldown := attackCooldown s;
     score := score s; gameState := gameState s;
     pauseStartTime := pauseStartTime s;
     totalPauseTime := totalPauseTime s; host := host s |}.
Definition set_viewportOffsetY (v : Q) (s : t) : t :=
  {| canvas := canvas s; worldWidth := worldWidth s;
     worldHeight := worldHeight s; myPlayerId := myPlayerId s;
     players := players s; avatars := avatars s; websocket := websocket s;
     connected := connected s; viewportOffsetX := viewportOffsetX s;
     viewportOffsetY := v; viewportInitialized := viewportInitialized s;
     pressedKeys := pressedKeys s; attackCooldown := attackCooldown s;
     score := score s; gameState := gameState s;
     pauseStartTime := pauseStartTime s;
     totalPauseTime := totalPauseTime s; host := host s |}.
Definition set_viewportInitialized (v : bool) (s : t) : t :=
  {| canvas := canvas s; worldWidth := worldWidth s;
     worldHeight := worldHeight s; myPlayerId := myPlayerId s;
     players := players s; avatars := avatars s; websocket := websocket s;
     connected := connected s; viewportOffsetX := viewportOffsetX s;
     viewportOffsetY := viewportOffsetY s; viewportInitialized := v;
     pressedKeys := pressedKeys s; attackCooldown := attackCooldown s;
     score := score s; gameState := gameState s;
     pauseStartTime := pauseStartTime s;
     totalPauseTime := totalPauseTime s; host := host s |}.
Definition set_pressedKeys (v : gset string) (s : t) : t :=
  {| canvas := canvas s; worldWidth := worldWidth s;
     worldHeight := worldHeight s; myPlayerId := myPlayerId s;
     players := players s; avatars := avatars s; websocket := websocket s;
     connected := connected s; viewportOffsetX := viewportOffsetX s;
     viewportOffsetY := viewportOffsetY s;
     viewportInitialized := viewportInitialized s; pressedKeys := v;
     attackCooldown := attackCooldown s; score := score s;
     gameState := gameState s; pauseStartTime := pauseStartTime s;
     totalPauseTime := totalPauseTime s; host := host s |}.
Definition set_attackCooldown (v : Z) (s : t) : t :=
  {| canvas := canvas s; worldWidth := worldWidth s;
     worldHeight := worldHeight s; myPlayerId := myPlayerId s;
     players := players s; avatars := avatars s; websocket := websocket s;
     connected := connected s; viewportOffsetX := viewportOffsetX s;
     viewportOffsetY := viewportOffsetY s;
     viewportInitialized := viewportInitialized s;
     pressedKeys := pressedKeys s; attackCooldown := v; score := score s;
     gameState := gameState s; pauseStartTime := pauseStartTime s;
     totalPauseTime := totalPauseTime s; host := host s |}.
Definition set_score (v : Score) (s : t) : t :=
  {| canvas := canvas s; worldWidth := worldWidth s;
     worldHeight := worldHeight s; myPlayerId := myPlayerId s;
     players := players s; avatars := avatars s; websocket := websocket s;
     connected := connected s; viewportOffsetX := viewportOffsetX s;
     viewportOffsetY := viewportOffsetY s;
     viewportInitialized := viewportInitialized s;
     pressedKeys := pressedKeys s; attackCooldown := attackCooldown s;
     score := v; gameState := gameState s;
     pauseStartTime := pauseStartTime s;
     totalPauseTime := totalPauseTime s; host := host s |}.
Definition set_gameState (v : GameState) (s : t) : t :=
  {| canvas := canvas s; worldWidth := worldWidth s;
     worldHeight := worldHeight s; myPlayerId := myPlayerId s;
     players := players s; avatars := avatars s; websocket := websocket s;
     connected := connected s; viewportOffsetX := viewportOffsetX s;
     viewportOffsetY := viewportOffsetY s;
     viewportInitialized := viewportInitialized s;
     pressedKeys := pressedKeys s; attackCooldown := attackCooldown s;
     score := score s; gameState := v; pauseStartTime := pauseStartTime s;
     totalPauseTime := totalPauseTime s; host := host s |}.
Definition set_pauseStartTime (v : Z) (s : t) : t :=
  {| canvas := canvas s; worldWidth := worldWidth s;
     worldHeight := worldHeight s; myPlayerId := myPlayerId s;
     players := players s; avatars := avatars s; websocket := websocket s;
     connected := connected s; viewportOffsetX := viewportOffsetX s;
     viewportOffsetY := viewportOffsetY s;
     viewportInitialized := viewportInitialized s;
     pressedKeys := pressedKeys s; attackCooldown := attackCooldown s;
     score := score s; gameState := gameState s; pauseStartTime := v;
     totalPauseTime := totalPauseTime s; host := host s |}.
Definition set_totalPauseTime (v : Z) (s : t) : t :=
  {| canvas := canvas s; worldWidth := worldWidth s;
     worldHeight := worldHeight s; myPlayerId := myPlayerId s;
     players := players s; avatars := avatars s; websocket := websocket s;
     connected := connected s; viewportOffsetX := viewportOffsetX s;
     viewportOffsetY := viewportOffsetY s;
     viewportInitialized := viewportInitialized s;
     pressedKeys := pressedKeys s; attackCooldown := attackCooldown s;
     score := score s; gameState := gameState s;
     pauseStartTime := pauseStartTime s; totalPauseTime := v;
     host := host s |}.
Definition set_host (v : Host) (s : t) : t :=
  {| canvas := canvas s; worldWidth := worldWidth s;
     worldHeight := worldHeight s; myPlayerId := myPlayerId s;
     players := players s; avatars := avatars s; websocket := websocket s;
     connected := connected s; viewportOffsetX := viewportOffsetX s;
     viewportOffsetY := viewportOffsetY s;
     viewportInitialized := viewportInitialized s;
     pressedKeys := pressedKeys s; attackCooldown := attackCooldown s;
     score := score s; gameState := gameState s;
     pauseStartTime := pauseStartTime s;
     totalPauseTime := totalPauseTime s; host := v |}.

#[local] Open Scope Q_scope.

Definition attackCooldownTime : Z := 1000.
Definition attackRange : Q := 50.

(** [this.keyMap[code]], for the codes a keyboard event can carry. *)
Definition keyMap (code : string) : option string :=
  if String.eqb code "ArrowUp" then Some "up"
  else if String.eqb code "ArrowDown" then Some "down"
  else if String.eqb code "ArrowLeft" then Some "left"
  else if String.eqb code "ArrowRight" then Some "right"
  else None.

(** *** The [Map] of players, in insertion order *)

Fixpoint map_get {A} (k : string) (m : list (string * A)) : option A :=
  match m with
  | [] => None
  | (k', v) :: m' => if String.eqb k' k then Some v else map_get k m'
  end.

(** [m.set(k, v)]: an existing key keeps its place. *)
Fixpoint map_set {A} (k : string) (v : A) (m : list (string * A))
  : list (string * A) :=
  match m with
  | [] => [(k, v)]
  | (k', v') :: m' =>
      if String.eqb k' k then (k', v) :: m' else (k', v') :: map_set k v m'
  end.

Fixpoint map_delete {A} (k : string) (m : list (string * A))
  : list (string * A) :=
  match m with
  | [] => []
  | (k', v') :: m' =>
      if String.eqb k' k then map_delete k m' else (k', v') :: map_delete k m'
  end.

(** [this.players.values()] *)
Definition values (s : t) : list Avatar.t := map snd (players s).

(** [v === this.myPlayerId] for a string [v]. *)
Definition is_myPlayerId (s : t) (v : string) : bool :=
  match myPlayerId s with
  | Some m => String.eqb v m
  | None => false
  end.

(** Truthiness of [this.myPlayerId]: neither [null] nor the empty
    string. *)
Definition myPlayerId_truthy (s : t) : bool :=
  match myPlayerId s with
  | Some m => negb (String.eqb m EmptyString)
  | None => false
  end.

(** [this.players.get(this.myPlayerId)] *)
Definition myAvatar (s : t) : option Avatar.t :=
  match myPlayerId s with
  | Some m => map_get m (players s)
  | None => None
  end.

(** *** Host calls *)

Definition emit (e : effect) (s : t) : t :=
  set_host (set_effects (effects (host s) ++ [e]) (host s)) s.

Definition setTimeout (tm : timer) (s : t) : t :=
  set_host (set_timers (timers (host s) ++ [tm]) (host s)) s.

(** [this.websocket.send(JSON.stringify(a))].  With no socket object the
    call raises a [TypeError] and sends nothing; [websocket] is never
    [null] once the constructor has run (lemma [reachable_websocket]). *)
Definition websocket_send (a : action) (s : t) : t :=
  match websocket s with
  | Some w => emit (WsSend w a) s
  | None => s
  end.

Definition sendMoveCommand (direction : string) (s : t) : t :=
  if negb (connected s) then s else websocket_send (move direction) s.

Definition sendStopCommand (s : t) : t :=
  if negb (connected s) then s else websocket_send stop s.

Definition joinGame (s : t) : t :=
  if negb (connected s) then s else websocket_send (join_game "Tinotenda") s.

(** *** Keyboard *)

Definition is_playing (s : t) : bool :=
  match gameState s with playing => true | _ => false end.

Definition handleKeyDown (code : string) (s : t) : t :=
  if negb (is_playing s) then s else
  match keyMap code with
  | None => s
  | Some direction =>
      let s := set_pressedKeys ({[ code ]} ∪ pressedKeys s) s in
      sendMoveCommand direction s
  end.

Definition handleKeyUp (code : string) (s : t) : t :=
  if negb (is_playing s) then s else
  match keyMap code with
  | None => s
  | Some direction =>
      let s := set_pressedKeys (pressedKeys s ∖ {[ code ]}) s in
      if (size (pressedKeys s) =? 0)%nat then sendStopCommand s else s
  end.

(** *** Score *)

Definition decimal (z : Z) : string := NilZero.string_of_int (Z.to_int z).

Definition dquote : string := String (ascii_of_nat 34) EmptyString.

(** [JSON.stringify(this.score)] for integer counters. *)
Definition stringify_score (sc : Score) : string :=
  "{" ++ dquote ++ "kills" ++ dquote ++ ":" ++ decimal (kills sc) ++
  "," ++ dquote ++ "deaths" ++ dquote ++ ":" ++ decimal (deaths sc) ++
  "," ++ dquote ++ "total" ++ dquote ++ ":" ++ decimal (total sc) ++ "}".

Definition saveScore (s : t) : t :=
  set_host (set_localStorage (Some (stringify_score (score s))) (host s)) s.

(** [this.score.total = this.score.kills - this.score.deaths] *)
Definition updateTotalScore (s : t) : t :=
  set_score {| kills := kills (score s); deaths := deaths (score s);
               total := Double.sub_Z (kills (score s)) (deaths (score s)) |} s.

(** [this.score.kills++] adds 1 as doubles do. *)
Definition addKill (s : t) : t :=
  let s := set_score {| kills := Double.add_Z (kills (score s)) 1;
                        deaths := deaths (score s);
                        total := total (score s) |} s in
  let s := updateTotalScore s in
  saveScore s.

Definition addDeath (s : t) : t :=
  let s := set_score {| kills := kills (score s);
                        deaths := Double.add_Z (deaths (score s)) 1;
                        total := total (score s) |} s in
  let s := updateTotalScore s in
  saveScore s.

Definition resetScore (s : t) : t :=
  let s := set_score {| kills := 0; deaths := 0; total := 0 |} s in
  saveScore s.

(** [this.score = v; this.updateTotalScore()] for a parsed value [v].
    The class body is strict code: on [null] and on a primitive the
    assignment to [this.score.total] raises a [TypeError].  An object of
    the shape [saveScore] writes, with integer counters, gives the score
    with [total] recomputed.  For any other object or array the counters
    are not integers ([undefined], [NaN], fractions): outside the
    model. *)
Definition score_of_json (v : JSON.value) : outcome Score :=
  match v with
  | JSON.Null | JSON.Bool _ | JSON.Number _ | JSON.Str _ => Throws TypeError
  | JSON.Array _ => OutsideModel
  | JSON.Object fields =>
      match fields with
      | (k1, JSON.Number n1) :: (k2, JSON.Number n2) :: rest =>
          if String.eqb k1 "kills" && String.eqb k2 "deaths"
             && match rest with
                | [] => true
                | [(k3, _)] => String.eqb k3 "total"
                | _ => false
                end
          then
            match JSON.integer n1, JSON.integer n2 with
            | Some k, Some d =>
                Returns {| kills := k; deaths := d; total := (k - d)%Z |}
            | _, _ => OutsideModel
            end
          else OutsideModel
      | _ => OutsideModel
      end
  end.

Definition loadScore (s : t) : outcome t :=
  match localStorage (host s) with
  | None => Returns s
  | Some savedScore =>
      if String.eqb savedScore EmptyString then Returns s else
      match JSON.parse savedScore with
      | None => Throws SyntaxError
      | Some v =>
          match score_of_json v with
          | Returns sc => Returns (set_score sc s)
          | Throws e => Throws e
          | OutsideModel => OutsideModel
          end
      end
  end.

(** *** Viewport *)

Definition centerViewportOnMyAvatar (s : t) : t :=
  match myAvatar s with
  | None => s
  | Some myAvatar =>
      if viewportInitialized s then s else
      let s :=
        if Qle_bool (worldWidth s) (width (canvas s))
           && Qle_bool (worldHeight s) (height (canvas s))
        then
          let s := set_viewportOffsetX 0 s in
          set_viewportOffsetY 0 s
        else
          let s := set_viewportOffsetX
                     (Avatar.x myAvatar - width (canvas s) / 2) s in
          let s := set_viewportOffsetY
                     (Avatar.y myAvatar - height (canvas s) / 2) s in
          let s := set_viewportOffsetX
                     (Qmax 0 (Qmin (viewportOffsetX s)
                                   (worldWidth s - width (canvas s)))) s in
          set_viewportOffsetY
            (Qmax 0 (Qmin (viewportOffsetY s)
                          (worldHeight s - height (canvas s)))) s
      in
      set_viewportInitialized true s
  end.

Definition updateViewport (s : t) : t :=
  if myPlayerId_truthy s && viewportInitialized s then
    match myAvatar s with
    | Some myAvatar =>
        let s := set_viewportOffsetX
                   (Avatar.x myAvatar - width (canvas s) / 2) s in
        let s := set_viewportOffsetY
                   (Avatar.y myAvatar - height (canvas s) / 2) s in
        let s := set_viewportOffsetX
                   (Qmax 0 (Qmin (viewportOffsetX s)
                                 (worldWidth s - width (canvas s)))) s in
        set_viewportOffsetY
          (Qmax 0 (Qmin (viewportOffsetY s)
                        (worldHeight s - height (canvas s)))) s
    | None => s
    end
  else s.

Definition worldToScreen (worldX worldY : Q) (s : t) : Q * Q :=
  (Double.sub worldX (viewportOffsetX s), Double.sub worldY (viewportOffsetY s)).

Definition screenToWorld (screenX screenY : Q) (s : t) : Q * Q :=
  (Double.add screenX (viewportOffsetX s), Double.add screenY (viewportOffsetY s)).

(** *** Combat *)

Definition Qltb (a b : Q) : bool := negb (Qle_bool b a).

(** [Math.sqrt(Math.pow(avatar.x - x, 2) + Math.pow(avatar.y - y, 2))],
    each of the five operations rounded. *)
Definition distance (avatar : Avatar.t) (x y : Q) : Q :=
  Double.sqrt
    (Double.add (Double.square (Double.sub (Avatar.x avatar) x))
                (Double.square (Double.sub (Avatar.y avatar) y))).

(** The loop of [findPlayerInRange] over the remaining avatars, with its
    two variables. *)
Fixpoint findLoop (s : t) (x y : Q) (rest : list Avatar.t)
    (closestPlayer : option Avatar.t) (closestDistance : Q)
  : option Avatar.t :=
  match rest with
  | [] => closestPlayer
  | avatar :: rest' =>
      if is_myPlayerId s (Avatar.id avatar) then
        findLoop s x y rest' closestPlayer closestDistance
      else
        let distance := distance avatar x y in
        if Qltb distance closestDistance then
          findLoop s x y rest' (Some avatar) distance
        else
          findLoop s x y rest' closestPlayer closestDistance
  end.

Definition findPlayerInRange (x y : Q) (s : t) : option Avatar.t :=
  findLoop s x y (values s) None attackRange.

Definition attackPlayer (targetId : string) (s : t) : t :=
  if negb (connected s) then s else
  match websocket s with
  | None => s
  | Some w =>
      let s := emit (WsSend w (attack targetId)) s in
      let s := set_attackCooldown attackCooldownTime s in
      setTimeout (AttackFallback targetId) s
  end.

Definition handleCanvasClick (clickX clickY : Q) (s : t) : t :=
  if negb (connected s) || negb (myPlayerId_truthy s) || negb (is_playing s)
  then s
  else if (0 <? attackCooldown s)%Z then s
  else
    let worldPos := screenToWorld clickX clickY s in
    match findPlayerInRange (fst worldPos) (snd worldPos) s with
    | Some target => attackPlayer (Avatar.id target) s
    | None => s
    end.

(** [update()], once per animation frame. *)
Definition update (s : t) : t :=
  if (0 <? attackCooldown s)%Z then
    let s := set_attackCooldown (attackCooldown s - 16)%Z s in
    if (attackCooldown s <? 0)%Z then set_attackCooldown 0 s else s
  else s.

Definition simulatePlayerDeath (targetId : string) (s : t) : t :=
  match map_get targetId (players s) with
  | Some player =>
      let s := set_players
                 (map_set targetId (Avatar.with_isDead true player)
                    (players s)) s in
      setTimeout (SimulatedRespawn (Avatar.oid player)) s
  | None => s
  end.

(** The callback of the timer in [attackPlayer]. *)
Definition attackFallback (targetId : string) (s : t) : t :=
  if (0 <? attackCooldown s)%Z then
    let s := addKill s in
    simulatePlayerDeath targetId s
  else s.

(** The callback of the timer in [simulatePlayerDeath]:
    [player.isDead = false] on the object the closure holds. *)
Definition simulatedRespawn (player : nat) (s : t) : t :=
  set_players
    (map (fun '(k, a) =>
            (k, if (Avatar.oid a =? player)%nat
                then Avatar.with_isDead false a else a))
       (players s)) s.

(** *** Session state *)

Definition pauseGame (now : Z) (s : t) : t :=
  if negb (is_playing s) then s else
  let s := set_gameState paused s in
  let s := set_pauseStartTime now s in
  sendStopCommand s.

Definition resumeGame (now : Z) (s : t) : t :=
  match gameState s with
  | paused =>
      let s := set_gameState playing s in
      set_totalPauseTime (totalPauseTime s + (now - pauseStartTime s))%Z s
  | _ => s
  end.

Definition togglePause (now : Z) (s : t) : t :=
  match gameState s with
  | playing => pauseGame now s
  | paused => resumeGame now s
  | stopped => s
  end.

Definition stopGame (s : t) : t :=
  let s := set_gameState stopped s in
  let s := match websocket s with
           | Some w => emit (WsClose w) s
           | None => s
           end in
  set_players
    (List.filter (fun e => is_myPlayerId s (fst e)) (players s)) s.

(** [new WebSocket(url)] with the fixed, well-formed address does not
    raise, so the [catch] branch is not taken. *)
Definition connectToServer (s : t) : t :=
  let s := match websocket s with
           | Some w =>
               let s := emit (WsClose w) s in
               set_websocket None s
           | None => s
           end in
  let w := next_socket (host s) in
  let s := set_host (set_next_socket (S w) (host s)) s in
  let s := emit (WsNew w) s in
  set_websocket (Some w) s.

Definition restartGame (s : t) : t :=
  let s := set_gameState playing s in
  let s := set_pauseStartTime 0 s in
  let s := set_totalPauseTime 0 s in
  let s := set_pressedKeys ∅ s in
  let s := set_attackCooldown 0 s in
  let s := set_score {| kills := 0; deaths := 0; total := 0 |} s in
  let s := saveScore s in
  let s := set_players [] s in
  let s := set_myPlayerId None s in
  let s := set_viewportInitialized false s in
  let s := set_viewportOffsetX 0 s in
  let s := set_viewportOffsetY 0 s in
  connectToServer s.

Definition handleGameControlKeys (code : string) (ctrlKey metaKey : bool)
    (now : Z) (s : t) : t :=
  if String.eqb code "Space" then togglePause now s
  else if String.eqb code "Escape" then stopGame s
  else if String.eqb code "KeyR" then
    if ctrlKey || metaKey then restartGame s else s
  else if String.eqb code "KeyS" then
    if ctrlKey || metaKey then resetScore s else s
  else s.

(** *** Messages of the server *)

Definition new_Avatar (playerData : Avatar.PlayerData)
    (avatarData : option Avatar.AvatarData) (s : t) : Avatar.t * t :=
  let '(avatar, n) := Avatar.new playerData avatarData (next_object (host s)) in
  (avatar, set_host (set_next_object n (host s)) s).

(** One round of the loop over [Object.entries(message.players)] in
    [handleJoinGame]. *)
Definition joinPlayer (s : t) (entry : string * Avatar.PlayerData) : t :=
  let '(playerId, playerData) := entry in
  match map_get playerId (players s) with
  | Some existingAvatar =>
      let avatarData := avatars s !! Avatar.pd_avatar playerData in
      let existingAvatar := Avatar.update playerData existingAvatar in
      match avatarData with
      | Some d =>
          let '(a, n) := Avatar.loadAvatarFrames (Avatar.ad_frames d)
                           (next_object (host s)) existingAvatar in
          let s := set_host (set_next_object n (host s)) s in
          set_players (map_set playerId a (players s)) s
      | None => set_players (map_set playerId existingAvatar (players s)) s
      end
  | None =>
      let avatarData := avatars s !! Avatar.pd_avatar playerData in
      let '(avatar, s) := new_Avatar playerData avatarData s in
      set_players (map_set playerId avatar (players s)) s
  end.

Definition handleJoinGame (success : bool) (playerId : string)
    (avatars_ : option (list (string * Avatar.AvatarData)))
    (players_ : option (list (string * Avatar.PlayerData))) (s : t) : t :=
  if success then
    let s := set_myPlayerId (Some playerId) s in
    let s := match avatars_ with
             | Some entries =>
                 fold_left (fun s e => set_avatars (<[fst e := snd e]> (avatars s)) s)
                   entries s
             | None => s
             end in
    let s := match players_ with
             | Some entries => fold_left joinPlayer entries s
             | None => s
             end in
    centerViewportOnMyAvatar s
  else s.

Definition handlePlayerJoined (playerData : Avatar.PlayerData)
    (avatarData : option Avatar.AvatarData) (s : t) : t :=
  let s := match avatarData with
           | Some d => set_avatars (<[Avatar.ad_name d := d]> (avatars s)) s
           | None => s
           end in
  let '(avatar, s) := new_Avatar playerData avatarData s in
  set_players (map_set (Avatar.pd_id playerData) avatar (players s)) s.

Definition movePlayer (s : t) (entry : string * Avatar.PlayerData) : t :=
  let '(playerId, playerData) := entry in
  match map_get playerId (players s) with
  | Some avatar =>
      set_players (map_set playerId (Avatar.update playerData avatar) (players s)) s
  | None => s
  end.

Definition handlePlayersMoved
    (players_ : option (list (string * Avatar.PlayerData))) (s : t) : t :=
  match players_ with
  | Some entries => fold_left movePlayer entries s
  | None => s
  end.

Definition handlePlayerLeft (playerId : string) (s : t) : t :=
  set_players (map_delete playerId (players s)) s.

Definition handleAttack (success : bool) (targetId : string) (kill : bool)
    (s : t) : t :=
  if success then
    if kill then addKill s
    else
      let s := addKill s in
      simulatePlayerDeath targetId s
  else s.

Definition handlePlayerDied (playerId : string) (s : t) : t :=
  match map_get playerId (players s) with
  | Some player =>
      let s := set_players
                 (map_set playerId (Avatar.with_isDead true player)
                    (players s)) s in
      if is_myPlayerId s playerId then addDeath s else s
  | None => s
  end.

Definition handlePlayerRespawned (playerId : string) (x y : Q) (s : t) : t :=
  match map_get playerId (players s) with
  | Some player =>
      set_players
        (map_set playerId
           (Avatar.with_position x y (Avatar.with_isDead false player))
           (players s)) s
  | None => s
  end.

Definition handleMessage (m : message) (s : t) : t :=
  match m with
  | join_game_result success playerId avatars_ players_ =>
      handleJoinGame success playerId avatars_ players_ s
  | player_joined player avatar => handlePlayerJoined player avatar s
  | players_moved players_ => handlePlayersMoved players_ s
  | player_left playerId => handlePlayerLeft playerId s
  | attack_result success targetId kill => handleAttack success targetId kill s
  | player_died playerId => handlePlayerDied playerId s
  | player_respawned playerId x y => handlePlayerRespawned playerId x y s
  | unknown_action _ => s
  end.

(** *** The heads-up display *)

(** The count [playersInRange] of [renderAttackRangeIndicator]; [None]
    when the method returns before counting.  The hint "Click to attack"
    is drawn when the count is positive. *)
Definition playersInRange (s : t) : option nat :=
  if negb (myPlayerId_truthy s) then None else
  match myAvatar s with
  | None => None
  | Some myAvatar =>
      let screenX := Double.sub (Avatar.x myAvatar) (viewportOffsetX s) in
      let screenY := Double.sub (Avatar.y myAvatar) (viewportOffsetY s) in
      if Qltb screenX (-50)
         || Qltb (Double.add (width (canvas s)) 50) screenX
         || Qltb screenY (-50)
         || Qltb (Double.add (height (canvas s)) 50) screenY
      then None
      else
        Some (length
                (List.filter
                   (fun avatar =>
                      negb (is_myPlayerId s (Avatar.id avatar)
                            || Avatar.isDead avatar)
                      && Qle_bool
                           (distance avatar (Avatar.x myAvatar) (Avatar.y myAvatar))
                           attackRange)
                   (values s)))
  end.

(** *** Drawing a frame *)

(** [renderAttackCooldown()] *)
Definition renderAttackCooldown (s : t) : list Avatar.Call :=
  if (0 <? attackCooldown s)%Z then
    let barWidth := 200 in
    let barHeight := 20 in
    let x := Double.div (Double.sub (width (canvas s)) barWidth) 2 in
    let y := 20 in
    let progress :=
      Double.sub 1 (Double.div (inject_Z (attackCooldown s))
                               (inject_Z attackCooldownTime)) in
    [Context2D.save;
     Context2D.set_fillStyle "rgba(0, 0, 0, 0.5)";
     Context2D.fillRect x y barWidth barHeight;
     Context2D.set_fillStyle "red";
     Context2D.fillRect x y (Double.mul barWidth progress) barHeight;
     Context2D.set_strokeStyle "white";
     Context2D.set_lineWidth 2;
     Context2D.strokeRect x y barWidth barHeight;
     Context2D.set_fillStyle "white";
     Context2D.set_font "14px Arial";
     Context2D.set_textAlign "center";
     Context2D.fillText "Attack Cooldown"
       (Double.div (width (canvas s)) 2) (Double.add y 15);
     Context2D.restore]
  else [].

(** [renderScore()]; the counters are printed as [decimal] prints
    them. *)
Definition renderScore (s : t) : list Avatar.Call :=
  let x := 20 in
  let y := 20 in
  let padding := 10 in
  [Context2D.save;
   Context2D.set_fillStyle "rgba(0, 0, 0, 0.7)";
   Context2D.fillRect (x - padding) (y - padding) 200 80;
   Context2D.set_strokeStyle "white";
   Context2D.set_lineWidth 2;
   Context2D.strokeRect (x - padding) (y - padding) 200 80;
   Context2D.set_fillStyle "white";
   Context2D.set_font "bold 18px Arial";
   Context2D.set_textAlign "left";
   Context2D.set_fillStyle
     (if (0 <=? total (score s))%Z then "#00ff00" else "#ff0000");
   Context2D.fillText ("Score: " ++ decimal (total (score s))) x (y + 20);
   Context2D.set_fillStyle "white";
   Context2D.set_font "14px Arial";
   Context2D.fillText ("Kills: " ++ decimal (kills (score s))) x (y + 40);
   Context2D.fillText ("Deaths: " ++ decimal (deaths (score s))) x (y + 60);
   Context2D.restore].

(** [renderAttackRangeIndicator()]: [playersInRange] is [None] where the
    method returns before it draws. *)
Definition renderAttackRangeIndicator (s : t) : list Avatar.Call :=
  match playersInRange s, myAvatar s with
  | Some n, Some myAvatar =>
      let screenX := Double.sub (Avatar.x myAvatar) (viewportOffsetX s) in
      let screenY := Double.sub (Avatar.y myAvatar) (viewportOffsetY s) in
      [Context2D.save;
       Context2D.set_strokeStyle "rgba(255, 0, 0, 0.3)";
       Context2D.set_lineWidth 2;
       Context2D.setLineDash [5; 5];
       Context2D.beginPath;
       Context2D.arc screenX screenY attackRange;
       Context2D.stroke]
      ++ (if (0 <? n)%nat
          then [Context2D.set_fillStyle "red";
                Context2D.set_font "bold 14px Arial";
                Context2D.set_textAlign "center";
                Context2D.fillText
                  ("Click to attack! (" ++ decimal (Z.of_nat n) ++ " in range)")
                  screenX (Double.sub (Double.sub screenY attackRange) 10)]
          else [])
      ++ [Context2D.restore]
  | _, _ => []
  end.

(** [renderGameStateOverlay()] *)
Definition renderGameStateOverlay (s : t) : list Avatar.Call :=
  if is_playing s then [] else
  let stateText :=
    match gameState s with
    | paused => "PAUSED"
    | stopped => "GAME STOPPED"
    | playing => EmptyString
    end in
  let instructions :=
    match gameState s with
    | paused => "Press SPACE to resume"
    | stopped => "Press Ctrl+R to restart"
    | playing => EmptyString
    end in
  [Context2D.save;
   Context2D.set_fillStyle "rgba(0, 0, 0, 0.7)";
   Context2D.fillRect 0 0 (width (canvas s)) (height (canvas s));
   Context2D.set_fillStyle "white";
   Context2D.set_font "bold 48px Arial";
   Context2D.set_textAlign "center";
   Context2D.fillText stateText
     (Double.div (width (canvas s)) 2)
     (Double.sub (Double.div (height (canvas s)) 2) 50);
   Context2D.set_font "24px Arial";
   Context2D.fillText instructions
     (Double.div (width (canvas s)) 2)
     (Double.add (Double.div (height (canvas s)) 2) 20);
   Context2D.set_font "16px Arial";
   Context2D.fillText
     "Controls: SPACE = Pause/Resume, ESC = Stop, Ctrl+R = Restart, Ctrl+S = Reset Score"
     (Double.div (width (canvas s)) 2)
     (Double.add (Double.div (height (canvas s)) 2) 60);
   Context2D.restore].

(** The world map as [render] draws it: scaled to fit and centred when
    the world is not larger than the canvas, the part under the viewport
    otherwise. *)
Definition drawWorld (s : t) : Avatar.Call :=
  if Qle_bool (worldWidth s) (width (canvas s))
     && Qle_bool (worldHeight s) (height (canvas s))
  then
    let scaleX := width (canvas s) / worldWidth s in
    let scaleY := height (canvas s) / worldHeight s in
    let scale := Qmin scaleX scaleY in
    let scaledWidth := worldWidth s * scale in
    let scaledHeight := worldHeight s * scale in
    let offsetX := (width (canvas s) - scaledWidth) / 2 in
    let offsetY := (height (canvas s) - scaledHeight) / 2 in
    Context2D.drawImage_world 0 0 (worldWidth s) (worldHeight s)
      offsetX offsetY scaledWidth scaledHeight
  else
    Context2D.drawImage_world (viewportOffsetX s) (viewportOffsetY s)
      (width (canvas s)) (height (canvas s))
      0 0 (width (canvas s)) (height (canvas s)).

(** [render()].  [this.worldImage] is assigned by [init], before any
    callback can run, so the first test of the method never returns. *)
Definition render (s : t) : list Avatar.Call :=
  [Context2D.clearRect 0 0 (width (canvas s)) (height (canvas s));
   drawWorld s]
  ++ flat_map
       (Avatar.render (width (canvas s)) (height (canvas s))
          (viewportOffsetX s) (viewportOffsetY s))
       (values s)
  ++ renderAttackCooldown s
  ++ renderScore s
  ++ renderAttackRangeIndicator s
  ++ renderGameStateOverlay s.

(** *** Callbacks of the host *)

Inductive event :=
| KeyDown (code : string) (ctrlKey metaKey : bool) (now : Z)
| KeyUp (code : string)
| Click (clickX clickY : Q)
| AnimationFrame
| Resize (innerWidth innerHeight : Q)
| SocketOpen
| SocketClose
| SocketError
| SocketMessage (m : message)
| Timeout (i : nat).

(** The [i]-th pending timer runs and is gone. *)
Definition runTimeout (i : nat) (s : t) : t :=
  match timers (host s) !! i with
  | None => s
  | Some tm =>
      let s := set_host (set_timers (delete i (timers (host s))) (host s)) s in
      match tm with
      | AttackFallback targetId => attackFallback targetId s
      | SimulatedRespawn player => simulatedRespawn player s
      end
  end.

Definition step (e : event) (s : t) : t :=
  match e with
  | KeyDown code ctrlKey metaKey now =>
      let s := handleKeyDown code s in
      handleGameControlKeys code ctrlKey metaKey now s
  | KeyUp code => handleKeyUp code s
  | Click clickX clickY => handleCanvasClick clickX clickY s
  | AnimationFrame => update s
  | Resize innerWidth innerHeight =>
      let s := set_canvas {| width := innerWidth; height := innerHeight |} s in
      updateViewport s
  | SocketOpen =>
      let s := set_connected true s in
      joinGame s
  | SocketClose => set_connected false s
  | SocketError => s
  | SocketMessage m => handleMessage m s
  | Timeout i => runTimeout i s
  end.

Definition run (es : list event) (s : t) : t := fold_left (fun s e => step e s) es s.

(** *** Construction *)

(** The fields as the constructor assigns them, before [loadScore] and
    [init]; [setupCanvas] gives the canvas the size of the window. *)
Definition fresh (stored : option string) (innerWidth innerHeight : Q) : t :=
  {| canvas := {| width := innerWidth; height := innerHeight |};
     worldWidth := 2048; worldHeight := 2048;
     myPlayerId := None; players := []; avatars := ∅;
     websocket := None; connected := false;
     viewportOffsetX := 0; viewportOffsetY := 0;
     viewportInitialized := false;
     pressedKeys := ∅;
     attackCooldown := 0;
     score := {| kills := 0; deaths := 0; total := 0 |};
     gameState := playing; pauseStartTime := 0; totalPauseTime := 0;
     host := {| localStorage := stored; effects := []; timers := [];
                next_socket := 0; next_object := 0 |} |}.

(** [new GameClient()] *)
Definition construct (stored : option string) (innerWidth innerHeight : Q)
  : outcome t :=
  match loadScore (fresh stored innerWidth innerHeight) with
  | Returns s => Returns (connectToServer s)
  | Throws e => Throws e
  | OutsideModel => OutsideModel
  end.

(** The states of a client that was constructed and then received
    events. *)
Inductive reachable : t -> Prop :=
| reachable_construct stored w h s :
    construct stored w h = Returns s -> reachable s
| reachable_step e s : reachable s -> reachable (step e s).

End GameClient.

(** ** Vocabulary of the statements *)

(** A call of the score ledger, for sequences of calls. *)
Inductive score_call := AddKill | AddDeath.

Definition do_score_call (s : GameClient.t) (c : score_call) : GameClient.t :=
  match c with
  | AddKill => GameClient.addKill s
  | AddDeath => GameClient.addDeath s
  end.

Definition do_score_calls (cs : list score_call) (s : GameClient.t) : GameClient.t :=
  fold_left do_score_call cs s.

(** Both counters of the score are below [b] in magnitude. *)
Definition counters_below (b : Z) (s : GameClient.t) : Prop :=
  (Z.abs (GameClient.kills (GameClient.score s)) < b)%Z /\
  (Z.abs (GameClient.deaths (GameClient.score s)) < b)%Z.

(** The number of calls of [addKill] and of [addDeath] in a sequence. *)
Definition kills_in (cs : list score_call) : Z :=
  Z.of_nat (length (List.filter (fun c => match c with AddKill => true | AddDeath => false end) cs)).

Definition deaths_in (cs : list score_call) : Z :=
  Z.of_nat (length (List.filter (fun c => match c with AddKill => false | AddDeath => true end) cs)).

(** A client whose score holds 2^53 kills. *)
Definition full_ledger : GameClient.t :=
  GameClient.set_score
    {| GameClient.kills := 2 ^ 53; GameClient.deaths := 0;
       GameClient.total := 2 ^ 53 |}
    (GameClient.connectToServer (GameClient.fresh None 800 600)).

(** A session used in examples: a client built in an 800 x 600 window with
    no stored score, whose socket opened and who joined as player 1 at
    (1000, 1000), with player 2 standing 40 to the east. *)
Definition snapshot (i : string) (x y : Q) : Avatar.PlayerData :=
  {| Avatar.pd_id := i; Avatar.pd_username := i;
     Avatar.pd_x := x; Avatar.pd_y := y;
     Avatar.pd_facing := "south"; Avatar.pd_isMoving := false;
     Avatar.pd_animationFrame := None; Avatar.pd_avatar := "knight" |}.

Definition started : GameClient.t :=
  GameClient.connectToServer (GameClient.fresh None 800 600).

Definition joined : GameClient.t :=
  GameClient.run
    [GameClient.SocketOpen;
     GameClient.SocketMessage
       (GameClient.join_game_result true "1" None
          (Some [("1", snapshot "1" 1000 1000);
                 ("2", snapshot "2" 1040 1000)]))]
    started.

(** The frame set of an avatar type, for examples. *)
Definition knight : Avatar.AvatarData :=
  {| Avatar.ad_name := "knight";
     Avatar.ad_frames :=
       {| Avatar.fd_north := Some ["n0"];
          Avatar.fd_south := Some ["s0"; "s1"];
          Avatar.fd_east := Some ["e0"; "e1"; "e2"] |} |}.

(** The avatar stored under a key, for examples in which it exists. *)
Definition avatar_of (k : string) (s : GameClient.t) : Avatar.t :=
  match GameClient.map_get k (GameClient.players s) with
  | Some a => a
  | None => fst (Avatar.new (snapshot k 0 0) None 0)
  end.

(** The local player clicks on itself, which targets player 2, and the
    server confirms the kill. *)
Definition attacked_and_confirmed : GameClient.t :=
  GameClient.run
    [GameClient.Click 400 300;
     GameClient.SocketMessage (GameClient.attack_result true "2" true)]
    joined.

(** Sixty animation frames later (one second at 60 Hz) the fallback timer
    of that attack runs. *)
Definition after_fallback : GameClient.t :=
  GameClient.run
    (repeat GameClient.AnimationFrame 60 ++ [GameClient.Timeout 0])%list
    attacked_and_confirmed.

(** Player 2 has died. *)
Definition joined_dead : GameClient.t :=
  GameClient.step (GameClient.SocketMessage (GameClient.player_died "2")) joined.

(** A session in which the local player 1 stands at the origin of the world
    among the given opponents (identifier and position), in the order the
    server lists them. *)
Definition arena (opponents : list (string * (Q * Q))) : GameClient.t :=
  GameClient.run
    [GameClient.SocketOpen;
     GameClient.SocketMessage
       (GameClient.join_game_result true "1" None
          (Some (("1", snapshot "1" 0 0)
                   :: map (fun o => (fst o, snapshot (fst o) (fst (snd o)) (snd (snd o))))
                        opponents)))]
    started.

(** The arena with one opponent, who has died. *)
Definition arena_dead (x y : Q) : GameClient.t :=
  GameClient.step (GameClient.SocketMessage (GameClient.player_died "2"))
    (arena [("2", (x, y))]).

(** [a] is not the local player's avatar: the test of the loop in
    [findPlayerInRange]. *)
Definition other_player (s : GameClient.t) (a : Avatar.t) : Prop :=
  GameClient.is_myPlayerId s (Avatar.id a) = false.

(** [a] is the target among the avatars [l], listed in iteration order:
    not the local player, at a distance from (x, y) that the client
    computes as strictly below the attack radius, strictly below the
    distance of every other player listed before it and at most the
    distance of every one listed after it. *)
Definition first_nearest (s : GameClient.t) (x y : Q) (l : list Avatar.t)
    (a : Avatar.t) : Prop :=
  other_player s a /\
  (GameClient.distance a x y < GameClient.attackRange)%Q /\
  exists before after,
    l = (before ++ a :: after)%list /\
    (forall b, In b before -> other_player s b ->
               (GameClient.distance a x y < GameClient.distance b x y)%Q) /\
    (forall b, In b after -> other_player s b ->
               (GameClient.distance a x y <= GameClient.distance b x y)%Q).

(** No avatar of [l] other than the local player's is at a computed
    distance from (x, y) strictly below the attack radius. *)
Definition none_in_range (s : GameClient.t) (x y : Q) (l : list Avatar.t) : Prop :=
  forall b, In b l -> other_player s b ->
            ~ (GameClient.distance b x y < GameClient.attackRange)%Q.

(** What the two variables of the loop of [findPlayerInRange] hold after
    the avatars [seen]. *)
Definition loop_invariant (s : GameClient.t) (x y : Q) (seen : list Avatar.t)
    (closestPlayer : option Avatar.t) (closestDistance : Q) : Prop :=
  match closestPlayer with
  | None =>
      closestDistance = GameClient.attackRange /\ none_in_range s x y seen
  | Some a =>
      closestDistance = GameClient.distance a x y
      /\ first_nearest s x y seen a
  end.

(** A string of decimal digits. *)
Fixpoint all_digits (s : string) : bool :=
  match s with
  | EmptyString => true
  | String c r => JSON.is_digit c && all_digits r
  end.

(** The square of the Euclidean distance of an avatar from (x, y),
    exactly. *)
Definition euclidean_square (avatar : Avatar.t) (x y : Q) : Q :=
  ((Avatar.x avatar - x) * (Avatar.x avatar - x)
   + (Avatar.y avatar - y) * (Avatar.y avatar - y))%Q.

(** A method leaves the attack cooldown and the socket object as they
    were. *)
Definition untouched (s s' : GameClient.t) : Prop :=
  GameClient.attackCooldown s' = GameClient.attackCooldown s /\
  GameClient.websocket s' = GameClient.websocket s.

(** The bound of the viewport offset. *)
Definition viewport_in_bounds (s : GameClient.t) : Prop :=
  (0 <= GameClient.viewportOffsetX s
   /\ GameClient.viewportOffsetX s
      <= Qmax 0 (GameClient.worldWidth s - GameClient.width (GameClient.canvas s))
   /\ 0 <= GameClient.viewportOffsetY s
   /\ GameClient.viewportOffsetY s
      <= Qmax 0 (GameClient.worldHeight s - GameClient.height (GameClient.canvas s)))%Q.

(** What the handlers of server messages and of timers never touch: the
    session state, the connection, the keys held, the canvas and world
    sizes, the cooldown, the pause clock and the calls made on sockets. *)
Definition control_kept (s s' : GameClient.t) : Prop :=
  GameClient.gameState s' = GameClient.gameState s /\
  GameClient.connected s' = GameClient.connected s /\
  GameClient.websocket s' = GameClient.websocket s /\
  GameClient.pressedKeys s' = GameClient.pressedKeys s /\
  GameClient.canvas s' = GameClient.canvas s /\
  GameClient.worldWidth s' = GameClient.worldWidth s /\
  GameClient.worldHeight s' = GameClient.worldHeight s /\
  GameClient.attackCooldown s' = GameClient.attackCooldown s /\
  GameClient.pauseStartTime s' = GameClient.pauseStartTime s /\
  GameClient.totalPauseTime s' = GameClient.totalPauseTime s /\
  GameClient.effects (GameClient.host s') = GameClient.effects (GameClient.host s) /\
  GameClient.next_socket (GameClient.host s')
  = GameClient.next_socket (GameClient.host s).

(** The session state after a callback, read off the key handlers: Space
    toggles between playing and paused, Escape stops, Ctrl+R or Cmd+R
    restarts. *)
Definition next_gameState (e : GameClient.event) (g : GameClient.GameState)
  : GameClient.GameState :=
  match e with
  | GameClient.KeyDown code ctrlKey metaKey _ =>
      if String.eqb code "Space" then
        match g with
        | GameClient.playing => GameClient.paused
        | GameClient.paused => GameClient.playing
        | GameClient.stopped => GameClient.stopped
        end
      else if String.eqb code "Escape" then GameClient.stopped
      else if String.eqb code "KeyR" then
        if ctrlKey || metaKey then GameClient.playing else g
      else g
  | _ => g
  end.

(** The actions handed to [send], in order. *)
Definition sent (s : GameClient.t) : list GameClient.action :=
  omap (fun e => match e with
                 | GameClient.WsSend _ a => Some a
                 | _ => None
                 end)
    (GameClient.effects (GameClient.host s)).

(** A handler leaves the score and its stored record alone. *)
Definition ledger_kept (s s' : GameClient.t) : Prop :=
  GameClient.score s' = GameClient.score s /\
  GameClient.localStorage (GameClient.host s')
  = GameClient.localStorage (GameClient.host s).

(** The total is up to date: it is the difference of the two counters
    as doubles give it. *)
Definition total_updated (sc : GameClient.Score) : Prop :=
  GameClient.total sc = Double.sub_Z (GameClient.kills sc) (GameClient.deaths sc).

(** The stored record is the text of the current score, whose total is up
    to date. *)
Definition ledger_saved (s : GameClient.t) : Prop :=
  GameClient.localStorage (GameClient.host s)
  = Some (GameClient.stringify_score (GameClient.score s)) /\
  total_updated (GameClient.score s).

(** The avatar shows what the snapshot of the server says: the fields
    [update] and the constructor copy. *)
Definition shows (p : Avatar.PlayerData) (a : Avatar.t) : Prop :=
  Avatar.x a = Avatar.pd_x p /\
  Avatar.y a = Avatar.pd_y p /\
  Avatar.facing a = Avatar.pd_facing p /\
  Avatar.isMoving a = Avatar.pd_isMoving p /\
  Avatar.animationFrame a = Avatar.animationFrame_or_0 p.

(** What [update] never changes in an avatar: the object, who it is, its
    death flag and its images. *)
Definition identity_of (a : Avatar.t)
  : nat * string * string * string * bool * Avatar.Frames :=
  (Avatar.oid a, Avatar.id a, Avatar.username a, Avatar.avatarName a,
   Avatar.isDead a, Avatar.frames a).

(** The number of images [loadAvatarFrames] creates for one direction. *)
Definition frame_count (o : option (list string)) : nat :=
  match o with
  | Some l => length l
  | None => 0
  end.

(** The depth of the context's state stack after a sequence of calls
    made at depth [d].  [None] when a call would leave a trace behind:
    a style, the transform or the dash pattern assigned at depth 0,
    where no [restore] undoes it, or a [restore] with nothing saved. *)
Fixpoint scoped (d : nat) (cs : list Avatar.Call) : option nat :=
  match cs with
  | [] => Some d
  | c :: cs =>
      match c with
      | Context2D.save => scoped (S d) cs
      | Context2D.restore =>
          match d with
          | O => None
          | S d' => scoped d' cs
          end
      | Context2D.scale _ _ | Context2D.setLineDash _
      | Context2D.set_fillStyle _ | Context2D.set_strokeStyle _
      | Context2D.set_lineWidth _ | Context2D.set_font _
      | Context2D.set_textAlign _ =>
          match d with
          | O => None
          | S _ => scoped d cs
          end
      | _ => scoped d cs
      end
  end.

(** What a viewer sees of the avatars: a sprite on a rectangle of the
    canvas, a filled text at a point, each mirrored or not. *)
Inductive drawn :=
| Sprite (image : Avatar.Image) (left top right bottom : Q) (mirrored : bool)
| Label (text : string) (x y : Q) (mirrored : bool).

(** The interval that [a, a + w] becomes under the scale factor [k]. *)
Definition span (k a w : Q) : Q * Q :=
  (Qmin (k * a) (k * (a + w)), Qmax (k * a) (k * (a + w)))%Q.

(** The sprites and labels of a sequence of calls, in canvas pixels.
    The transform of the context is the pair [tr] of its scale factors,
    [scale] being the only transformation the client uses; [save] pushes
    it on [stack] and [restore] pops it. *)
Fixpoint seen (tr : Q * Q) (stack : list (Q * Q)) (cs : list Avatar.Call)
  : list drawn :=
  match cs with
  | [] => []
  | c :: cs =>
      match c with
      | Context2D.save => seen tr (tr :: stack) cs
      | Context2D.restore =>
          match stack with
          | [] => seen tr [] cs
          | tr' :: stack' => seen tr' stack' cs
          end
      | Context2D.scale kx ky => seen (fst tr * kx, snd tr * ky)%Q stack cs
      | Context2D.drawImage img dx dy w h =>
          Sprite img (fst (span (fst tr) dx w)) (fst (span (snd tr) dy h))
            (snd (span (fst tr) dx w)) (snd (span (snd tr) dy h))
            (Avatar.Qlt_bool (fst tr) 0)
          :: seen tr stack cs
      | Context2D.fillText text x y =>
          Label text (fst tr * x)%Q (snd tr * y)%Q (Avatar.Qlt_bool (fst tr) 0)
          :: seen tr stack cs
      | _ => seen tr stack cs
      end
  end.

(** The avatar's position on the canvas passes the test of
    [Avatar.render]: it is at most one sprite width outside. *)
Definition visible (cw ch vx vy : Q) (a : Avatar.t) : Prop :=
  let screenX := Double.sub (Avatar.x a) vx in
  let screenY := Double.sub (Avatar.y a) vy in
  (- Avatar.avatarSize <= screenX /\
   screenX <= Double.add cw Avatar.avatarSize /\
   - Avatar.avatarSize <= screenY /\
   screenY <= Double.add ch Avatar.avatarSize)%Q.

(** The sprite an avatar has to show, with its mirroring, and the text
    of its label. *)
Definition sprite (a : Avatar.t) : option (Avatar.Image * bool) :=
  if Avatar.isDead a then None
  else
    match Avatar.getCurrentFrame a with
    | Some {| Avatar.image := Some img; Avatar.flipHorizontal := flip |} =>
        Some (img, flip)
    | _ => None
    end.

Definition label (a : Avatar.t) : string :=
  if Avatar.isDead a then Avatar.username a ++ " (DEAD)" else Avatar.username a.

(** What a viewer sees of the calls [out] is the sprite [sp], if any, on
    the square of side 32 whose upper left corner is ([left], [top]),
    mirrored or not as [sp] says, and then the text [text] at ([tx],
    [ty]), not mirrored; and nothing else. *)
Definition displays (out : list Avatar.Call) (sp : option (Avatar.Image * bool))
    (left top : Q) (text : string) (tx ty : Q) : Prop :=
  exists tx' ty',
    (tx' == tx /\ ty' == ty)%Q /\
    match sp with
    | Some (img, flip) =>
        exists l t r b,
          seen (1, 1)%Q [] out
          = [Sprite img l t r b flip; Label text tx' ty' false] /\
          (l == left /\ t == top /\ r == left + 32 /\ b == top + 32)%Q
    | None => seen (1, 1)%Q [] out = [Label text tx' ty' false]
    end.

(** A knight at (10, 20) that walks to the west, for examples. *)
Definition walking_west : Avatar.t :=
  Avatar.update
    {| Avatar.pd_id := "7"; Avatar.pd_username := "7";
       Avatar.pd_x := 10; Avatar.pd_y := 20;
       Avatar.pd_facing := "west"; Avatar.pd_isMoving := true;
       Avatar.pd_animationFrame := Some 4%Z; Avatar.pd_avatar := "knight" |}
    (fst (Avatar.new (snapshot "7" 0 0) (Some knight) 0)).

(** The calls of a sequence that fill a rectangle. *)
Definition filled (cs : list Avatar.Call) : list (Q * Q * Q * Q) :=
  omap (fun c =>
          match c with
          | Context2D.fillRect x y w h => Some (x, y, w, h)
          | _ => None
          end) cs.

(** The calls of a sequence that fill a text. *)
Definition texts (cs : list Avatar.Call) : list string :=
  omap (fun c =>
          match c with
          | Context2D.fillText text _ _ => Some text
          | _ => None
          end) cs.

(** The local avatar's position on the canvas passes the test of
    [renderAttackRangeIndicator]. *)
Definition indicator_visible (s : GameClient.t) (me : Avatar.t) : Prop :=
  let screenX := Double.sub (Avatar.x me) (GameClient.viewportOffsetX s) in
  let screenY := Double.sub (Avatar.y me) (GameClient.viewportOffsetY s) in
  (-50 <= screenX /\
   screenX <= Double.add (GameClient.width (GameClient.canvas s)) 50 /\
   -50 <= screenY /\
   screenY <= Double.add (GameClient.height (GameClient.canvas s)) 50)%Q.

(** A client in a window of 4096 x 3072, larger than the world, for
    examples. *)
Definition large_window : GameClient.t :=
  GameClient.connectToServer (GameClient.fresh None 4096 3072).

(** The use the client makes of sockets, read off a log of host calls.
    [cur] is the newest socket with a flag that tells whether [close]
    was called on it, [next] the number the next socket will take.  A
    log is in order when sockets are created with consecutive numbers,
    each only after [close] was called on the one before it, and every
    [send] and [close] is made on the newest socket; the result is then
    the newest socket at the end of the log, with its flag, and the
    next number. *)
Fixpoint socket_use (cur : option (nat * bool)) (next : nat)
    (es : list GameClient.effect) : option (option (nat * bool) * nat) :=
  match es with
  | [] => Some (cur, next)
  | GameClient.WsNew n :: es =>
      if (n =? next)%nat
         && match cur with Some (_, closed) => closed | None => true end
      then socket_use (Some (n, false)) (S next) es
      else None
  | GameClient.WsClose n :: es =>
      match cur with
      | Some (w, _) =>
          if (n =? w)%nat then socket_use (Some (w, true)) next es else None
      | None => None
      end
  | GameClient.WsSend n _ :: es =>
      match cur with
      | Some (w, _) => if (n =? w)%nat then socket_use cur next es else None
      | None => None
      end
  end.

(** The client holds the newest socket of a log that is in order. *)
Definition sockets_in_order (s : GameClient.t) : Prop :=
  exists w closed,
    GameClient.websocket s = Some w /\
    GameClient.next_socket (GameClient.host s) = S w /\
    socket_use None 0 (GameClient.effects (GameClient.host s))
    = Some (Some (w, closed), S w).

(** A method keeps the socket it found, creates none, and calls [send]
    and [close] on that socket only. *)
Definition socket_kept (s s' : GameClient.t) : Prop :=
  GameClient.websocket s' = GameClient.websocket s /\
  GameClient.next_socket (GameClient.host s')
  = GameClient.next_socket (GameClient.host s) /\
  exists l,
    GameClient.effects (GameClient.host s')
    = (GameClient.effects (GameClient.host s) ++ l)%list /\
    Forall (fun e =>
              match e with
              | GameClient.WsNew _ => False
              | GameClient.WsSend n _ | GameClient.WsClose n =>
                  GameClient.websocket s = Some n
              end) l.

(** [q] is an integer of magnitude at most [b]. *)
Definition integral (b : Z) (q : Q) : Prop :=
  exists z, (q == inject_Z z)%Q /\ (Z.abs z <= b)%Z.

(** The joined session with the viewport moved to the offset 600.3 (the
    double nearest to it) by 700. *)
Definition joined_off_grid : GameClient.t :=
  GameClient.set_viewportOffsetX (Double.round (6003 # 10)) joined.

(** The images of one direction of a new avatar are those of the frame
    data: one image per string, in order, and none when the data has no
    such direction. *)
Definition loaded_from (data : option (list string)) (images : list Avatar.Image)
  : Prop :=
  match data with
  | Some l => map Avatar.img_src images = l
  | None => images = []
  end.

(** A width of the red fill that stays inside the bar and is within
    2^-40 of 200 - c / 5, for a cooldown of [c] milliseconds. *)
Definition fill_ok (c : Z) (fill : Q) : bool :=
  Qle_bool 0 fill && Avatar.Qlt_bool fill 200
  && Qle_bool (Qabs (fill - (200 - inject_Z c / 5))) (1 # 2 ^ 40).

(** ** Theorems *)

(** *** Doubles *)

(** Values of the arithmetic that are known from any implementation of
    binary64: 0.1 + 0.2 is 0.30000000000000004, the square root of 2,
    1 / 3, the cooldown bar at 984 ms (3.200000000000003), 2^53 + 1
    rounded to even, and the smallest doubles. *)
Example double_values :
  Double.add (Double.round (1 # 10)) (Double.round (2 # 10))
  = (1351079888211149 # 4503599627370496)%Q /\
  Double.sqrt 2 = (6369051672525773 # 4503599627370496)%Q /\
  Double.div 1 3 = (6004799503160661 # 18014398509481984)%Q /\
  Double.mul 200 (Double.sub 1 (Double.div 984 1000))
  = (225179981368525 # 70368744177664)%Q /\
  Double.round (inject_Z (2 ^ 53 + 1)) = inject_Z (2 ^ 53) /\
  Double.round (1 # 2 ^ 1075) = 0%Q /\
  Double.round (3 # 2 ^ 1075) = (1 # 2 ^ 1073)%Q.
Proof. vm_compute. repeat split. Qed.

(** *** Doubles that hold integers *)

Lemma Qred_inject_Z z : Qred (inject_Z z) = inject_Z z.
Proof.
  unfold Qred, inject_Z.
  generalize (Z.ggcd_gcd z 1) (Z.ggcd_correct_divisors z 1).
  destruct (Z.ggcd z 1) as (g & aa & bb). cbn [fst snd].
  rewrite Z.gcd_1_r. intros -> [Ha Hb].
  assert (aa = z) as -> by lia. assert (bb = 1%Z) as -> by lia.
  reflexivity.
Qed.

Lemma nearest_even_1 n : Double.nearest_even n 1 = n.
Proof.
  unfold Double.nearest_even. rewrite Z.mod_1_r, Z.div_1_r. reflexivity.
Qed.

Lemma scale_integer z e :
  (e <= 0)%Z -> (Double.scale (z * 2 ^ (- e)) e == inject_Z z)%Q.
Proof.
  intros He. unfold Double.scale.
  destruct (0 <=? e)%Z eqn:E.
  - apply Z.leb_le in E. assert (e = 0%Z) as -> by lia.
    cbn. rewrite !Z.mul_1_r. reflexivity.
  - apply Z.leb_gt in E.
    assert (0 < 2 ^ (- e))%Z as Hp by (apply Z.pow_pos_nonneg; lia).
    unfold Qeq. cbn. rewrite Z2Pos.id by exact Hp. ring.
Qed.

(** Rounding depends on the value only. *)
Lemma round_comp q q' : (q == q')%Q -> Double.round q = Double.round q'.
Proof.
  intros H. unfold Double.round. rewrite (Qred_complete _ _ H). reflexivity.
Qed.

(** Rounding keeps an integer of magnitude at most 2^53. *)
Lemma round_inject_Z z :
  (Z.abs z <= 2 ^ 53)%Z -> Double.round (inject_Z z) = inject_Z z.
Proof.
  intros Hz.
  destruct (Z.eq_dec (Z.abs z) (2 ^ 53)%Z) as [E|E].
  { assert (z = 2 ^ 53 \/ z = - 2 ^ 53)%Z as [-> | ->] by lia;
      vm_compute; reflexivity. }
  assert (Z.abs z < 2 ^ 53)%Z as Hlt by lia. clear Hz E.
  unfold Double.round.
  rewrite Qred_inject_Z. cbn [Qnum Qden inject_Z].
  destruct (Z.eqb_spec (Z.abs z) 0) as [E|E].
  - assert (z = 0%Z) as -> by lia. reflexivity.
  - assert (0 < Z.abs z)%Z as Hn by lia.
    assert (Double.log2_floor (Z.abs z) 1 = Z.log2 (Z.abs z)) as ->.
    { unfold Double.log2_floor. change (Z.log2 1) with 0%Z. rewrite Z.sub_0_r.
      pose proof (Z.log2_nonneg (Z.abs z)) as H0.
      destruct (0 <=? Z.log2 (Z.abs z))%Z eqn:E0; [|lia].
      destruct (Z.log2_spec _ Hn) as [Hl _].
      assert ((1 * 2 ^ Z.log2 (Z.abs z) <=? Z.abs z)%Z = true) as -> by lia.
      reflexivity. }
    assert (Z.log2 (Z.abs z) < 53)%Z as Hl
      by (apply Z.log2_lt_pow2; [exact Hn|exact Hlt]).
    unfold Double.last_place.
    set (e := Z.max (Z.log2 (Z.abs z) - 52) (-1074)).
    assert (e <= 0)%Z as He by (unfold e; lia).
    assert ((if (0 <=? e)%Z then Double.nearest_even (Z.abs z) (1 * 2 ^ e)
             else Double.nearest_even (Z.abs z * 2 ^ (- e)) 1)
            = (Z.abs z * 2 ^ (- e))%Z) as ->.
    { destruct (0 <=? e)%Z eqn:E0.
      - apply Z.leb_le in E0. assert (e = 0%Z) as -> by lia.
        cbn. rewrite nearest_even_1. lia.
      - apply nearest_even_1. }
    transitivity (Qred (inject_Z z)); [|apply Qred_inject_Z].
    apply Qred_complete.
    rewrite Z.mul_assoc. rewrite (scale_integer (Z.sgn z * Z.abs z) e He).
    replace (Z.sgn z * Z.abs z)%Z with z by (destruct z; cbn; lia).
    reflexivity.
Qed.

Lemma round_integer q z :
  (q == inject_Z z)%Q -> (Z.abs z <= 2 ^ 53)%Z -> Double.round q = inject_Z z.
Proof.
  intros Hq Hz. rewrite (round_comp _ _ Hq). apply round_inject_Z, Hz.
Qed.

Lemma add_integers x y a b :
  (x == inject_Z a)%Q -> (y == inject_Z b)%Q -> (Z.abs (a + b) <= 2 ^ 53)%Z ->
  Double.add x y = inject_Z (a + b).
Proof.
  intros Hx Hy H. apply round_integer; [|exact H].
  rewrite Hx, Hy, inject_Z_plus. reflexivity.
Qed.

Lemma sub_integers x y a b :
  (x == inject_Z a)%Q -> (y == inject_Z b)%Q -> (Z.abs (a - b) <= 2 ^ 53)%Z ->
  Double.sub x y = inject_Z (a - b).
Proof.
  intros Hx Hy H. apply round_integer; [|exact H].
  rewrite Hx, Hy. unfold Z.sub. rewrite inject_Z_plus, inject_Z_opp. reflexivity.
Qed.

Lemma add_Z_exact a b :
  (Z.abs (a + b) <= 2 ^ 53)%Z -> Double.add_Z a b = (a + b)%Z.
Proof.
  intros H. unfold Double.add_Z.
  rewrite (add_integers _ _ a b) by (reflexivity || exact H).
  apply Qfloor_Z.
Qed.

Lemma sub_Z_exact a b :
  (Z.abs (a - b) <= 2 ^ 53)%Z -> Double.sub_Z a b = (a - b)%Z.
Proof.
  intros H. unfold Double.sub_Z.
  rewrite (sub_integers _ _ a b) by (reflexivity || exact H).
  apply Qfloor_Z.
Qed.

(** *** The model on small inputs *)

Example parse_array :
  JSON.parse " [1, -2.5e3, true, null, [], {}] "
  = Some (JSON.Array
            [JSON.Number "1"; JSON.Number "-2.5e3"; JSON.Bool true; JSON.Null;
             JSON.Array []; JSON.Object []]).
Proof. reflexivity. Qed.

Example parse_rejects :
  map JSON.parse ["[1,]"; "01"; "1."; "{kills:1"; "tru"; "1 2"; "[1"; "+1"]
  = [None; None; None; None; None; None; None; None].
Proof. reflexivity. Qed.

Example parse_saved_score :
  JSON.parse
    (GameClient.stringify_score
       {| GameClient.kills := 12; GameClient.deaths := 3; GameClient.total := 9 |})
  = Some (JSON.Object
            [("kills", JSON.Number "12"); ("deaths", JSON.Number "3");
             ("total", JSON.Number "9")]).
Proof. reflexivity. Qed.

Example join_sends_username :
  GameClient.effects (GameClient.host joined)
  = [GameClient.WsNew 0; GameClient.WsSend 0 (GameClient.join_game "Tinotenda")].
Proof. reflexivity. Qed.

(** Pausing sends one stop; resuming sends nothing. *)
Example pause_then_resume :
  let s := GameClient.run
             [GameClient.KeyDown "ArrowUp" false false 0;
              GameClient.KeyDown "Space" false false 10;
              GameClient.KeyDown "Space" false false 25] joined in
  GameClient.gameState s = GameClient.playing /\
  GameClient.totalPauseTime s = 15%Z /\
  GameClient.effects (GameClient.host s)
  = (GameClient.effects (GameClient.host joined)
     ++ [GameClient.WsSend 0 (GameClient.move "up");
         GameClient.WsSend 0 GameClient.stop])%list.
Proof. vm_compute. repeat split. Qed.

(** With no answer of the server and no frame drawn, the fallback credits
    the kill and marks the target dead; the respawn timer revives it. *)
Example fallback_then_respawn :
  let s := GameClient.run [GameClient.Click 440 300; GameClient.Timeout 0] joined in
  GameClient.kills (GameClient.score s) = 1%Z /\
  Avatar.isDead (avatar_of "2" s) = true /\
  Avatar.isDead (avatar_of "2" (GameClient.step (GameClient.Timeout 0) s)) = false.
Proof. vm_compute. repeat split. Qed.

(** C8. For an avatar with a non-empty east sequence, the frame for facing
    west carries the same image object as the frame for facing east (all
    other fields identical), with the flip flag true for west and false for
    east.  The image is the element of the east sequence at the index
    isMoving ? animationFrame : 0 taken modulo the length of the
    sequence: an image of the sequence whenever that index is not
    negative.  And whenever the sequence selected by [facing] is empty,
    [getCurrentFrame] returns null. *)
Theorem C8_west_mirrors_east (a : Avatar.t) :
  let frameIndex := if Avatar.isMoving a then Avatar.animationFrame a else 0%Z in
  let east := Avatar.east (Avatar.frames a) in
  (east <> [] ->
   exists img,
     Avatar.getCurrentFrame (Avatar.with_facing "east" a)
       = Some {| Avatar.image := img; Avatar.flipHorizontal := false |} /\
     Avatar.getCurrentFrame (Avatar.with_facing "west" a)
       = Some {| Avatar.image := img; Avatar.flipHorizontal := true |} /\
     img = Avatar.js_index east (Z.rem frameIndex (Z.of_nat (length east))) /\
     ((0 <= frameIndex)%Z ->
      exists i,
        img = Some i /\
        east !! Z.to_nat (frameIndex mod Z.of_nat (length east)) = Some i)) /\
  (fst (Avatar.selectFrameSet a) = [] -> Avatar.getCurrentFrame a = None).
Proof.
  cbv zeta. split.
  - intros Hne.
    set (frameIndex := if Avatar.isMoving a then Avatar.animationFrame a else 0%Z).
    set (east := Avatar.east (Avatar.frames a)) in *.
    assert (forall d flip,
               (d = "east" /\ flip = false) \/ (d = "west" /\ flip = true) ->
               Avatar.getCurrentFrame (Avatar.with_facing d a)
               = if (0 <? length east)%nat
                 then Some {| Avatar.image :=
                                Avatar.js_index east
                                  (Z.rem frameIndex (Z.of_nat (length east)));
                              Avatar.flipHorizontal := flip |}
                 else None) as Hf.
    { intros d flip [[-> ->]|[-> ->]]; reflexivity. }
    assert (0 < length east)%nat as Hlen
      by (destruct east; [congruence|cbn; lia]).
    assert ((0 <? length east)%nat = true) as Hpos by (apply Nat.ltb_lt, Hlen).
    rewrite (Hf "east" false), (Hf "west" true), Hpos by auto.
    eexists. split; [reflexivity|]. split; [reflexivity|].
    split; [reflexivity|]. intros Hi.
    assert (0 < Z.of_nat (length east))%Z as Hn by lia.
    rewrite (Z.rem_mod_nonneg _ _ Hi Hn).
    pose proof (Z.mod_pos_bound frameIndex _ Hn) as Hm.
    unfold Avatar.js_index.
    assert ((frameIndex mod Z.of_nat (length east) <? 0)%Z = false) as -> by lia.
    destruct (lookup_lt_is_Some_2 east
                (Z.to_nat (frameIndex mod Z.of_nat (length east)))) as [j Hj];
      [lia|].
    exists j. split; exact Hj.
  - unfold Avatar.getCurrentFrame.
    destruct (Avatar.selectFrameSet a) as [fs flip]. cbn.
    intros ->. reflexivity.
Qed.

(** The knight at the fifth animation step of a walk: of its three east
    images both directions show the second. *)
Lemma C8_west_mirrors_east_witness :
  Avatar.east (Avatar.frames walking_west) <> [] /\
  Avatar.getCurrentFrame (Avatar.with_facing "east" walking_west)
  = Some {| Avatar.image := Some {| Avatar.img_id := 5; Avatar.img_src := "e1" |};
            Avatar.flipHorizontal := false |} /\
  Avatar.getCurrentFrame (Avatar.with_facing "west" walking_west)
  = Some {| Avatar.image := Some {| Avatar.img_id := 5; Avatar.img_src := "e1" |};
            Avatar.flipHorizontal := true |}.
Proof.
  assert (Avatar.east (Avatar.frames walking_west) <> []) as Hne
    by (vm_compute; discriminate).
  split; [exact Hne|].
  destruct (proj1 (C8_west_mirrors_east walking_west) Hne)
    as (img & He & Hw & Hi & _).
  assert (img = Some {| Avatar.img_id := 5; Avatar.img_src := "e1" |}) as <-
    by (rewrite Hi; vm_compute; reflexivity).
  split; [exact He|exact Hw].
Defined.

(** *** What the methods leave alone *)

(** Case analysis on the branches of a method, innermost decisions first,
    the rest left to conversion. *)
Ltac branches :=
  repeat first
    [ reflexivity
    | assumption
    | split
    | match goal with
      | |- context [match ?x with _ => _ end] =>
          lazymatch x with
          | context [match _ with _ => _ end] => fail
          | _ => destruct x eqn:?
          end
      end ].

Section Frames.
Import GameClient.
Implicit Types s : GameClient.t.

Lemma untouched_trans s s1 s2 :
  untouched s s1 -> untouched s1 s2 -> untouched s s2.
Proof. intros [H1 H2] [H3 H4]. split; congruence. Qed.

(** A method that ends in a call of another one. *)
Ltac through L :=
  cbv zeta; eapply untouched_trans; [|apply L]; split; reflexivity.

Lemma untouched_websocket_send a s : untouched s (websocket_send a s).
Proof. unfold untouched, websocket_send. branches. Qed.

Lemma untouched_sendMoveCommand d s : untouched s (sendMoveCommand d s).
Proof. unfold untouched, sendMoveCommand, websocket_send. branches. Qed.

Lemma untouched_sendStopCommand s : untouched s (sendStopCommand s).
Proof. unfold untouched, sendStopCommand, websocket_send. branches. Qed.

Lemma untouched_joinGame s : untouched s (joinGame s).
Proof. unfold untouched, joinGame, websocket_send. branches. Qed.

Lemma untouched_handleKeyDown code s : untouched s (handleKeyDown code s).
Proof.
  unfold handleKeyDown. destruct (negb (is_playing s)); [split; reflexivity|].
  destruct (keyMap code); [|split; reflexivity].
  through untouched_sendMoveCommand.
Qed.

Lemma untouched_handleKeyUp code s : untouched s (handleKeyUp code s).
Proof.
  unfold handleKeyUp. destruct (negb (is_playing s)); [split; reflexivity|].
  destruct (keyMap code); [|split; reflexivity].
  match goal with |- context [if ?c then _ else _] => destruct c end;
    [through untouched_sendStopCommand|split; reflexivity].
Qed.

Lemma untouched_simulatePlayerDeath targetId s :
  untouched s (simulatePlayerDeath targetId s).
Proof. unfold untouched, simulatePlayerDeath. branches. Qed.

Lemma untouched_togglePause now s : untouched s (togglePause now s).
Proof.
  unfold togglePause, pauseGame, resumeGame.
  destruct (gameState s); try (split; reflexivity).
  destruct (negb (is_playing s)); [split; reflexivity|].
  through untouched_sendStopCommand.
Qed.

Lemma untouched_stopGame s : untouched s (stopGame s).
Proof. unfold untouched, stopGame. branches. Qed.

Lemma connectToServer_frame s :
  attackCooldown (connectToServer s) = attackCooldown s /\
  websocket (connectToServer s) <> None.
Proof. unfold connectToServer. destruct (websocket s); split; cbn; congruence. Qed.

Lemma restartGame_frame s :
  attackCooldown (restartGame s) = 0%Z /\ websocket (restartGame s) <> None.
Proof.
  unfold restartGame. cbv zeta.
  match goal with
  | |- context [connectToServer ?s1] =>
      destruct (connectToServer_frame s1) as [-> H]
  end.
  split; [reflexivity|exact H].
Qed.

Lemma handleGameControlKeys_frame code ctrlKey metaKey now s :
  untouched s (handleGameControlKeys code ctrlKey metaKey now s)
  \/ handleGameControlKeys code ctrlKey metaKey now s = restartGame s.
Proof.
  unfold handleGameControlKeys.
  destruct (String.eqb code "Space"); [left; apply untouched_togglePause|].
  destruct (String.eqb code "Escape"); [left; apply untouched_stopGame|].
  destruct (String.eqb code "KeyR").
  { destruct (ctrlKey || metaKey); [right; reflexivity|left; split; reflexivity]. }
  destruct (String.eqb code "KeyS"); [|left; split; reflexivity].
  destruct (ctrlKey || metaKey); left; split; reflexivity.
Qed.

Lemma untouched_centerViewportOnMyAvatar s :
  untouched s (centerViewportOnMyAvatar s).
Proof. unfold untouched, centerViewportOnMyAvatar. branches. Qed.

Lemma untouched_updateViewport s : untouched s (updateViewport s).
Proof. unfold untouched, updateViewport. branches. Qed.

Lemma untouched_joinPlayer s e : untouched s (joinPlayer s e).
Proof. unfold untouched, joinPlayer, new_Avatar. branches. Qed.

Lemma untouched_movePlayer s e : untouched s (movePlayer s e).
Proof. unfold untouched, movePlayer. branches. Qed.

Lemma untouched_fold {A} (f : GameClient.t -> A -> GameClient.t) l :
  (forall s a, untouched s (f s a)) ->
  forall s, untouched s (fold_left f l s).
Proof.
  intros Hf. induction l as [|a l IH]; intros s; cbn; [split; reflexivity|].
  exact (untouched_trans _ _ _ (Hf s a) (IH _)).
Qed.

Lemma untouched_handleJoinGame success playerId avs pls s :
  untouched s (handleJoinGame success playerId avs pls s).
Proof.
  unfold handleJoinGame. destruct success; [|split; reflexivity]. cbv zeta.
  eapply untouched_trans; [|apply untouched_centerViewportOnMyAvatar].
  assert (forall s1, untouched s s1 ->
            untouched s (match pls with
                         | Some entries => fold_left joinPlayer entries s1
                         | None => s1
                         end)) as Hpls.
  { intros s1 H1. destruct pls as [pls|]; [|exact H1].
    exact (untouched_trans _ _ _ H1 (untouched_fold _ _ untouched_joinPlayer _)). }
  apply Hpls. destruct avs as [avs|]; [|split; reflexivity].
  eapply untouched_trans; [|apply untouched_fold; intros; split; reflexivity].
  split; reflexivity.
Qed.

Lemma untouched_handleMessage m s : untouched s (handleMessage m s).
Proof.
  destruct m as [success playerId avs pls|player avatar|pls|playerId
                |success targetId kill|playerId|playerId x y|tag];
    unfold handleMessage.
  - apply untouched_handleJoinGame.
  - unfold untouched, handlePlayerJoined, new_Avatar. branches.
  - unfold handlePlayersMoved. destruct pls; [|split; reflexivity].
    apply untouched_fold, untouched_movePlayer.
  - split; reflexivity.
  - unfold handleAttack. destruct success; [|split; reflexivity].
    destruct kill; [split; reflexivity|].
    through untouched_simulatePlayerDeath.
  - unfold untouched, handlePlayerDied. branches.
  - unfold untouched, handlePlayerRespawned. branches.
  - split; reflexivity.
Qed.

Lemma untouched_runTimeout i s : untouched s (runTimeout i s).
Proof.
  unfold runTimeout. destruct (timers (host s) !! i) as [[targetId|player]|];
    [|split; reflexivity|split; reflexivity].
  unfold attackFallback.
  match goal with |- context [if ?c then _ else _] => destruct c end;
    [|split; reflexivity].
  through untouched_simulatePlayerDeath.
Qed.

Lemma update_attackCooldown s :
  (0 <= attackCooldown s)%Z ->
  attackCooldown (update s) = Z.max 0 (attackCooldown s - 16).
Proof.
  intros H. unfold update.
  destruct (0 <? attackCooldown s)%Z eqn:E; cbn.
  - destruct (attackCooldown s - 16 <? 0)%Z eqn:E'; cbn; lia.
  - lia.
Qed.

(** Every callback either leaves the cooldown where it is or lowers it,
    staying non-negative, or it is a click that issues an attack. *)
Lemma step_attackCooldown e s :
  (0 <= attackCooldown s)%Z ->
  (0 <= attackCooldown (step e s) <= attackCooldown s)%Z \/
  (exists clickX clickY target,
      e = Click clickX clickY /\
      step e s = attackPlayer (Avatar.id target) s /\
      attackCooldown (step e s) = attackCooldownTime).
Proof.
  intros H0.
  destruct e as [code ctrlKey metaKey now|code|clickX clickY| |w h| | | |m|i];
    unfold step.
  - left. cbv zeta.
    destruct (handleGameControlKeys_frame code ctrlKey metaKey now
                (handleKeyDown code s)) as [[-> _]| ->].
    + rewrite (proj1 (untouched_handleKeyDown code s)). lia.
    + rewrite (proj1 (restartGame_frame _)). lia.
  - left. rewrite (proj1 (untouched_handleKeyUp code s)). lia.
  - unfold handleCanvasClick.
    destruct (connected s) eqn:Hc; [|left; cbn; lia].
    destruct (negb true || negb (myPlayerId_truthy s) || negb (is_playing s));
      [left; lia|].
    destruct (0 <? attackCooldown s)%Z; [left; lia|].
    destruct (findPlayerInRange _ _ s) as [target|]; [|left; lia].
    unfold attackPlayer. rewrite Hc. cbn [negb].
    destruct (websocket s) as [sock|] eqn:Hw.
    + right. exists clickX, clickY, target. repeat split.
    + left. lia.
  - left. rewrite update_attackCooldown by assumption. lia.
  - left. cbv zeta. rewrite (proj1 (untouched_updateViewport _)). cbn. lia.
  - left. cbv zeta. rewrite (proj1 (untouched_joinGame _)). cbn. lia.
  - left. cbn. lia.
  - left. lia.
  - left. rewrite (proj1 (untouched_handleMessage m s)). lia.
  - left. rewrite (proj1 (untouched_runTimeout i s)). lia.
Qed.

Lemma step_websocket e s :
  websocket s <> None -> websocket (step e s) <> None.
Proof.
  intros H0.
  destruct e as [code ctrlKey metaKey now|code|clickX clickY| |w h| | | |m|i];
    unfold step.
  - cbv zeta.
    destruct (handleGameControlKeys_frame code ctrlKey metaKey now
                (handleKeyDown code s)) as [[_ ->]| ->].
    + rewrite (proj2 (untouched_handleKeyDown code s)). exact H0.
    + apply restartGame_frame.
  - rewrite (proj2 (untouched_handleKeyUp code s)). exact H0.
  - unfold handleCanvasClick, attackPlayer.
    branches; cbn; congruence.
  - unfold update. branches; cbn; congruence.
  - cbv zeta. rewrite (proj2 (untouched_updateViewport _)). exact H0.
  - cbv zeta. rewrite (proj2 (untouched_joinGame _)). exact H0.
  - exact H0.
  - exact H0.
  - rewrite (proj2 (untouched_handleMessage m s)). exact H0.
  - rewrite (proj2 (untouched_runTimeout i s)). exact H0.
Qed.

Lemma construct_frame stored w h s :
  construct stored w h = Returns s ->
  attackCooldown s = 0%Z /\ websocket s <> None.
Proof.
  unfold construct, loadScore. intros H.
  assert (forall s1, attackCooldown s1 = 0%Z -> Returns (connectToServer s1) = Returns s ->
                     attackCooldown s = 0%Z /\ websocket s <> None) as Hc.
  { intros s1 H1 [= <-]. destruct (connectToServer_frame s1) as [-> Hw].
    split; [exact H1|exact Hw]. }
  cbn in H. destruct stored as [saved|];
    [|eapply Hc; [|exact H]; reflexivity].
  destruct (String.eqb saved EmptyString);
    [eapply Hc; [|exact H]; reflexivity|].
  destruct (JSON.parse saved) as [v|]; [|discriminate].
  destruct (score_of_json v); [|discriminate|discriminate].
  eapply Hc; [|exact H]; reflexivity.
Qed.

Lemma reachable_attackCooldown s :
  reachable s -> (0 <= attackCooldown s)%Z.
Proof.
  induction 1 as [stored w h s Hc|e s Hr IH].
  - rewrite (proj1 (construct_frame _ _ _ _ Hc)). lia.
  - destruct (step_attackCooldown e s IH) as [?|(?&?&?&?&?&->)];
      [lia|unfold attackCooldownTime; lia].
Qed.

(** The client always holds a socket object, so [websocket_send] never
    meets [null]. *)
Lemma reachable_websocket s :
  reachable s -> websocket s <> None.
Proof.
  induction 1 as [stored w h s Hc|e s Hr IH].
  - exact (proj2 (construct_frame _ _ _ _ Hc)).
  - apply step_websocket, IH.
Qed.

End Frames.

Lemma run_reachable es : forall s,
  GameClient.reachable s -> GameClient.reachable (GameClient.run es s).
Proof.
  induction es as [|e es IH]; intros s Hs; [exact Hs|].
  apply IH. apply GameClient.reachable_step. exact Hs.
Qed.

(** C9. In every state the client can reach the attack cooldown is not
    negative; a render-loop tick replaces the cooldown c by max(0, c - 16);
    and a callback that raises the cooldown is a click that issues an
    attack through attackPlayer, which sets it to the cooldown duration
    of 1000 ms: every other callback leaves it or lowers it.
    attackPlayer itself, for every target, sets the cooldown to 1000
    when the client is connected and does nothing when it is not. *)
Theorem C9_cooldown_monotone (s : GameClient.t) :
  GameClient.reachable s ->
  (0 <= GameClient.attackCooldown s)%Z /\
  GameClient.attackCooldown (GameClient.step GameClient.AnimationFrame s)
  = Z.max 0 (GameClient.attackCooldown s - 16) /\
  (forall e,
      (GameClient.attackCooldown s < GameClient.attackCooldown (GameClient.step e s))%Z ->
      exists clickX clickY target,
        e = GameClient.Click clickX clickY /\
        GameClient.step e s = GameClient.attackPlayer target s /\
        GameClient.attackCooldown (GameClient.step e s) = 1000%Z) /\
  (forall e,
      (forall clickX clickY, e <> GameClient.Click clickX clickY) ->
      (0 <= GameClient.attackCooldown (GameClient.step e s)
         <= GameClient.attackCooldown s)%Z) /\
  (forall targetId,
      if GameClient.connected s
      then GameClient.attackCooldown (GameClient.attackPlayer targetId s) = 1000%Z
      else GameClient.attackPlayer targetId s = s).
Proof.
  intros Hr. pose proof (reachable_attackCooldown s Hr) as H0.
  split; [exact H0|]. split; [exact (update_attackCooldown s H0)|].
  split; [|split].
  - intros e Hlt.
    destruct (step_attackCooldown e s H0) as [?|(cx&cy&tg&He&Hs&Hc)]; [lia|].
    exists cx, cy, (Avatar.id tg). auto.
  - intros e Hne.
    destruct (step_attackCooldown e s H0) as [?|(cx&cy&tg&He&Hs&Hc)];
      [assumption|]. destruct (Hne cx cy He).
  - intros targetId. pose proof (reachable_websocket s Hr) as Hw.
    unfold GameClient.attackPlayer.
    destruct (GameClient.connected s); [|reflexivity]. cbn [negb].
    destruct (GameClient.websocket s); [reflexivity|congruence].
Qed.

(** A click on the neighbour in the joined session starts the cooldown,
    and the next frame lowers it. *)
Lemma C9_cooldown_monotone_witness :
  GameClient.attackCooldown joined = 0%Z /\
  GameClient.attackCooldown (GameClient.step (GameClient.Click 400 300) joined)
  = 1000%Z /\
  GameClient.attackCooldown
    (GameClient.step GameClient.AnimationFrame
       (GameClient.step (GameClient.Click 400 300) joined))
  = 984%Z.
Proof.
  assert (GameClient.reachable joined) as Hr.
  { unfold joined. apply run_reachable.
    apply (GameClient.reachable_construct None 800 600). reflexivity. }
  assert (GameClient.attackCooldown joined = 0%Z) as H0
    by (vm_compute; reflexivity).
  assert (GameClient.attackCooldown joined
          < GameClient.attackCooldown
              (GameClient.step (GameClient.Click 400 300) joined))%Z as Hlt
    by (vm_compute; reflexivity).
  destruct (proj1 (proj2 (proj2 (C9_cooldown_monotone joined Hr)))
              (GameClient.Click 400 300) Hlt) as (_ & _ & _ & _ & _ & Hc).
  split; [exact H0|]. split; [exact Hc|].
  rewrite (proj1 (proj2 (C9_cooldown_monotone _
                           (GameClient.reachable_step (GameClient.Click 400 300)
                              joined Hr)))).
  rewrite Hc. reflexivity.
Defined.

(** *** The score ledger *)

Lemma addKill_score s :
  counters_below (2 ^ 52) s ->
  GameClient.score (GameClient.addKill s)
  = {| GameClient.kills := GameClient.kills (GameClient.score s) + 1;
       GameClient.deaths := GameClient.deaths (GameClient.score s);
       GameClient.total := GameClient.kills (GameClient.score s) + 1
                           - GameClient.deaths (GameClient.score s) |}.
Proof.
  intros [Hk Hd]. unfold GameClient.addKill, GameClient.updateTotalScore. cbn.
  rewrite add_Z_exact by lia. rewrite sub_Z_exact by lia. reflexivity.
Qed.

Lemma addDeath_score s :
  counters_below (2 ^ 52) s ->
  GameClient.score (GameClient.addDeath s)
  = {| GameClient.kills := GameClient.kills (GameClient.score s);
       GameClient.deaths := GameClient.deaths (GameClient.score s) + 1;
       GameClient.total := GameClient.kills (GameClient.score s)
                           - (GameClient.deaths (GameClient.score s) + 1) |}.
Proof.
  intros [Hk Hd]. unfold GameClient.addDeath, GameClient.updateTotalScore. cbn.
  rewrite add_Z_exact by lia. rewrite sub_Z_exact by lia. reflexivity.
Qed.

Lemma do_score_calls_ledger cs : forall s,
  (Z.abs (GameClient.kills (GameClient.score s)) + Z.of_nat (length cs) < 2 ^ 52)%Z ->
  (Z.abs (GameClient.deaths (GameClient.score s)) + Z.of_nat (length cs) < 2 ^ 52)%Z ->
  let s' := do_score_calls cs s in
  GameClient.kills (GameClient.score s')
  = (GameClient.kills (GameClient.score s) + kills_in cs)%Z /\
  GameClient.deaths (GameClient.score s')
  = (GameClient.deaths (GameClient.score s) + deaths_in cs)%Z /\
  (cs <> [] ->
   GameClient.total (GameClient.score s')
   = (GameClient.kills (GameClient.score s')
      - GameClient.deaths (GameClient.score s'))%Z).
Proof.
  unfold kills_in, deaths_in.
  induction cs as [|c cs IH]; intros s Hk Hd.
  - cbn. split; [lia|]. split; [lia|]. intros H. contradiction.
  - cbn [length] in Hk, Hd.
    assert (counters_below (2 ^ 52) s) as Hb by (split; lia).
    cbn [do_score_calls fold_left]. fold (do_score_calls cs (do_score_call s c)).
    assert (GameClient.score (do_score_call s c)
            = match c with
              | AddKill =>
                  {| GameClient.kills := GameClient.kills (GameClient.score s) + 1;
                     GameClient.deaths := GameClient.deaths (GameClient.score s);
                     GameClient.total := GameClient.kills (GameClient.score s) + 1
                                         - GameClient.deaths (GameClient.score s) |}
              | AddDeath =>
                  {| GameClient.kills := GameClient.kills (GameClient.score s);
                     GameClient.deaths := GameClient.deaths (GameClient.score s) + 1;
                     GameClient.total := GameClient.kills (GameClient.score s)
                                         - (GameClient.deaths (GameClient.score s) + 1) |}
              end) as Hc
      by (destruct c; [apply addKill_score|apply addDeath_score]; exact Hb).
    destruct (IH (do_score_call s c)) as (IHk & IHd & IHt).
    + rewrite Hc. destruct c; cbn; lia.
    + rewrite Hc. destruct c; cbn; lia.
    + cbv zeta in IHk, IHd, IHt. cbv zeta. rewrite IHk, IHd, Hc.
      split; [destruct c; cbn [GameClient.kills List.filter length]; lia|].
      split; [destruct c; cbn [GameClient.deaths List.filter length]; lia|].
      intros _. destruct cs as [|c' cs'].
      * cbn [do_score_calls fold_left]. rewrite Hc.
        destruct c; cbn; lia.
      * rewrite IHt by discriminate. rewrite IHk, IHd, Hc. reflexivity.
Qed.

(** C6 as stated fails: numbers are doubles, and at 2^53 kills adding one
    leaves the counter where it is. *)
Lemma C6_counter_stops_at_2_53 :
  GameClient.kills (GameClient.score full_ledger) = (2 ^ 53)%Z /\
  GameClient.kills (GameClient.score (GameClient.addKill full_ledger)) = (2 ^ 53)%Z /\
  GameClient.kills (GameClient.score (GameClient.addKill full_ledger))
  <> (GameClient.kills (GameClient.score full_ledger) + 1)%Z.
Proof. vm_compute. repeat split. discriminate. Qed.

(** C6, amended.  From every score state whose counters are integers
    below 2^52 in magnitude, addKill raises kills by one and addDeath
    raises deaths by one, each leaving the other counter alone, setting
    total to kills - deaths and writing that record to the store; after
    any sequence of the two calls that keeps both counters below that
    magnitude each counter has grown by the number of its calls and,
    the sequence not being empty, total = kills - deaths; and resetScore,
    from every state, yields exactly the record of zeros and stores
    it. *)
Theorem C6_score_ledger (s : GameClient.t) :
  (counters_below (2 ^ 52) s ->
   let s' := GameClient.addKill s in
   GameClient.kills (GameClient.score s') = (GameClient.kills (GameClient.score s) + 1)%Z /\
   GameClient.deaths (GameClient.score s') = GameClient.deaths (GameClient.score s) /\
   GameClient.total (GameClient.score s')
   = (GameClient.kills (GameClient.score s') - GameClient.deaths (GameClient.score s'))%Z /\
   GameClient.localStorage (GameClient.host s')
   = Some (GameClient.stringify_score (GameClient.score s'))) /\
  (counters_below (2 ^ 52) s ->
   let s' := GameClient.addDeath s in
   GameClient.kills (GameClient.score s') = GameClient.kills (GameClient.score s) /\
   GameClient.deaths (GameClient.score s') = (GameClient.deaths (GameClient.score s) + 1)%Z /\
   GameClient.total (GameClient.score s')
   = (GameClient.kills (GameClient.score s') - GameClient.deaths (GameClient.score s'))%Z /\
   GameClient.localStorage (GameClient.host s')
   = Some (GameClient.stringify_score (GameClient.score s'))) /\
  (forall cs,
      (Z.abs (GameClient.kills (GameClient.score s)) + Z.of_nat (length cs) < 2 ^ 52)%Z ->
      (Z.abs (GameClient.deaths (GameClient.score s)) + Z.of_nat (length cs) < 2 ^ 52)%Z ->
      let s' := do_score_calls cs s in
      GameClient.kills (GameClient.score s')
      = (GameClient.kills (GameClient.score s) + kills_in cs)%Z /\
      GameClient.deaths (GameClient.score s')
      = (GameClient.deaths (GameClient.score s) + deaths_in cs)%Z /\
      (cs <> [] ->
       GameClient.total (GameClient.score s')
       = (GameClient.kills (GameClient.score s') - GameClient.deaths (GameClient.score s'))%Z)) /\
  (let s' := GameClient.resetScore s in
   GameClient.score s'
   = {| GameClient.kills := 0; GameClient.deaths := 0; GameClient.total := 0 |} /\
   GameClient.localStorage (GameClient.host s')
   = Some (GameClient.stringify_score (GameClient.score s'))).
Proof.
  split; [|split; [|split; [|split; reflexivity]]].
  - intros Hb. cbv zeta. pose proof (addKill_score s Hb) as E.
    split; [rewrite E; reflexivity|]. split; [rewrite E; reflexivity|].
    split; [rewrite E; reflexivity|reflexivity].
  - intros Hb. cbv zeta. pose proof (addDeath_score s Hb) as E.
    split; [rewrite E; reflexivity|]. split; [rewrite E; reflexivity|].
    split; [rewrite E; reflexivity|reflexivity].
  - intros cs. apply do_score_calls_ledger.
Qed.

(** A kill and a death from the zero state. *)
Lemma C6_score_ledger_witness :
  GameClient.score (do_score_calls [AddKill; AddDeath; AddKill] started)
  = {| GameClient.kills := 2; GameClient.deaths := 1; GameClient.total := 1 |}.
Proof.
  destruct (proj1 (proj2 (proj2 (C6_score_ledger started)))
              [AddKill; AddDeath; AddKill]
              ltac:(vm_compute; reflexivity) ltac:(vm_compute; reflexivity))
    as (Hk & Hd & Ht).
  specialize (Ht ltac:(discriminate)). cbv zeta in Hk, Hd, Ht.
  destruct (GameClient.score (do_score_calls [AddKill; AddDeath; AddKill] started))
    as [k d t].
  cbn in Hk, Hd, Ht. subst. reflexivity.
Defined.

(** *** Restart *)

(** C2 as stated fails: after a restart the joined client has lost its own
    avatar and its identity. *)
Lemma C2_restart_drops_local_avatar :
  GameClient.myPlayerId joined = Some "1" /\
  GameClient.map_get "1" (GameClient.players joined) <> None /\
  GameClient.map_get "1" (GameClient.players (GameClient.restartGame joined)) = None /\
  GameClient.myPlayerId (GameClient.restartGame joined) = None.
Proof. repeat split. discriminate. Qed.

(** C2, amended. The restart command (Ctrl+R or Cmd+R), in any state, is
    a call of restartGame, which sets the session to playing, closes the
    current socket and opens a new one, sets the cooldown to 0 and the
    score to the stored record of zeros, clears the pressed keys, re-arms
    the viewport guard with offset (0, 0), and removes every avatar, the
    local one included: the players map is empty and the local identity
    is null. *)
Theorem C2_restart_clears_everything (s : GameClient.t) :
  (forall ctrlKey metaKey now,
      GameClient.step (GameClient.KeyDown "KeyR" true metaKey now) s
      = GameClient.restartGame s /\
      GameClient.step (GameClient.KeyDown "KeyR" ctrlKey true now) s
      = GameClient.restartGame s) /\
  let s' := GameClient.restartGame s in
  GameClient.gameState s' = GameClient.playing /\
  GameClient.attackCooldown s' = 0%Z /\
  GameClient.score s'
  = {| GameClient.kills := 0; GameClient.deaths := 0; GameClient.total := 0 |} /\
  GameClient.localStorage (GameClient.host s')
  = Some (GameClient.stringify_score (GameClient.score s')) /\
  GameClient.pressedKeys s' = ∅ /\
  GameClient.viewportInitialized s' = false /\
  GameClient.viewportOffsetX s' = 0%Q /\
  GameClient.viewportOffsetY s' = 0%Q /\
  GameClient.players s' = [] /\
  GameClient.myPlayerId s' = None /\
  GameClient.websocket s' = Some (GameClient.next_socket (GameClient.host s)) /\
  GameClient.effects (GameClient.host s')
  = (GameClient.effects (GameClient.host s)
     ++ match GameClient.websocket s with
        | Some w => [GameClient.WsClose w]
        | None => []
        end
     ++ [GameClient.WsNew (GameClient.next_socket (GameClient.host s))])%list.
Proof.
  split.
  - intros ctrlKey metaKey now. unfold GameClient.step.
    assert (GameClient.handleKeyDown "KeyR" s = s) as ->.
    { unfold GameClient.handleKeyDown.
      destruct (negb (GameClient.is_playing s)); reflexivity. }
    unfold GameClient.handleGameControlKeys. cbn.
    rewrite orb_true_r. split; reflexivity.
  - unfold GameClient.restartGame, GameClient.connectToServer, GameClient.saveScore.
    cbn. destruct (GameClient.websocket s); cbn; repeat split;
      rewrite <- ?app_assoc; reflexivity.
Qed.

(** *** Reading back what saveScore wrote *)

Lemma digit_lex c :
  JSON.is_digit c = true ->
  JSON.is_ws c = false /\ Ascii.eqb c JSON.dquote = false /\ JSON.is_word c = true /\
  Ascii.eqb c "t" = false /\ Ascii.eqb c "f" = false /\ Ascii.eqb c "n" = false /\
  Ascii.eqb c "-" = false.
Proof.
  destruct c as [[] [] [] [] [] [] [] []]; intros H; try discriminate H;
    repeat split.
Qed.

Lemma string_of_uint_digits d : all_digits (NilEmpty.string_of_uint d) = true.
Proof. induction d; cbn; auto. Qed.

Lemma skip_digits_all s : all_digits s = true -> JSON.skip_digits s = EmptyString.
Proof.
  induction s as [|c r IH]; cbn; [reflexivity|].
  intros [Hc Hr]%andb_prop. rewrite Hc. auto.
Qed.

Lemma append_snoc (acc : string) c r : (acc ++ String c r) = (JSON.snoc acc c ++ r).
Proof.
  unfold JSON.snoc. induction acc as [|a acc IH]; [reflexivity|].
  change (String a (acc ++ String c r) = String a ((acc ++ String c EmptyString) ++ r)).
  f_equal. exact IH.
Qed.

Lemma append_empty (s : string) : s ++ EmptyString = s.
Proof.
  induction s as [|a s IH]; [reflexivity|].
  change (String a (s ++ EmptyString) = String a s). f_equal. exact IH.
Qed.

Lemma lex_digits w : forall acc rest out,
  all_digits w = true ->
  JSON.lex (JSON.LWord acc) (w ++ rest) out
  = JSON.lex (JSON.LWord (acc ++ w)) rest out.
Proof.
  induction w as [|c r IH]; intros acc rest out H.
  - rewrite append_empty. reflexivity.
  - cbn in H. apply andb_prop in H as [Hc Hr].
    destruct (digit_lex c Hc) as (_ & _ & Hw & _).
    change (String c r ++ rest) with (String c (r ++ rest)).
    cbn [JSON.lex]. rewrite Hw. rewrite IH by exact Hr.
    rewrite <- append_snoc. reflexivity.
Qed.

(** The digits of a positive number: at least one, the first not 0. *)
Lemma to_uint_shape p :
  exists c r, NilEmpty.string_of_uint (Pos.to_uint p) = String c r /\
              JSON.is_digit c = true /\ Ascii.eqb c "0" = false /\
              all_digits r = true /\
              NilZero.string_of_uint (Pos.to_uint p) = String c r.
Proof.
  pose proof (Unsigned.to_uint_nonnil p) as Hnil.
  assert (Pos.to_uint p = Decimal.unorm (Pos.to_uint p)) as Hn.
  { rewrite <- (Unsigned.to_of (Pos.to_uint p)), Unsigned.of_to. reflexivity. }
  pose proof (Unsigned.to_uint_nonzero p) as Hz.
  pose proof (string_of_uint_digits (Pos.to_uint p)) as Hd.
  destruct (Pos.to_uint p) as [|d|d|d|d|d|d|d|d|d|d] eqn:E; try congruence;
    cbn in Hd |- *; try (eexists _, _; repeat split; exact Hd).
  exfalso. unfold Decimal.unorm in Hn. rewrite DecimalFacts.nzhead_D0 in Hn.
  destruct (Decimal.nzhead d) eqn:En; try discriminate Hn.
  - apply Hz. exact Hn.
  - exact (nzhead_nonzero _ _ En).
Qed.

(** [decimal z] is an optional minus and then either the single digit 0 or
    digits that start with a digit other than 0. *)
Lemma decimal_shape z :
  exists sign c r,
    GameClient.decimal z = sign ++ String c r /\
    (sign = EmptyString \/ sign = "-") /\
    JSON.is_digit c = true /\ all_digits r = true /\
    (Ascii.eqb c "0" = true -> r = EmptyString).
Proof.
  unfold GameClient.decimal. destruct z as [|p|p]; cbn.
  - exists EmptyString, "0"%char, EmptyString. repeat split. left. reflexivity.
  - destruct (to_uint_shape p) as (c & r & _ & Hc & H0 & Hr & ->).
    exists EmptyString, c, r. repeat split; auto. congruence.
  - destruct (to_uint_shape p) as (c & r & _ & Hc & H0 & Hr & ->).
    exists "-", c, r. repeat split; auto. congruence.
Qed.

Lemma is_number_decimal z : JSON.is_number (GameClient.decimal z) = true.
Proof.
  destruct (decimal_shape z) as (sign & c & r & -> & Hs & Hc & Hr & H0).
  destruct (digit_lex c Hc) as (_ & _ & _ & _ & _ & _ & Hm).
  assert (JSON.unsigned_number (String c r) = true) as Hn.
  { unfold JSON.unsigned_number. destruct (Ascii.eqb c "0") eqn:E0.
    - rewrite (H0 eq_refl). reflexivity.
    - rewrite Hc, (skip_digits_all r Hr). reflexivity. }
  destruct Hs as [-> | ->].
  - change (JSON.is_number (String c r) = true).
    unfold JSON.is_number. rewrite Hm. exact Hn.
  - exact Hn.
Qed.

Lemma word_token_decimal z :
  JSON.word_token (GameClient.decimal z)
  = Some (JSON.TScalar (JSON.Number (GameClient.decimal z))).
Proof.
  unfold JSON.word_token. rewrite is_number_decimal.
  destruct (decimal_shape z) as (sign & c & r & -> & Hs & Hc & Hr & H0).
  destruct (digit_lex c Hc) as (_ & _ & _ & Ht & Hf & Hn & _).
  destruct Hs as [-> | ->].
  - change (EmptyString ++ String c r) with (String c r).
    cbn [String.eqb]. rewrite Ht, Hf, Hn. reflexivity.
  - reflexivity.
Qed.

Lemma integer_decimal z :
  (Z.abs z <= 2 ^ 52)%Z -> JSON.integer (GameClient.decimal z) = Some z.
Proof.
  intros Hz. unfold JSON.integer, GameClient.decimal.
  rewrite NilZero.isi.
  - rewrite DecimalZ.of_to.
    destruct (Z.abs z <=? 2 ^ 52)%Z eqn:E; [reflexivity|lia].
  - destruct z; cbn; [discriminate| |discriminate].
    intros [= H]. exact (Unsigned.to_uint_nonnil _ H).
  - destruct z; cbn; [discriminate|discriminate|].
    intros [= H]. exact (Unsigned.to_uint_nonnil _ H).
Qed.

(** Lexing a number written by [decimal] that is followed by a comma or a
    closing brace. *)
Lemma lex_decimal z c p rest out :
  JSON.punct c = Some p ->
  JSON.lex JSON.LIdle (GameClient.decimal z ++ String c rest) out
  = JSON.lex JSON.LIdle rest
      (out ++ [JSON.TScalar (JSON.Number (GameClient.decimal z)); p])%list.
Proof.
  intros Hp.
  assert (JSON.is_word c = false /\ JSON.is_ws c = false
          /\ Ascii.eqb c JSON.dquote = false) as (Hcw & Hcs & Hcq).
  { destruct c as [[] [] [] [] [] [] [] []]; try discriminate Hp; repeat split. }
  pose proof (word_token_decimal z) as Htok.
  destruct (decimal_shape z) as (sign & d & r & E & Hs & Hd & Hr & _).
  rewrite E in *.
  destruct (digit_lex d Hd) as (Hws & Hq & Hw & _).
  assert (forall acc,
            JSON.lex (JSON.LWord acc) (String d r ++ String c rest) out
            = JSON.lex (JSON.LWord (acc ++ String d r)) (String c rest) out) as Hrun.
  { intros acc. apply lex_digits. cbn. rewrite Hd. exact Hr. }
  assert (forall w, JSON.word_token w = Some (JSON.TScalar (JSON.Number w)) ->
            JSON.lex (JSON.LWord w) (String c rest) out
            = JSON.lex JSON.LIdle rest
                (out ++ [JSON.TScalar (JSON.Number w); p])%list) as Hend.
  { intros w Hwt. cbn [JSON.lex]. rewrite Hcw, Hwt. cbn. rewrite Hcs, Hcq, Hp.
    reflexivity. }
  destruct Hs as [-> | ->].
  - change (EmptyString ++ String d r) with (String d r) in *.
    change (String d r ++ String c rest) with (String d (r ++ String c rest)).
    cbn [JSON.lex]. rewrite Hws, Hq, Hw.
    rewrite (lex_digits r _ _ _ Hr).
    change (String d EmptyString ++ r) with (String d r).
    apply Hend. exact Htok.
  - change ("-" ++ String d r) with (String "-" (String d r)) in *.
    change (String "-" (String d r) ++ String c rest)
      with (String "-" (String d r ++ String c rest)).
    cbn [JSON.lex]. cbn [JSON.is_ws Ascii.eqb JSON.dquote JSON.is_word].
    change (JSON.is_word "-") with true. cbn match.
    rewrite (Hrun "-"). apply Hend. exact Htok.
Qed.

Lemma append_cons c (s1 s2 : string) : String c s1 ++ s2 = String c (s1 ++ s2).
Proof. reflexivity. Qed.

Lemma append_nil (s : string) : EmptyString ++ s = s.
Proof. reflexivity. Qed.

Lemma parse_stringify_score sc :
  JSON.parse (GameClient.stringify_score sc)
  = Some (JSON.Object
            [("kills", JSON.Number (GameClient.decimal (GameClient.kills sc)));
             ("deaths", JSON.Number (GameClient.decimal (GameClient.deaths sc)));
             ("total", JSON.Number (GameClient.decimal (GameClient.total sc)))]).
Proof.
  unfold JSON.parse, GameClient.stringify_score.
  unfold GameClient.dquote. change (ascii_of_nat 34) with "034"%char.
  rewrite !append_cons, !append_nil.
  cbn -[GameClient.decimal].
  rewrite (lex_decimal _ ","%char JSON.TComma) by reflexivity.
  cbn -[GameClient.decimal].
  rewrite (lex_decimal _ ","%char JSON.TComma) by reflexivity.
  cbn -[GameClient.decimal].
  rewrite (lex_decimal _ "}"%char JSON.TRBrace) by reflexivity.
  reflexivity.
Qed.

Lemma loadScore_stringify_score sc s :
  (Z.abs (GameClient.kills sc) <= 2 ^ 52)%Z ->
  (Z.abs (GameClient.deaths sc) <= 2 ^ 52)%Z ->
  GameClient.localStorage (GameClient.host s) = Some (GameClient.stringify_score sc) ->
  GameClient.loadScore s
  = Returns (GameClient.set_score
               {| GameClient.kills := GameClient.kills sc;
                  GameClient.deaths := GameClient.deaths sc;
                  GameClient.total := GameClient.kills sc - GameClient.deaths sc |} s).
Proof.
  intros Hk Hd Hst. unfold GameClient.loadScore. rewrite Hst.
  assert (String.eqb (GameClient.stringify_score sc) EmptyString = false) as ->
    by reflexivity.
  rewrite parse_stringify_score.
  unfold GameClient.score_of_json.
  rewrite (integer_decimal _ Hk), (integer_decimal _ Hd). reflexivity.
Qed.

(** *** Loading the score *)

(** C3 as stated fails: a stored record that is not JSON makes loadScore,
    and with it the constructor, raise a SyntaxError; no zero state is
    produced. *)
Lemma C3_corrupt_record_raises :
  GameClient.loadScore (GameClient.fresh (Some "{kills:1") 800 600)
  = Throws SyntaxError /\
  GameClient.construct (Some "{kills:1") 800 600 = Throws SyntaxError.
Proof. split; reflexivity. Qed.

(** C3, amended. With no stored record, or an empty one, loadScore leaves
    the score as it is (the zeros of the constructor) and raises nothing.
    A record of the form saveScore writes, that is one that parses to an
    object with the keys kills and deaths, in that order, and nothing
    else but an optional total after them, kills and deaths being
    integer literals of magnitude at most 2^52, yields these two
    counters with total recomputed as kills - deaths; the record
    saveScore writes for a score with counters of that magnitude is such
    a record.  A record that is not parseable as JSON raises a
    SyntaxError, which loadScore does not catch. *)
Theorem C3_loadScore_cases (s : GameClient.t) :
  (GameClient.localStorage (GameClient.host s) = None ->
   GameClient.loadScore s = Returns s) /\
  (GameClient.localStorage (GameClient.host s) = Some EmptyString ->
   GameClient.loadScore s = Returns s) /\
  (forall saved n1 n2 rest k d,
      GameClient.localStorage (GameClient.host s) = Some saved ->
      JSON.parse saved
      = Some (JSON.Object
                (("kills", JSON.Number n1) :: ("deaths", JSON.Number n2) :: rest)) ->
      (rest = [] \/ exists v, rest = [("total", v)]) ->
      JSON.integer n1 = Some k ->
      JSON.integer n2 = Some d ->
      GameClient.loadScore s
      = Returns
          (GameClient.set_score
             {| GameClient.kills := k; GameClient.deaths := d;
                GameClient.total := k - d |} s)) /\
  (forall sc,
      (Z.abs (GameClient.kills sc) <= 2 ^ 52)%Z ->
      (Z.abs (GameClient.deaths sc) <= 2 ^ 52)%Z ->
      GameClient.localStorage (GameClient.host s)
      = Some (GameClient.stringify_score sc) ->
      GameClient.loadScore s
      = Returns
          (GameClient.set_score
             {| GameClient.kills := GameClient.kills sc;
                GameClient.deaths := GameClient.deaths sc;
                GameClient.total := GameClient.kills sc - GameClient.deaths sc |} s)) /\
  (forall saved,
      GameClient.localStorage (GameClient.host s) = Some saved ->
      saved <> EmptyString ->
      JSON.parse saved = None ->
      GameClient.loadScore s = Throws SyntaxError).
Proof.
  split; [|split; [|split; [|split]]];
    [| | |intros sc; apply loadScore_stringify_score|];
    unfold GameClient.loadScore.
  - intros ->. reflexivity.
  - intros ->. reflexivity.
  - intros saved n1 n2 rest k d -> Hp Hrest Hk Hd.
    destruct (String.eqb saved EmptyString) eqn:E.
    { apply String.eqb_eq in E. subst saved. discriminate Hp. }
    rewrite Hp. cbn. rewrite Hk, Hd.
    destruct Hrest as [->|[v ->]]; reflexivity.
  - intros saved -> Hne Hp.
    destruct (String.eqb saved EmptyString) eqn:E.
    { apply String.eqb_eq in E. contradiction. }
    rewrite Hp. reflexivity.
Qed.

(** A record written by saveScore, read back at the next start. *)
Lemma C3_loadScore_cases_witness :
  let sc := {| GameClient.kills := 2; GameClient.deaths := 1; GameClient.total := 1 |} in
  let s0 := GameClient.fresh (Some (GameClient.stringify_score sc)) 800 600 in
  GameClient.loadScore s0
  = Returns (GameClient.set_score
               {| GameClient.kills := 2; GameClient.deaths := 1;
                  GameClient.total := 2 - 1 |} s0) /\
  GameClient.loadScore (GameClient.fresh None 800 600)
  = Returns (GameClient.fresh None 800 600) /\
  GameClient.loadScore (GameClient.fresh (Some "{kills:1") 800 600)
  = Throws SyntaxError.
Proof.
  cbv zeta. split; [|split].
  - apply (proj1 (proj2 (proj2 (proj2 (C3_loadScore_cases _))))
             {| GameClient.kills := 2; GameClient.deaths := 1;
                GameClient.total := 1 |}).
    + cbn. lia.
    + cbn. lia.
    + reflexivity.
  - apply (proj1 (C3_loadScore_cases _)). reflexivity.
  - eapply (proj2 (proj2 (proj2 (proj2 (C3_loadScore_cases _))))).
    + reflexivity.
    + discriminate.
    + reflexivity.
Defined.

(** *** Viewport *)

Lemma clamp_bounds (a b : Q) :
  (0 <= Qmax 0 (Qmin a b) /\ Qmax 0 (Qmin a b) <= Qmax 0 b)%Q.
Proof.
  split.
  - apply Q.le_max_l.
  - apply Q.max_le_compat_l, Q.le_min_r.
Qed.

(** C4. When centerViewportOnMyAvatar initialises the viewport (the local
    avatar is known and the guard is not yet set) it sets the guard and
    leaves the offset within the bounds; in every other case it changes
    nothing.  When updateViewport recalculates (identity set, guard set,
    local avatar present) the offset is within the bounds of the current
    canvas; in every other case it changes nothing.  In the session of the
    example (world 2048 x 2048, canvas 800 x 600, local player at
    (1000, 1000)) centering yields the offset (600, 700). *)
Theorem C4_viewport_bounds (s : GameClient.t) :
  match GameClient.myAvatar s, GameClient.viewportInitialized s with
  | Some _, false =>
      GameClient.viewportInitialized (GameClient.centerViewportOnMyAvatar s) = true /\
      viewport_in_bounds (GameClient.centerViewportOnMyAvatar s)
  | _, _ => GameClient.centerViewportOnMyAvatar s = s
  end /\
  match GameClient.myAvatar s,
        GameClient.myPlayerId_truthy s && GameClient.viewportInitialized s with
  | Some _, true => viewport_in_bounds (GameClient.updateViewport s)
  | _, _ => GameClient.updateViewport s = s
  end /\
  (GameClient.worldWidth joined == 2048 /\ GameClient.worldHeight joined == 2048 /\
   GameClient.width (GameClient.canvas joined) == 800 /\
   GameClient.height (GameClient.canvas joined) == 600 /\
   (exists me, GameClient.myAvatar joined = Some me /\
               Avatar.x me == 1000 /\ Avatar.y me == 1000) /\
   GameClient.viewportInitialized joined = true /\
   GameClient.viewportOffsetX joined == 600 /\
   GameClient.viewportOffsetY joined == 700)%Q.
Proof.
  split; [|split].
  - unfold GameClient.centerViewportOnMyAvatar.
    destruct (GameClient.myAvatar s) as [me|]; [|reflexivity].
    destruct (GameClient.viewportInitialized s); [reflexivity|].
    split.
    + destruct (Qle_bool _ _ && Qle_bool _ _); reflexivity.
    + unfold viewport_in_bounds.
      destruct (Qle_bool _ _ && Qle_bool _ _); cbn.
      * repeat split; try apply Qle_refl; apply Q.le_max_l.
      * repeat split; apply clamp_bounds.
  - unfold GameClient.updateViewport.
    destruct (GameClient.myAvatar s) as [me|];
      destruct (GameClient.myPlayerId_truthy s && GameClient.viewportInitialized s);
      try reflexivity.
    unfold viewport_in_bounds. cbn. repeat split; apply clamp_bounds.
  - repeat split; try reflexivity.
    eexists. repeat split; reflexivity.
Qed.

(** *** Click targeting *)

Lemma Qltb_lt (a b : Q) : GameClient.Qltb a b = true <-> (a < b)%Q.
Proof.
  unfold GameClient.Qltb. rewrite negb_true_iff. split.
  - intros H. apply Qnot_le_lt. intros Hle.
    apply Qle_bool_iff in Hle. congruence.
  - intros H. destruct (Qle_bool b a) eqn:E; [|reflexivity].
    apply Qle_bool_iff in E. exfalso. exact (Qlt_not_le _ _ H E).
Qed.

Lemma Qltb_ge (a b : Q) : GameClient.Qltb a b = false <-> (b <= a)%Q.
Proof.
  unfold GameClient.Qltb. rewrite negb_false_iff. apply Qle_bool_iff.
Qed.

Section Targeting.
Variable s : GameClient.t.
Variables x y : Q.

#[local] Abbreviation d a := (GameClient.distance a x y).
#[local] Abbreviation R2 := GameClient.attackRange.
#[local] Abbreviation loop_inv := (loop_invariant s x y).

Lemma loop_inv_skip seen v cp cd :
  ~ other_player s v -> loop_inv seen cp cd -> loop_inv (seen ++ [v]) cp cd.
Proof.
  intros Hv. destruct cp as [a|]; cbn.
  - intros [-> (Ha & Hr & before & after & -> & Hb & Haf)].
    split; [reflexivity|]. split; [exact Ha|]. split; [exact Hr|].
    exists before, (after ++ [v])%list. split; [|split].
    + rewrite <- app_assoc. reflexivity.
    + exact Hb.
    + intros b [Hin|[<-|[]]]%in_app_iff Hob; [auto|contradiction].
  - intros [-> Hn]. split; [reflexivity|].
    intros b [Hin|[<-|[]]]%in_app_iff Hob; [auto|contradiction].
Qed.

Lemma loop_inv_keep seen v cp cd :
  (cd <= d v)%Q -> loop_inv seen cp cd -> loop_inv (seen ++ [v]) cp cd.
Proof.
  intros Hv. destruct cp as [a|]; cbn.
  - intros [-> (Ha & Hr & before & after & -> & Hb & Haf)].
    split; [reflexivity|]. split; [exact Ha|]. split; [exact Hr|].
    exists before, (after ++ [v])%list. split; [|split].
    + rewrite <- app_assoc. reflexivity.
    + exact Hb.
    + intros b [Hin|[<-|[]]]%in_app_iff Hob; [auto|exact Hv].
  - intros [-> Hn]. split; [reflexivity|].
    intros b [Hin|[<-|[]]]%in_app_iff Hob; [auto|].
    intros Hlt. exact (Qlt_not_le _ _ Hlt Hv).
Qed.

Lemma loop_inv_take seen v cp cd :
  other_player s v -> (d v < cd)%Q -> loop_inv seen cp cd ->
  loop_inv (seen ++ [v]) (Some v) (d v).
Proof.
  intros Hv Hlt Hinv. split; [reflexivity|]. split; [exact Hv|].
  destruct cp as [a|]; cbn in Hinv.
  - destruct Hinv as [-> (Ha & Hr & before & after & -> & Hb & Haf)].
    split; [exact (Qlt_trans _ _ _ Hlt Hr)|].
    exists (before ++ a :: after)%list, []. split; [reflexivity|]. split.
    + intros b [Hin|[<-|Hin]]%in_app_iff Hob.
      * exact (Qlt_trans _ _ _ Hlt (Hb b Hin Hob)).
      * exact Hlt.
      * exact (Qlt_le_trans _ _ _ Hlt (Haf b Hin Hob)).
    + intros b [].
  - destruct Hinv as [-> Hn]. split; [exact Hlt|].
    exists seen, []. split; [reflexivity|]. split.
    + intros b Hin Hob. apply Qnot_le_lt. intros Hle.
      apply (Hn b Hin Hob). exact (Qle_lt_trans _ _ _ Hle Hlt).
    + intros b [].
Qed.

Lemma findLoop_sound rest : forall seen cp cd,
  loop_inv seen cp cd ->
  match GameClient.findLoop s x y rest cp cd with
  | Some a => first_nearest s x y (seen ++ rest) a
  | None => none_in_range s x y (seen ++ rest)
  end.
Proof.
  induction rest as [|v rest IH]; intros seen cp cd Hinv.
  - cbn. rewrite app_nil_r. destruct cp; apply Hinv.
  - replace (seen ++ v :: rest)%list with ((seen ++ [v]) ++ rest)%list
      by (rewrite <- app_assoc; reflexivity).
    cbn. destruct (GameClient.is_myPlayerId s (Avatar.id v)) eqn:Hme.
    + apply IH, loop_inv_skip; [|exact Hinv].
      unfold other_player. congruence.
    + destruct (GameClient.Qltb (d v) cd) eqn:Hlt.
      * apply IH, (loop_inv_take seen v cp cd); [exact Hme| |exact Hinv].
        apply Qltb_lt, Hlt.
      * apply IH, loop_inv_keep; [|exact Hinv]. apply Qltb_ge, Hlt.
Qed.

(** Avatars that are not nearer than the one held do not replace it. *)
Lemma findLoop_after after : forall a,
  (forall b, In b after -> other_player s b -> (d a <= d b)%Q) ->
  GameClient.findLoop s x y after (Some a) (d a) = Some a.
Proof.
  induction after as [|v after IH]; intros a Haf; [reflexivity|].
  cbn. destruct (GameClient.is_myPlayerId s (Avatar.id v)) eqn:Hme.
  - apply IH. intros b Hin. apply Haf. right. exact Hin.
  - assert (GameClient.Qltb (d v) (d a) = false) as ->.
    { apply Qltb_ge, Haf; [left; reflexivity|exact Hme]. }
    apply IH. intros b Hin. apply Haf. right. exact Hin.
Qed.

Lemma findLoop_complete before : forall a after cp cd,
  other_player s a ->
  (d a < cd)%Q ->
  (forall b, In b before -> other_player s b -> (d a < d b)%Q) ->
  (forall b, In b after -> other_player s b -> (d a <= d b)%Q) ->
  GameClient.findLoop s x y (before ++ a :: after) cp cd = Some a.
Proof.
  induction before as [|v before IH]; intros a after cp cd Ha Hlt Hb Haf.
  - cbn. unfold other_player in Ha. rewrite Ha.
    apply Qltb_lt in Hlt. rewrite Hlt. apply findLoop_after, Haf.
  - cbn. destruct (GameClient.is_myPlayerId s (Avatar.id v)) eqn:Hme.
    + apply IH; auto. intros b Hin. apply Hb. right. exact Hin.
    + destruct (GameClient.Qltb (d v) cd).
      * apply IH; auto.
        -- apply Hb; [left; reflexivity|exact Hme].
        -- intros b Hin. apply Hb. right. exact Hin.
      * apply IH; auto. intros b Hin. apply Hb. right. exact Hin.
Qed.

Lemma findPlayerInRange_sound :
  match GameClient.findPlayerInRange x y s with
  | Some a => first_nearest s x y (GameClient.values s) a
  | None => none_in_range s x y (GameClient.values s)
  end.
Proof.
  unfold GameClient.findPlayerInRange.
  apply (findLoop_sound (GameClient.values s) [] None R2).
  split; [reflexivity|]. intros b [].
Qed.

Lemma findPlayerInRange_complete a :
  first_nearest s x y (GameClient.values s) a ->
  GameClient.findPlayerInRange x y s = Some a.
Proof.
  intros (Ha & Hr & before & after & Hl & Hb & Haf).
  unfold GameClient.findPlayerInRange. rewrite Hl.
  apply findLoop_complete; assumption.
Qed.

End Targeting.

(** C5 as stated fails: the distance is computed in doubles.  An
    opponent at (14 - 2^-49, 48) is at a Euclidean distance from (0, 0)
    strictly below 50, but the client computes 50 and finds no target;
    and of an opponent at (40, 0) and a later one at (24, 32 - 2^-48),
    which is strictly nearer, the client computes 40 for both and keeps
    the first. *)
Lemma C5_rounding_hides_a_target :
  (let s := arena [("2", (14 - (1 # 2 ^ 49), 48))]%Q in
   other_player s (avatar_of "2" s) /\
   (euclidean_square (avatar_of "2" s) 0 0 < 50 * 50)%Q /\
   (GameClient.distance (avatar_of "2" s) 0 0 == 50)%Q /\
   GameClient.findPlayerInRange 0 0 s = None) /\
  (let s := arena [("2", (40, 0)); ("3", (24, 32 - (1 # 2 ^ 48)))]%Q in
   (euclidean_square (avatar_of "3" s) 0 0
    < euclidean_square (avatar_of "2" s) 0 0)%Q /\
   (euclidean_square (avatar_of "3" s) 0 0 < 50 * 50)%Q /\
   option_map Avatar.id (GameClient.findPlayerInRange 0 0 s) = Some "2").
Proof. vm_compute. repeat split. Qed.

(** C5, amended.  For every roster and every point, findPlayerInRange
    returns an avatar exactly when it is the first nearest one by the
    distance the client computes in doubles (the square root of the sum
    of the two squares, each operation rounded to nearest): not the
    local player's, at a computed distance strictly below the attack
    radius of 50, strictly below the distance of every other player
    earlier in the iteration order and at most that of every later one;
    it returns no target exactly when no other player has a computed
    distance strictly below the radius.  The avatar returned has a
    computed distance that is minimal among the other players and never
    equal to the radius.  With the local player at (0, 0): an opponent
    at distance 49 is selected, one at distance 50 is not, the nearer of
    two in range is selected, and of two equally near the first in
    iteration order. *)
Theorem C5_findPlayerInRange (s : GameClient.t) (x y : Q) :
  (forall a, GameClient.findPlayerInRange x y s = Some a
             <-> first_nearest s x y (GameClient.values s) a) /\
  (GameClient.findPlayerInRange x y s = None
   <-> none_in_range s x y (GameClient.values s)) /\
  (forall a, GameClient.findPlayerInRange x y s = Some a ->
             (GameClient.distance a x y < GameClient.attackRange)%Q /\
             forall b, In b (GameClient.values s) -> other_player s b ->
                       (GameClient.distance a x y <= GameClient.distance b x y)%Q) /\
  (forall a, GameClient.findPlayerInRange x y s = Some a ->
             ~ (GameClient.distance a x y == GameClient.attackRange)%Q) /\
  option_map Avatar.id (GameClient.findPlayerInRange 0 0 (arena [("2", (49%Q, 0%Q))]))
  = Some "2" /\
  GameClient.findPlayerInRange 0 0 (arena [("2", (50%Q, 0%Q))]) = None /\
  option_map Avatar.id
    (GameClient.findPlayerInRange 0 0 (arena [("2", (30%Q, 0%Q)); ("3", (0%Q, 20%Q))]))
  = Some "3" /\
  option_map Avatar.id
    (GameClient.findPlayerInRange 0 0 (arena [("2", (0%Q, 30%Q)); ("3", (30%Q, 0%Q))]))
  = Some "2".
Proof.
  pose proof (findPlayerInRange_sound s x y) as Hs.
  split; [|split; [|split; [|split]]].
  - intros a. split.
    + intros E. rewrite E in Hs. exact Hs.
    + apply findPlayerInRange_complete.
  - split.
    + intros E. rewrite E in Hs. exact Hs.
    + intros Hn. destruct (GameClient.findPlayerInRange x y s) as [a|];
        [|reflexivity].
      destruct Hs as (Ha & Hr & before & after & Hl & _).
      exfalso. apply (Hn a); [|exact Ha|exact Hr].
      rewrite Hl. apply in_app_iff. right. left. reflexivity.
  - intros a E. rewrite E in Hs.
    destruct Hs as (_ & Hr & before & after & Hl & Hb & Haf).
    split; [exact Hr|].
    intros b Hin Hob.
    rewrite Hl in Hin. apply in_app_iff in Hin as [Hin|[<-|Hin]].
    + apply Qlt_le_weak, Hb; assumption.
    + apply Qle_refl.
    + apply Haf; assumption.
  - intros a E. rewrite E in Hs. destruct Hs as (_ & Hr & _).
    intros Heq. rewrite Heq in Hr. exact (Qlt_irrefl _ Hr).
  - vm_compute. repeat split.
Qed.

(** *** Keyboard *)

(** C7 as stated fails: the client that has been constructed but whose
    socket has not opened is playing, and a key-down of an arrow key
    records the key and sends nothing. *)
Lemma C7_keydown_sends_nothing_when_disconnected :
  GameClient.gameState started = GameClient.playing /\
  GameClient.keyMap "ArrowUp" = Some "up" /\
  GameClient.effects (GameClient.host (GameClient.handleKeyDown "ArrowUp" started))
  = GameClient.effects (GameClient.host started) /\
  GameClient.effects
    (GameClient.host
       (GameClient.handleKeyUp "ArrowUp" (GameClient.handleKeyDown "ArrowUp" started)))
  = GameClient.effects (GameClient.host started).
Proof. repeat split. Qed.

(** C7, amended. While the game state is playing, a key-down of a mapped
    direction key adds it to the pressed-set and, when the connection is
    open, sends one move action for its direction; a key-up removes the
    key and sends one stop action exactly when the connection is open and
    the pressed-set has become empty; neither changes the game state.
    Hence, with the connection open, pressing and releasing one direction
    key with no other key pressed sends the move and then exactly one
    stop.  When the connection is not open the pressed-set changes in the
    same way and nothing is sent. *)
Theorem C7_keys_move_and_stop (s : GameClient.t) (code direction : string) (w : nat) :
  GameClient.gameState s = GameClient.playing ->
  GameClient.keyMap code = Some direction ->
  GameClient.websocket s = Some w ->
  (let s' := GameClient.handleKeyDown code s in
   GameClient.pressedKeys s' = {[ code ]} ∪ GameClient.pressedKeys s /\
   GameClient.gameState s' = GameClient.playing /\
   GameClient.effects (GameClient.host s')
   = (GameClient.effects (GameClient.host s)
      ++ if GameClient.connected s
         then [GameClient.WsSend w (GameClient.move direction)] else [])%list) /\
  (let s' := GameClient.handleKeyUp code s in
   GameClient.pressedKeys s' = GameClient.pressedKeys s ∖ {[ code ]} /\
   GameClient.gameState s' = GameClient.playing /\
   GameClient.effects (GameClient.host s')
   = (GameClient.effects (GameClient.host s)
      ++ if GameClient.connected s
            && (size (GameClient.pressedKeys s ∖ {[ code ]}) =? 0)%nat
         then [GameClient.WsSend w GameClient.stop] else [])%list) /\
  (GameClient.pressedKeys s = ∅ ->
   let s' := GameClient.handleKeyUp code (GameClient.handleKeyDown code s) in
   GameClient.pressedKeys s' = ∅ /\
   GameClient.effects (GameClient.host s')
   = (GameClient.effects (GameClient.host s)
      ++ if GameClient.connected s
         then [GameClient.WsSend w (GameClient.move direction);
               GameClient.WsSend w GameClient.stop]
         else [])%list).
Proof.
  intros Hplay Hkey Hw.
  assert (forall s1, GameClient.gameState s1 = GameClient.playing ->
                     negb (GameClient.is_playing s1) = false) as Hp.
  { intros s1 H1. unfold GameClient.is_playing. rewrite H1. reflexivity. }
  assert (Hdown :
    let s' := GameClient.handleKeyDown code s in
    GameClient.pressedKeys s' = {[ code ]} ∪ GameClient.pressedKeys s /\
    GameClient.gameState s' = GameClient.playing /\
    GameClient.websocket s' = Some w /\
    GameClient.connected s' = GameClient.connected s /\
    GameClient.effects (GameClient.host s')
    = (GameClient.effects (GameClient.host s)
       ++ if GameClient.connected s
          then [GameClient.WsSend w (GameClient.move direction)] else [])%list).
  { unfold GameClient.handleKeyDown. rewrite (Hp s Hplay), Hkey.
    unfold GameClient.sendMoveCommand, GameClient.websocket_send. cbn.
    rewrite Hw. destruct (GameClient.connected s) eqn:Hc; cbn;
      rewrite ?app_nil_r, ?Hc; auto. }
  assert (Hup : forall s1 w1,
    GameClient.gameState s1 = GameClient.playing ->
    GameClient.websocket s1 = Some w1 ->
    let s' := GameClient.handleKeyUp code s1 in
    GameClient.pressedKeys s' = GameClient.pressedKeys s1 ∖ {[ code ]} /\
    GameClient.gameState s' = GameClient.playing /\
    GameClient.effects (GameClient.host s')
    = (GameClient.effects (GameClient.host s1)
       ++ if GameClient.connected s1
             && (size (GameClient.pressedKeys s1 ∖ {[ code ]}) =? 0)%nat
          then [GameClient.WsSend w1 GameClient.stop] else [])%list).
  { intros s1 w1 H1 Hw1. unfold GameClient.handleKeyUp.
    rewrite (Hp s1 H1), Hkey.
    unfold GameClient.sendStopCommand, GameClient.websocket_send. cbn.
    rewrite Hw1.
    destruct (size (GameClient.pressedKeys s1 ∖ {[ code ]}) =? 0)%nat;
      destruct (GameClient.connected s1); cbn; rewrite ?app_nil_r; auto. }
  split; [|split].
  - cbv zeta in Hdown. cbv zeta. tauto.
  - apply Hup; assumption.
  - intros Hempty. cbv zeta in Hdown.
    destruct Hdown as (Hpk & Hgs & Hws & Hcn & Heff).
    destruct (Hup _ _ Hgs Hws) as (Hpk' & _ & Heff'). cbv zeta.
    rewrite Hpk', Heff', Hpk, Heff, Hcn, Hempty.
    rewrite (right_id_L ∅ (∪)), difference_diag_L.
    split; [reflexivity|].
    rewrite size_empty. destruct (GameClient.connected s); cbn;
      rewrite <- ?app_assoc, ?app_nil_r; reflexivity.
Qed.

Lemma C7_keys_move_and_stop_witness :
  let s := GameClient.step GameClient.SocketOpen started in
  GameClient.gameState s = GameClient.playing /\
  GameClient.keyMap "ArrowLeft" = Some "left" /\
  GameClient.websocket s = Some 0%nat /\
  GameClient.pressedKeys s = ∅ /\
  GameClient.effects
    (GameClient.host
       (GameClient.handleKeyUp "ArrowLeft" (GameClient.handleKeyDown "ArrowLeft" s)))
  = (GameClient.effects (GameClient.host s)
     ++ if GameClient.connected s
        then [GameClient.WsSend 0 (GameClient.move "left");
              GameClient.WsSend 0 GameClient.stop]
        else [])%list.
Proof.
  cbv zeta.
  pose proof (C7_keys_move_and_stop
                (GameClient.step GameClient.SocketOpen started)
                "ArrowLeft" "left" 0%nat eq_refl eq_refl eq_refl) as (_ & _ & H).
  do 4 (split; [reflexivity|]). exact (proj2 (H eq_refl)).
Defined.

(** *** Dead avatars and the hint of the display *)

(** C10 as stated fails, as C5 does: the distance is computed in
    doubles.  A dead opponent at (14 - 2^-49, 48), the only other player,
    is at a Euclidean distance strictly below 50 from the point (0, 0)
    of a click that passes every gate; the client computes 50, selects
    nothing and sends nothing. *)
Lemma C10_rounding_spares_a_dead_avatar :
  let s := arena_dead (14 - (1 # 2 ^ 49)) 48 in
  Avatar.isDead (avatar_of "2" s) = true /\
  other_player s (avatar_of "2" s) /\
  GameClient.values s = [avatar_of "1" s; avatar_of "2" s] /\
  GameClient.screenToWorld 0 0 s = (0, 0)%Q /\
  (euclidean_square (avatar_of "2" s) 0 0 < 50 * 50)%Q /\
  GameClient.connected s = true /\
  GameClient.myPlayerId_truthy s = true /\
  GameClient.gameState s = GameClient.playing /\
  GameClient.attackCooldown s = 0%Z /\
  GameClient.findPlayerInRange 0 0 s = None /\
  GameClient.handleCanvasClick 0 0 s = s.
Proof. vm_compute. repeat split. Qed.

(** C10, amended.  findPlayerInRange does not look at the death flag:
    when the first nearest other player by the distance the client
    computes in doubles, strictly below the radius, is dead, it is the
    one selected, and a click that passes the gates of handleCanvasClick
    (connected, identity known, playing, cooldown elapsed) sends an
    attack action for its id.  The count behind the "Click to attack"
    hint skips dead avatars and compares with <=, so the two disagree:
    with a dead opponent 40 away the count is 0 and a click on the local
    player attacks it; with a living opponent exactly 50 away the count
    is 1 and the same click selects nothing. *)
Theorem C10_dead_avatars_are_targeted :
  (forall (s : GameClient.t) (clickX clickY : Q) (a : Avatar.t) (w : nat),
      first_nearest s
        (fst (GameClient.screenToWorld clickX clickY s))
        (snd (GameClient.screenToWorld clickX clickY s))
        (GameClient.values s) a ->
      Avatar.isDead a = true ->
      GameClient.connected s = true ->
      GameClient.myPlayerId_truthy s = true ->
      GameClient.gameState s = GameClient.playing ->
      (GameClient.attackCooldown s <= 0)%Z ->
      GameClient.websocket s = Some w ->
      GameClient.findPlayerInRange
        (fst (GameClient.screenToWorld clickX clickY s))
        (snd (GameClient.screenToWorld clickX clickY s)) s = Some a /\
      GameClient.effects (GameClient.host (GameClient.handleCanvasClick clickX clickY s))
      = (GameClient.effects (GameClient.host s)
         ++ [GameClient.WsSend w (GameClient.attack (Avatar.id a))])%list) /\
  (GameClient.playersInRange joined_dead = Some 0%nat /\
   GameClient.effects (GameClient.host (GameClient.handleCanvasClick 400 300 joined_dead))
   = (GameClient.effects (GameClient.host joined_dead)
      ++ [GameClient.WsSend 0 (GameClient.attack "2")])%list) /\
  (GameClient.playersInRange (arena [("2", (50%Q, 0%Q))]) = Some 1%nat /\
   GameClient.findPlayerInRange 0 0 (arena [("2", (50%Q, 0%Q))]) = None /\
   GameClient.handleCanvasClick 0 0 (arena [("2", (50%Q, 0%Q))])
   = arena [("2", (50%Q, 0%Q))]).
Proof.
  split; [|split; [split|split; [|split]]; vm_compute; reflexivity].
  intros s clickX clickY a w Hfirst Hdead Hc Hid Hplay Hcd Hw.
  pose proof (findPlayerInRange_complete _ _ _ _ Hfirst) as Hfind.
  split; [exact Hfind|].
  unfold GameClient.handleCanvasClick, GameClient.is_playing.
  rewrite Hc, Hid, Hplay. cbn [negb orb].
  assert ((0 <? GameClient.attackCooldown s)%Z = false) as -> by lia.
  cbv zeta. rewrite Hfind.
  unfold GameClient.attackPlayer. rewrite Hc, Hw. reflexivity.
Qed.

Lemma C10_dead_avatars_are_targeted_witness :
  Avatar.isDead (avatar_of "2" joined_dead) = true /\
  Avatar.id (avatar_of "2" joined_dead) = "2" /\
  GameClient.findPlayerInRange
    (fst (GameClient.screenToWorld 400 300 joined_dead))
    (snd (GameClient.screenToWorld 400 300 joined_dead)) joined_dead
  = Some (avatar_of "2" joined_dead) /\
  GameClient.effects (GameClient.host (GameClient.handleCanvasClick 400 300 joined_dead))
  = (GameClient.effects (GameClient.host joined_dead)
     ++ [GameClient.WsSend 0
           (GameClient.attack (Avatar.id (avatar_of "2" joined_dead)))])%list.
Proof.
  assert (Avatar.isDead (avatar_of "2" joined_dead) = true) as Hdead
    by (vm_compute; reflexivity).
  assert (GameClient.connected joined_dead = true) as Hc
    by (vm_compute; reflexivity).
  assert (GameClient.myPlayerId_truthy joined_dead = true) as Hid
    by (vm_compute; reflexivity).
  assert (GameClient.gameState joined_dead = GameClient.playing) as Hplay
    by (vm_compute; reflexivity).
  assert (GameClient.attackCooldown joined_dead <= 0)%Z as Hcd
    by (vm_compute; discriminate).
  assert (GameClient.websocket joined_dead = Some 0%nat) as Hw
    by (vm_compute; reflexivity).
  assert (first_nearest joined_dead
            (fst (GameClient.screenToWorld 400 300 joined_dead))
            (snd (GameClient.screenToWorld 400 300 joined_dead))
            (GameClient.values joined_dead) (avatar_of "2" joined_dead)) as Hfirst.
  { split; [vm_compute; reflexivity|]. split; [vm_compute; reflexivity|].
    exists [avatar_of "1" joined_dead], [].
    split; [vm_compute; reflexivity|]. split.
    - intros b [<-|[]] H. exfalso. revert H. vm_compute. discriminate.
    - intros b []. }
  split; [exact Hdead|]. split; [vm_compute; reflexivity|].
  exact (proj1 C10_dead_avatars_are_targeted joined_dead 400%Q 300%Q
           (avatar_of "2" joined_dead) 0%nat Hfirst Hdead Hc Hid Hplay Hcd Hw).
Defined.

(** *** The fallback of an attack *)

(** C1. The callback of the fallback timer tests the cooldown only, and no
    message of the server changes the cooldown.  So after an attack that
    the server has confirmed as a kill (one kill credited), sixty frames
    later the cooldown is still 40, the fallback runs, credits a second
    kill and marks the target dead with a respawn timer pending. *)
Theorem C1_fallback_ignores_server_result :
  (forall targetId s,
      GameClient.attackFallback targetId s
      = if (0 <? GameClient.attackCooldown s)%Z
        then GameClient.simulatePlayerDeath targetId (GameClient.addKill s)
        else s) /\
  (forall m s,
      GameClient.attackCooldown (GameClient.handleMessage m s)
      = GameClient.attackCooldown s) /\
  GameClient.effects (GameClient.host attacked_and_confirmed)
  = (GameClient.effects (GameClient.host joined)
     ++ [GameClient.WsSend 0 (GameClient.attack "2")])%list /\
  GameClient.timers (GameClient.host attacked_and_confirmed)
  = [GameClient.AttackFallback "2"] /\
  GameClient.kills (GameClient.score attacked_and_confirmed) = 1%Z /\
  GameClient.attackCooldown
    (GameClient.run (repeat GameClient.AnimationFrame 60) attacked_and_confirmed)
  = 40%Z /\
  GameClient.kills (GameClient.score after_fallback) = 2%Z /\
  Avatar.isDead (avatar_of "2" after_fallback) = true /\
  GameClient.timers (GameClient.host after_fallback)
  = [GameClient.SimulatedRespawn (Avatar.oid (avatar_of "2" after_fallback))].
Proof.
  split; [reflexivity|]. split; [exact (fun m s => proj1 (untouched_handleMessage m s))|].
  do 6 (split; [vm_compute; reflexivity|]). vm_compute; reflexivity.
Qed.


(** ** Further properties of the client *)

(** *** Server messages and timers *)

Section Control.
Import GameClient.
Implicit Types s : GameClient.t.

Lemma control_kept_refl s : control_kept s s.
Proof. repeat split. Qed.

Lemma control_kept_trans s s1 s2 :
  control_kept s s1 -> control_kept s1 s2 -> control_kept s s2.
Proof.
  unfold control_kept. intros H1 H2.
  repeat match goal with H : _ /\ _ |- _ => destruct H end.
  repeat split; congruence.
Qed.

Lemma control_kept_joinPlayer s e : control_kept s (joinPlayer s e).
Proof. unfold control_kept, joinPlayer, new_Avatar. branches. Qed.

Lemma control_kept_movePlayer s e : control_kept s (movePlayer s e).
Proof. unfold control_kept, movePlayer. branches. Qed.

Lemma control_kept_fold {A} (f : GameClient.t -> A -> GameClient.t) l :
  (forall s a, control_kept s (f s a)) ->
  forall s, control_kept s (fold_left f l s).
Proof.
  intros Hf. induction l as [|a l IH]; intros s; cbn;
    [apply control_kept_refl|].
  exact (control_kept_trans _ _ _ (Hf s a) (IH _)).
Qed.

Lemma control_kept_centerViewportOnMyAvatar s :
  control_kept s (centerViewportOnMyAvatar s).
Proof. unfold control_kept, centerViewportOnMyAvatar. branches. Qed.

Lemma control_kept_simulatePlayerDeath targetId s :
  control_kept s (simulatePlayerDeath targetId s).
Proof. unfold control_kept, simulatePlayerDeath. branches. Qed.

Lemma control_kept_handleJoinGame success playerId avs pls s :
  control_kept s (handleJoinGame success playerId avs pls s).
Proof.
  unfold handleJoinGame. destruct success; [|apply control_kept_refl]. cbv zeta.
  eapply control_kept_trans; [|apply control_kept_centerViewportOnMyAvatar].
  assert (forall s1, control_kept s s1 ->
            control_kept s (match pls with
                            | Some entries => fold_left joinPlayer entries s1
                            | None => s1
                            end)) as Hpls.
  { intros s1 H1. destruct pls as [pls|]; [|exact H1].
    exact (control_kept_trans _ _ _ H1
             (control_kept_fold _ _ control_kept_joinPlayer _)). }
  apply Hpls. destruct avs as [avs|]; [|repeat split].
  eapply control_kept_trans;
    [|apply control_kept_fold; intros; repeat split].
  repeat split.
Qed.

Lemma control_kept_handleMessage m s : control_kept s (handleMessage m s).
Proof.
  destruct m as [success playerId avs pls|player avatar|pls|playerId
                |success targetId kill|playerId|playerId x y|tag];
    unfold handleMessage.
  - apply control_kept_handleJoinGame.
  - unfold control_kept, handlePlayerJoined, new_Avatar. branches.
  - unfold handlePlayersMoved. destruct pls; [|apply control_kept_refl].
    apply control_kept_fold, control_kept_movePlayer.
  - repeat split.
  - unfold handleAttack. destruct success; [|apply control_kept_refl].
    destruct kill; [repeat split|]. cbv zeta.
    eapply control_kept_trans; [|apply control_kept_simulatePlayerDeath].
    repeat split.
  - unfold control_kept, handlePlayerDied. branches.
  - unfold control_kept, handlePlayerRespawned. branches.
  - apply control_kept_refl.
Qed.

Lemma control_kept_runTimeout i s : control_kept s (runTimeout i s).
Proof.
  unfold runTimeout. destruct (timers (host s) !! i) as [[targetId|player]|];
    [|repeat split|apply control_kept_refl].
  unfold attackFallback. cbv zeta.
  match goal with |- context [if ?c then _ else _] => destruct c end;
    [|repeat split].
  eapply control_kept_trans; [|apply control_kept_simulatePlayerDeath].
  repeat split.
Qed.

End Control.

(** X1. Whatever the server sends and whichever timer runs, the handler
    changes neither the session state, the connected flag, the socket,
    the keys held, the canvas and world sizes, the cooldown nor the pause
    clock, and it makes no call on a socket: inbound messages never cause
    an outbound one. *)
Theorem X1_messages_and_timers_keep_controls (s : GameClient.t) :
  (forall m, control_kept s (GameClient.step (GameClient.SocketMessage m) s)) /\
  (forall i, control_kept s (GameClient.step (GameClient.Timeout i) s)).
Proof.
  split; intros; [apply control_kept_handleMessage|apply control_kept_runTimeout].
Qed.

(** *** The session state *)

Lemma gameState_handleKeyDown code s :
  GameClient.gameState (GameClient.handleKeyDown code s) = GameClient.gameState s.
Proof.
  unfold GameClient.handleKeyDown, GameClient.sendMoveCommand,
    GameClient.websocket_send. branches.
Qed.

Lemma gameState_handleGameControlKeys code ctrlKey metaKey now s :
  GameClient.gameState (GameClient.handleGameControlKeys code ctrlKey metaKey now s)
  = next_gameState (GameClient.KeyDown code ctrlKey metaKey now)
      (GameClient.gameState s).
Proof.
  unfold GameClient.handleGameControlKeys, next_gameState.
  destruct (String.eqb code "Space").
  { unfold GameClient.togglePause, GameClient.pauseGame, GameClient.resumeGame,
      GameClient.is_playing, GameClient.sendStopCommand, GameClient.websocket_send.
    destruct (GameClient.gameState s) eqn:E; rewrite ?E; cbn; branches. }
  destruct (String.eqb code "Escape").
  { unfold GameClient.stopGame. branches. }
  destruct (String.eqb code "KeyR").
  { destruct (ctrlKey || metaKey); [|reflexivity].
    unfold GameClient.restartGame, GameClient.connectToServer. branches. }
  destruct (String.eqb code "KeyS"); [|reflexivity].
  destruct (ctrlKey || metaKey); reflexivity.
Qed.

(** X2. The session state changes only through the control keys: for every
    callback the state afterwards is the one given by [next_gameState].
    In particular a stopped session stays stopped under every callback
    except the restart command, which makes it playing. *)
Theorem X2_session_state_machine (e : GameClient.event) (s : GameClient.t) :
  GameClient.gameState (GameClient.step e s)
  = next_gameState e (GameClient.gameState s) /\
  (GameClient.gameState s = GameClient.stopped ->
   GameClient.gameState (GameClient.step e s) = GameClient.stopped \/
   (exists ctrlKey metaKey now,
       e = GameClient.KeyDown "KeyR" ctrlKey metaKey now /\
       ctrlKey || metaKey = true /\
       GameClient.step e s = GameClient.restartGame s)).
Proof.
  assert (GameClient.gameState (GameClient.step e s)
          = next_gameState e (GameClient.gameState s)) as Hstep.
  { destruct e as [code ctrlKey metaKey now|code|clickX clickY| |w h| | | |m|i];
      unfold GameClient.step.
    - cbv zeta. rewrite gameState_handleGameControlKeys, gameState_handleKeyDown.
      reflexivity.
    - unfold GameClient.handleKeyUp, GameClient.sendStopCommand,
        GameClient.websocket_send. branches.
    - unfold GameClient.handleCanvasClick, GameClient.attackPlayer. branches.
    - unfold GameClient.update. branches.
    - unfold GameClient.updateViewport. branches.
    - unfold GameClient.joinGame, GameClient.websocket_send. branches.
    - reflexivity.
    - reflexivity.
    - apply control_kept_handleMessage.
    - apply control_kept_runTimeout. }
  split; [exact Hstep|].
  intros Hs. rewrite Hstep, Hs.
  destruct e as [code ctrlKey metaKey now|code|clickX clickY| |w h| | | |m|i];
    try (left; reflexivity).
  unfold next_gameState.
  destruct (String.eqb code "Space") eqn:E1; [left; reflexivity|].
  destruct (String.eqb code "Escape") eqn:E2; [left; reflexivity|].
  destruct (String.eqb code "KeyR") eqn:E3; [|left; reflexivity].
  destruct (ctrlKey || metaKey) eqn:E4; [|left; reflexivity].
  right. apply String.eqb_eq in E3. subst code.
  exists ctrlKey, metaKey, now. split; [reflexivity|]. split; [exact E4|].
  unfold GameClient.step, GameClient.handleKeyDown.
  destruct (negb (GameClient.is_playing s)); cbn;
    unfold GameClient.handleGameControlKeys; cbn; rewrite E4; reflexivity.
Qed.

Lemma X2_session_state_machine_witness :
  let s := GameClient.step (GameClient.KeyDown "Escape" false false 0) joined in
  GameClient.gameState s = GameClient.stopped /\
  GameClient.gameState (GameClient.step (GameClient.KeyDown "Space" false false 5) s)
  = GameClient.stopped.
Proof.
  cbv zeta.
  assert (GameClient.gameState
            (GameClient.step (GameClient.KeyDown "Escape" false false 0) joined)
          = GameClient.stopped) as Hs by reflexivity.
  split; [exact Hs|].
  destruct (proj2 (X2_session_state_machine
                     (GameClient.KeyDown "Space" false false 5) _) Hs)
    as [H|(c & m & n & He & _)]; [exact H|discriminate He].
Defined.

(** *** Nothing is sent without a connection *)

Lemma handleKeyDown_disconnected code s :
  GameClient.connected s = false ->
  sent (GameClient.handleKeyDown code s) = sent s /\
  GameClient.connected (GameClient.handleKeyDown code s) = false.
Proof.
  intros Hc. unfold GameClient.handleKeyDown, GameClient.sendMoveCommand.
  destruct (negb (GameClient.is_playing s)); [split; [reflexivity|exact Hc]|].
  destruct (GameClient.keyMap code); [|split; [reflexivity|exact Hc]].
  cbn. rewrite Hc. cbn. split; [reflexivity|exact Hc].
Qed.

Lemma handleGameControlKeys_disconnected code ctrlKey metaKey now s :
  GameClient.connected s = false ->
  sent (GameClient.handleGameControlKeys code ctrlKey metaKey now s) = sent s.
Proof.
  intros Hc. unfold GameClient.handleGameControlKeys.
  destruct (String.eqb code "Space").
  { unfold GameClient.togglePause, GameClient.pauseGame, GameClient.resumeGame,
      GameClient.sendStopCommand.
    destruct (GameClient.gameState s) eqn:E; [|reflexivity|reflexivity].
    unfold GameClient.is_playing. rewrite E. cbn. rewrite Hc. reflexivity. }
  destruct (String.eqb code "Escape").
  { unfold GameClient.stopGame. destruct (GameClient.websocket s) eqn:Hw;
      unfold sent; cbn; rewrite Hw; cbn; rewrite ?omap_app; cbn;
      rewrite ?app_nil_r; reflexivity. }
  destruct (String.eqb code "KeyR").
  { destruct (ctrlKey || metaKey); [|reflexivity].
    unfold GameClient.restartGame, GameClient.connectToServer.
    destruct (GameClient.websocket s) eqn:Hw;
      unfold sent; cbn; rewrite Hw; cbn; rewrite ?omap_app; cbn;
      rewrite ?app_nil_r; reflexivity. }
  destruct (String.eqb code "KeyS"); [|reflexivity].
  destruct (ctrlKey || metaKey); reflexivity.
Qed.

(** X3. While the connected flag is false no callback other than the
    opening of the socket hands anything to [send]: keys, clicks, the
    pause command and every message and timer leave the list of actions
    sent as it is. *)
Theorem X3_nothing_sent_while_disconnected (e : GameClient.event) (s : GameClient.t) :
  GameClient.connected s = false ->
  e <> GameClient.SocketOpen ->
  sent (GameClient.step e s) = sent s.
Proof.
  intros Hc He.
  destruct e as [code ctrlKey metaKey now|code|clickX clickY| |w h| | | |m|i];
    unfold GameClient.step.
  - cbv zeta. destruct (handleKeyDown_disconnected code s Hc) as [Hs Hc'].
    rewrite (handleGameControlKeys_disconnected _ _ _ _ _ Hc'). exact Hs.
  - unfold GameClient.handleKeyUp, GameClient.sendStopCommand.
    destruct (negb (GameClient.is_playing s)); [reflexivity|].
    destruct (GameClient.keyMap code); [|reflexivity].
    cbn. rewrite Hc. cbn.
    destruct (size (GameClient.pressedKeys s ∖ {[code]}) =? 0)%nat; reflexivity.
  - unfold GameClient.handleCanvasClick. rewrite Hc. reflexivity.
  - unfold GameClient.update. branches.
  - unfold GameClient.updateViewport. branches.
  - contradiction.
  - reflexivity.
  - reflexivity.
  - unfold sent.
    destruct (control_kept_handleMessage m s)
      as (_&_&_&_&_&_&_&_&_&_&->&_). reflexivity.
  - unfold sent.
    destruct (control_kept_runTimeout i s)
      as (_&_&_&_&_&_&_&_&_&_&->&_). reflexivity.
Qed.

Lemma X3_nothing_sent_while_disconnected_witness :
  GameClient.connected started = false /\
  sent (GameClient.step (GameClient.KeyDown "ArrowUp" false false 0) started)
  = sent started.
Proof.
  split; [reflexivity|].
  apply (X3_nothing_sent_while_disconnected
           (GameClient.KeyDown "ArrowUp" false false 0) started);
    [reflexivity|discriminate].
Defined.

(** *** Pause, resume and stop *)

(** X4. Pausing a playing session makes it paused and sends one stop action
    when the connection is open (none otherwise); resuming makes it
    playing again, sends nothing and adds the time spent paused to the
    pause clock.  The keys held are not cleared, and a key released while
    paused is not noticed: it is still in the pressed-set after resuming. *)
Theorem X4_pause_and_resume (s : GameClient.t) (now1 now2 : Z) (w : nat) :
  GameClient.gameState s = GameClient.playing ->
  GameClient.websocket s = Some w ->
  let p := GameClient.step (GameClient.KeyDown "Space" false false now1) s in
  let r := GameClient.step (GameClient.KeyDown "Space" false false now2) p in
  (GameClient.gameState p = GameClient.paused /\
   GameClient.effects (GameClient.host p)
   = (GameClient.effects (GameClient.host s)
      ++ if GameClient.connected s then [GameClient.WsSend w GameClient.stop]
         else [])%list) /\
  (GameClient.gameState r = GameClient.playing /\
   GameClient.effects (GameClient.host r) = GameClient.effects (GameClient.host p) /\
   GameClient.totalPauseTime r = (GameClient.totalPauseTime s + (now2 - now1))%Z /\
   GameClient.pressedKeys r = GameClient.pressedKeys s) /\
  (forall code,
      GameClient.step (GameClient.KeyUp code) p = p /\
      GameClient.pressedKeys
        (GameClient.step (GameClient.KeyDown "Space" false false now2)
           (GameClient.step (GameClient.KeyUp code) p))
      = GameClient.pressedKeys s).
Proof.
  intros Hplay Hw.
  assert (GameClient.step (GameClient.KeyDown "Space" false false now1) s
          = GameClient.pauseGame now1 s) as Ep.
  { unfold GameClient.step, GameClient.handleKeyDown, GameClient.is_playing.
    rewrite Hplay. cbn. unfold GameClient.togglePause. rewrite Hplay. reflexivity. }
  assert (forall p, GameClient.gameState p = GameClient.paused ->
            GameClient.step (GameClient.KeyDown "Space" false false now2) p
            = GameClient.resumeGame now2 p) as Er.
  { intros p Hp. unfold GameClient.step, GameClient.handleKeyDown,
      GameClient.is_playing. rewrite Hp. cbn.
    unfold GameClient.togglePause. rewrite Hp. reflexivity. }
  assert (GameClient.gameState (GameClient.pauseGame now1 s) = GameClient.paused
          /\ GameClient.pressedKeys (GameClient.pauseGame now1 s)
             = GameClient.pressedKeys s
          /\ GameClient.pauseStartTime (GameClient.pauseGame now1 s) = now1
          /\ GameClient.totalPauseTime (GameClient.pauseGame now1 s)
             = GameClient.totalPauseTime s
          /\ GameClient.effects (GameClient.host (GameClient.pauseGame now1 s))
             = (GameClient.effects (GameClient.host s)
                ++ if GameClient.connected s
                   then [GameClient.WsSend w GameClient.stop] else [])%list)
    as (Hg & Hk & Hst & Htot & Heff).
  { unfold GameClient.pauseGame, GameClient.is_playing,
      GameClient.sendStopCommand, GameClient.websocket_send.
    rewrite Hplay. cbn. rewrite Hw.
    destruct (GameClient.connected s); cbn; rewrite ?app_nil_r; repeat split. }
  cbv zeta. rewrite Ep. split; [split; assumption|]. split.
  - rewrite (Er _ Hg). unfold GameClient.resumeGame. rewrite Hg. cbn.
    rewrite Hst, Htot, Hk. repeat split.
  - intros code.
    assert (GameClient.step (GameClient.KeyUp code) (GameClient.pauseGame now1 s)
            = GameClient.pauseGame now1 s) as ->.
    { unfold GameClient.step, GameClient.handleKeyUp, GameClient.is_playing.
      rewrite Hg. reflexivity. }
    split; [reflexivity|].
    rewrite (Er _ Hg). unfold GameClient.resumeGame. rewrite Hg. cbn. exact Hk.
Qed.

Lemma X4_pause_and_resume_witness :
  let s := GameClient.step (GameClient.KeyDown "ArrowUp" false false 0) joined in
  let p := GameClient.step (GameClient.KeyDown "Space" false false 10) s in
  GameClient.gameState s = GameClient.playing /\
  GameClient.websocket s = Some 0%nat /\
  GameClient.gameState p = GameClient.paused /\
  GameClient.pressedKeys
    (GameClient.step (GameClient.KeyDown "Space" false false 25)
       (GameClient.step (GameClient.KeyUp "ArrowUp") p))
  = GameClient.pressedKeys s.
Proof.
  cbv zeta.
  pose proof (X4_pause_and_resume
                (GameClient.step (GameClient.KeyDown "ArrowUp" false false 0) joined)
                10 25 0%nat eq_refl eq_refl) as H.
  cbv zeta in H. destruct H as ((Hp & _) & _ & Hk).
  split; [reflexivity|]. split; [reflexivity|]. split; [exact Hp|].
  exact (proj2 (Hk "ArrowUp")).
Defined.

Lemma map_get_filter_key {A} (m : string) (l : list (string * A)) :
  GameClient.map_get m (List.filter (fun e => String.eqb (fst e) m) l)
  = GameClient.map_get m l.
Proof.
  induction l as [|[k v] l IH]; [reflexivity|]. cbn.
  destruct (String.eqb k m) eqn:E; cbn; rewrite ?E; [reflexivity|exact IH].
Qed.

(** X5. The stop command makes the session stopped, closes the socket and
    evicts every avatar except the one stored under the local player's
    id, which stays; the score, the viewport and the pending timers are
    left as they are (no timer is cancelled). *)
Theorem X5_stop_keeps_local_avatar (s : GameClient.t) (ctrlKey metaKey : bool) (now : Z) :
  let s' := GameClient.step (GameClient.KeyDown "Escape" ctrlKey metaKey now) s in
  s' = GameClient.stopGame s /\
  GameClient.gameState s' = GameClient.stopped /\
  GameClient.effects (GameClient.host s')
  = (GameClient.effects (GameClient.host s)
     ++ match GameClient.websocket s with
        | Some w => [GameClient.WsClose w]
        | None => []
        end)%list /\
  GameClient.myAvatar s' = GameClient.myAvatar s /\
  (forall k a, In (k, a) (GameClient.players s') ->
               GameClient.myPlayerId s = Some k /\ In (k, a) (GameClient.players s)) /\
  GameClient.myPlayerId s' = GameClient.myPlayerId s /\
  GameClient.score s' = GameClient.score s /\
  GameClient.viewportOffsetX s' = GameClient.viewportOffsetX s /\
  GameClient.viewportOffsetY s' = GameClient.viewportOffsetY s /\
  GameClient.timers (GameClient.host s') = GameClient.timers (GameClient.host s).
Proof.
  cbv zeta.
  assert (GameClient.step (GameClient.KeyDown "Escape" ctrlKey metaKey now) s
          = GameClient.stopGame s) as ->.
  { unfold GameClient.step, GameClient.handleKeyDown.
    destruct (negb (GameClient.is_playing s)); reflexivity. }
  split; [reflexivity|]. unfold GameClient.stopGame. cbv zeta.
  change (GameClient.websocket (GameClient.set_gameState GameClient.stopped s))
    with (GameClient.websocket s).
  destruct (GameClient.websocket s) as [w|]; cbn; rewrite ?app_nil_r;
    (split; [reflexivity|]; split; [reflexivity|]; split;
     [|split; [|repeat split]]).
  all: unfold GameClient.myAvatar, GameClient.is_myPlayerId; cbn.
  all: destruct (GameClient.myPlayerId s) as [m|] eqn:Em; cbn.
  all: try apply map_get_filter_key; try reflexivity.
  all: intros k a Hin; apply filter_In in Hin as [Hin Hk]; cbn in Hk;
    try discriminate Hk.
  all: apply String.eqb_eq in Hk; subst k; split; [reflexivity|exact Hin].
Qed.

(** *** The score in every reachable state *)

Section Ledger.
Import GameClient.
Implicit Types s : GameClient.t.

Lemma ledger_kept_refl s : ledger_kept s s.
Proof. split; reflexivity. Qed.

Lemma ledger_kept_trans s s1 s2 :
  ledger_kept s s1 -> ledger_kept s1 s2 -> ledger_kept s s2.
Proof. intros [H1 H2] [H3 H4]. split; congruence. Qed.

Lemma ledger_saved_kept s s' :
  ledger_saved s -> ledger_kept s s' -> ledger_saved s'.
Proof. intros [H1 H2] [H3 H4]. unfold ledger_saved. rewrite H3, H4. auto. Qed.

Lemma ledger_kept_joinPlayer s e : ledger_kept s (joinPlayer s e).
Proof. unfold ledger_kept, joinPlayer, new_Avatar. branches. Qed.

Lemma ledger_kept_movePlayer s e : ledger_kept s (movePlayer s e).
Proof. unfold ledger_kept, movePlayer. branches. Qed.

Lemma ledger_kept_fold {A} (f : GameClient.t -> A -> GameClient.t) l :
  (forall s a, ledger_kept s (f s a)) ->
  forall s, ledger_kept s (fold_left f l s).
Proof.
  intros Hf. induction l as [|a l IH]; intros s; cbn; [apply ledger_kept_refl|].
  exact (ledger_kept_trans _ _ _ (Hf s a) (IH _)).
Qed.

Lemma ledger_kept_simulatePlayerDeath targetId s :
  ledger_kept s (simulatePlayerDeath targetId s).
Proof. unfold ledger_kept, simulatePlayerDeath. branches. Qed.

Lemma ledger_kept_centerViewportOnMyAvatar s :
  ledger_kept s (centerViewportOnMyAvatar s).
Proof. unfold ledger_kept, centerViewportOnMyAvatar. branches. Qed.

Lemma ledger_kept_handleJoinGame success playerId avs pls s :
  ledger_kept s (handleJoinGame success playerId avs pls s).
Proof.
  unfold handleJoinGame. destruct success; [|apply ledger_kept_refl]. cbv zeta.
  eapply ledger_kept_trans; [|apply ledger_kept_centerViewportOnMyAvatar].
  assert (forall s1, ledger_kept s s1 ->
            ledger_kept s (match pls with
                           | Some entries => fold_left joinPlayer entries s1
                           | None => s1
                           end)) as Hpls.
  { intros s1 H1. destruct pls as [pls|]; [|exact H1].
    exact (ledger_kept_trans _ _ _ H1
             (ledger_kept_fold _ _ ledger_kept_joinPlayer _)). }
  apply Hpls. destruct avs as [avs|]; [|split; reflexivity].
  eapply ledger_kept_trans;
    [|apply ledger_kept_fold; intros; split; reflexivity].
  split; reflexivity.
Qed.

Lemma ledger_saved_addKill s : ledger_saved (addKill s).
Proof. split; reflexivity. Qed.

Lemma ledger_saved_addDeath s : ledger_saved (addDeath s).
Proof. split; reflexivity. Qed.

Lemma handleMessage_ledger m s :
  ledger_kept s (handleMessage m s) \/ ledger_saved (handleMessage m s).
Proof.
  destruct m as [success playerId avs pls|player avatar|pls|playerId
                |success targetId kill|playerId|playerId x y|tag];
    unfold handleMessage.
  - left. apply ledger_kept_handleJoinGame.
  - left. unfold ledger_kept, handlePlayerJoined, new_Avatar. branches.
  - left. unfold handlePlayersMoved. destruct pls; [|apply ledger_kept_refl].
    apply ledger_kept_fold, ledger_kept_movePlayer.
  - left. split; reflexivity.
  - unfold handleAttack. destruct success; [|left; apply ledger_kept_refl].
    right. destruct kill; [apply ledger_saved_addKill|]. cbv zeta.
    exact (ledger_saved_kept _ _ (ledger_saved_addKill s)
             (ledger_kept_simulatePlayerDeath _ _)).
  - unfold handlePlayerDied.
    destruct (map_get playerId (players s)); [|left; apply ledger_kept_refl].
    cbv zeta.
    match goal with |- context [if ?c then _ else _] => destruct c end;
      [right; apply ledger_saved_addDeath|left; split; reflexivity].
  - left. unfold ledger_kept, handlePlayerRespawned. branches.
  - left. apply ledger_kept_refl.
Qed.

Lemma runTimeout_ledger i s :
  ledger_kept s (runTimeout i s) \/ ledger_saved (runTimeout i s).
Proof.
  unfold runTimeout. destruct (timers (host s) !! i) as [[targetId|player]|];
    [|left; split; reflexivity|left; apply ledger_kept_refl].
  unfold attackFallback. cbv zeta.
  match goal with |- context [if ?c then _ else _] => destruct c end;
    [|left; split; reflexivity].
  right.
  match goal with
  | |- ledger_saved (simulatePlayerDeath ?t (addKill ?s1)) =>
      exact (ledger_saved_kept _ _ (ledger_saved_addKill s1)
               (ledger_kept_simulatePlayerDeath _ _))
  end.
Qed.

Lemma handleGameControlKeys_ledger code ctrlKey metaKey now s :
  ledger_kept s (handleGameControlKeys code ctrlKey metaKey now s)
  \/ ledger_saved (handleGameControlKeys code ctrlKey metaKey now s).
Proof.
  unfold handleGameControlKeys.
  destruct (String.eqb code "Space").
  { left. unfold ledger_kept, togglePause, pauseGame, resumeGame,
      sendStopCommand, websocket_send. branches. }
  destruct (String.eqb code "Escape").
  { left. unfold ledger_kept, stopGame. branches. }
  destruct (String.eqb code "KeyR").
  { destruct (ctrlKey || metaKey); [|left; apply ledger_kept_refl].
    right. unfold ledger_saved, restartGame, connectToServer. branches. }
  destruct (String.eqb code "KeyS"); [|left; apply ledger_kept_refl].
  destruct (ctrlKey || metaKey); [|left; apply ledger_kept_refl].
  right. split; reflexivity.
Qed.

(** Every callback leaves the score and its record alone, or leaves the
    record equal to the text of the score. *)
Lemma step_ledger e s :
  ledger_kept s (step e s) \/ ledger_saved (step e s).
Proof.
  destruct e as [code ctrlKey metaKey now|code|clickX clickY| |w h| | | |m|i];
    unfold step.
  - cbv zeta.
    assert (ledger_kept s (handleKeyDown code s)) as Hk.
    { unfold ledger_kept, handleKeyDown, sendMoveCommand, websocket_send.
      branches. }
    destruct (handleGameControlKeys_ledger code ctrlKey metaKey now
                (handleKeyDown code s)) as [H|H]; [left|right; exact H].
    exact (ledger_kept_trans _ _ _ Hk H).
  - left. unfold ledger_kept, handleKeyUp, sendStopCommand, websocket_send.
    branches.
  - left. unfold ledger_kept, handleCanvasClick, attackPlayer. branches.
  - left. unfold ledger_kept, update. branches.
  - left. unfold ledger_kept, updateViewport. branches.
  - left. unfold ledger_kept, joinGame, websocket_send. branches.
  - left. split; reflexivity.
  - left. split; reflexivity.
  - apply handleMessage_ledger.
  - apply runTimeout_ledger.
Qed.

(** What [loadScore] returns: the storage is not written, the score is the
    old one or has its total up to date, and it depends on the stored
    text and the previous score only. *)
Lemma integer_bound n k : JSON.integer n = Some k -> (Z.abs k <= 2 ^ 52)%Z.
Proof.
  unfold JSON.integer. destruct (NilZero.int_of_string n) as [d|]; [|discriminate].
  cbv zeta. destruct (Z.abs (Z.of_int d) <=? 2 ^ 52)%Z eqn:E; [|discriminate].
  intros [= <-]. lia.
Qed.

Lemma score_of_json_total v sc :
  score_of_json v = Returns sc -> total_updated sc.
Proof.
  unfold score_of_json.
  destruct v as [|b|n|str|l|fields]; try discriminate.
  destruct fields as [|[k1 [|b1|n1|s1|l1|o1]] fields]; try discriminate.
  destruct fields as [|[k2 [|b2|n2|s2|l2|o2]] rest]; try discriminate.
  destruct (_ && _ && _); [|discriminate].
  destruct (JSON.integer n1) as [k|] eqn:E1; [|discriminate].
  destruct (JSON.integer n2) as [d|] eqn:E2; [|discriminate].
  intros [= <-]. apply integer_bound in E1, E2.
  unfold total_updated. cbn. symmetry. apply sub_Z_exact. lia.
Qed.

Lemma loadScore_returns s s' :
  loadScore s = Returns s' ->
  localStorage (host s') = localStorage (host s) /\
  (score s' = score s \/ total_updated (score s')) /\
  (forall s2, localStorage (host s2) = localStorage (host s) ->
              score s2 = score s ->
              exists s2', loadScore s2 = Returns s2' /\ score s2' = score s').
Proof.
  unfold loadScore. intros H.
  destruct (localStorage (host s)) as [saved|] eqn:Es.
  - destruct (String.eqb saved EmptyString) eqn:Ee.
    + injection H as <-. split; [exact Es|]. split; [left; reflexivity|].
      intros s2 -> E2. rewrite Ee. exists s2. split; [reflexivity|exact E2].
    + destruct (JSON.parse saved) as [v|] eqn:Ep; [|discriminate].
      destruct (score_of_json v) as [sc| |] eqn:Ev; [|discriminate|discriminate].
      injection H as <-. split; [exact Es|]. split.
      * right. exact (score_of_json_total _ _ Ev).
      * intros s2 -> E2. rewrite Ee, Ep, Ev. eexists. split; reflexivity.
  - injection H as <-. split; [exact Es|]. split; [left; reflexivity|].
    intros s2 -> E2. exists s2. split; [reflexivity|exact E2].
Qed.

Lemma score_connectToServer s : score (connectToServer s) = score s.
Proof. unfold connectToServer. branches. Qed.

Lemma construct_ledger stored w h s :
  construct stored w h = Returns s ->
  localStorage (host s) = stored /\
  total_updated (score s) /\
  forall w' h', exists s', construct stored w' h' = Returns s' /\ score s' = score s.
Proof.
  unfold construct. intros H.
  destruct (loadScore (fresh stored w h)) as [s1| |] eqn:E;
    [|discriminate|discriminate].
  injection H as <-.
  destruct (loadScore_returns _ _ E) as (Hst & Htot & Hdep).
  assert (ledger_kept s1 (connectToServer s1)) as [Hsc Hls].
  { unfold ledger_kept, connectToServer. branches. }
  rewrite Hsc, Hls. split; [exact Hst|]. split.
  - destruct Htot as [->|Ht]; [vm_compute; reflexivity|exact Ht].
  - intros w' h'.
    destruct (Hdep (fresh stored w' h') eq_refl eq_refl) as (s2 & E2 & Hs2).
    rewrite E2. eexists. split; [reflexivity|].
    assert (ledger_kept s2 (connectToServer s2)) as [-> _].
    { unfold ledger_kept, connectToServer. branches. }
    exact Hs2.
Qed.

End Ledger.

Lemma reachable_total_updated s :
  GameClient.reachable s -> total_updated (GameClient.score s).
Proof.
  induction 1 as [stored w h s Hc|e s Hr IH].
  - apply (construct_ledger _ _ _ _ Hc).
  - destruct (step_ledger e s) as [[-> _]|[_ H]]; [exact IH|exact H].
Qed.

Lemma after_fallback_reachable : GameClient.reachable after_fallback.
Proof.
  unfold after_fallback, attacked_and_confirmed, joined.
  do 3 apply run_reachable. apply (GameClient.reachable_construct None 800 600).
  reflexivity.
Qed.

(** X6. In every state that the model reaches (a client constructed with
    no stored score or with a record of the shape [saveScore] writes,
    its counters integers of magnitude at most 2^52, and then driven by
    any callbacks) the total of the score is the difference of kills and
    deaths as doubles give it: the double nearest to kills - deaths, and
    kills - deaths itself while both counters are at most 2^52 in
    magnitude. *)
Theorem X6_total_is_kills_minus_deaths (s : GameClient.t) :
  GameClient.reachable s ->
  GameClient.total (GameClient.score s)
  = Double.sub_Z (GameClient.kills (GameClient.score s))
                 (GameClient.deaths (GameClient.score s)) /\
  ((Z.abs (GameClient.kills (GameClient.score s)) <= 2 ^ 52)%Z ->
   (Z.abs (GameClient.deaths (GameClient.score s)) <= 2 ^ 52)%Z ->
   GameClient.total (GameClient.score s)
   = (GameClient.kills (GameClient.score s)
      - GameClient.deaths (GameClient.score s))%Z).
Proof.
  intros Hr. pose proof (reachable_total_updated s Hr) as Ht.
  split; [exact Ht|]. intros Hk Hd. rewrite Ht. apply sub_Z_exact. lia.
Qed.

Lemma X6_total_is_kills_minus_deaths_witness :
  GameClient.total (GameClient.score after_fallback)
  = (GameClient.kills (GameClient.score after_fallback)
     - GameClient.deaths (GameClient.score after_fallback))%Z.
Proof.
  apply (proj2 (X6_total_is_kills_minus_deaths _ after_fallback_reachable)).
  - vm_compute. discriminate.
  - vm_compute. discriminate.
Defined.

(** X7. The stored record always gives back the current score: in every
    reachable state whose counters are at most 2^52 in magnitude,
    constructing a new client from the stored record (a reload of the
    page, in any window size) succeeds and starts with the same score. *)
Theorem X7_reload_restores_score (s : GameClient.t) :
  GameClient.reachable s ->
  (Z.abs (GameClient.kills (GameClient.score s)) <= 2 ^ 52)%Z ->
  (Z.abs (GameClient.deaths (GameClient.score s)) <= 2 ^ 52)%Z ->
  forall w h,
  exists s',
    GameClient.construct (GameClient.localStorage (GameClient.host s)) w h
    = Returns s' /\
    GameClient.score s' = GameClient.score s.
Proof.
  induction 1 as [stored w0 h0 s Hc|e s Hr IH]; intros Hk Hd w h.
  - destruct (construct_ledger _ _ _ _ Hc) as (-> & _ & Hre). apply Hre.
  - destruct (step_ledger e s) as [[Hsc Hls]|[Hls Htot]].
    + rewrite Hsc, Hls in *. apply IH; assumption.
    + unfold GameClient.construct.
      rewrite (loadScore_stringify_score (GameClient.score (GameClient.step e s)))
        by (assumption || (rewrite Hls; reflexivity)).
      eexists. split; [reflexivity|].
      rewrite score_connectToServer. cbn.
      unfold total_updated in Htot. rewrite sub_Z_exact in Htot by lia.
      rewrite <- Htot.
      destruct (GameClient.score (GameClient.step e s)). reflexivity.
Qed.

Lemma X7_reload_restores_score_witness :
  exists s',
    GameClient.construct (GameClient.localStorage (GameClient.host after_fallback))
      1024 768 = Returns s' /\
    GameClient.score s' = GameClient.score after_fallback.
Proof.
  apply (X7_reload_restores_score after_fallback after_fallback_reachable).
  - vm_compute. discriminate.
  - vm_compute. discriminate.
Defined.

(** *** Screen and world coordinates *)

(** In general the two conversions do not undo each other: with the
    viewport offset 600.3 the world coordinate 0.1 comes back as another
    double. *)
Example round_trip_is_not_exact :
  let x := Double.round (1 # 10) in
  let screen := GameClient.worldToScreen x 0 joined_off_grid in
  ~ (fst (GameClient.screenToWorld (fst screen) (snd screen) joined_off_grid) == x)%Q.
Proof. vm_compute. discriminate. Qed.

(** X8. Where the viewport offset and the coordinates of a point are
    integers of magnitude at most 2^52, [screenToWorld] and
    [worldToScreen] are exact and undo each other; and a click on the
    exact screen position of another player's avatar that stands on such
    integer coordinates finds a target, wherever the viewport is.  (Off
    the integers the conversions round and the round trip may miss the
    point, as [round_trip_is_not_exact] shows.) *)
Theorem X8_screen_world_round_trip (s : GameClient.t) :
  integral (2 ^ 52) (GameClient.viewportOffsetX s) ->
  integral (2 ^ 52) (GameClient.viewportOffsetY s) ->
  (forall x y,
      integral (2 ^ 52) x -> integral (2 ^ 52) y ->
      (fst (GameClient.screenToWorld
              (fst (GameClient.worldToScreen x y s))
              (snd (GameClient.worldToScreen x y s)) s) == x)%Q /\
      (snd (GameClient.screenToWorld
              (fst (GameClient.worldToScreen x y s))
              (snd (GameClient.worldToScreen x y s)) s) == y)%Q /\
      (fst (GameClient.worldToScreen
              (fst (GameClient.screenToWorld x y s))
              (snd (GameClient.screenToWorld x y s)) s) == x)%Q /\
      (snd (GameClient.worldToScreen
              (fst (GameClient.screenToWorld x y s))
              (snd (GameClient.screenToWorld x y s)) s) == y)%Q) /\
  (forall a,
      In a (GameClient.values s) -> other_player s a ->
      integral (2 ^ 52) (Avatar.x a) -> integral (2 ^ 52) (Avatar.y a) ->
      let screen := GameClient.worldToScreen (Avatar.x a) (Avatar.y a) s in
      let world := GameClient.screenToWorld (fst screen) (snd screen) s in
      exists target,
        GameClient.findPlayerInRange (fst world) (snd world) s = Some target).
Proof.
  intros (vx & Hvx & Bvx) (vy & Hvy & Bvy).
  assert (forall x zx v zv,
            (x == inject_Z zx)%Q -> (Z.abs zx <= 2 ^ 52)%Z ->
            (v == inject_Z zv)%Q -> (Z.abs zv <= 2 ^ 52)%Z ->
            Double.add (Double.sub x v) v = inject_Z zx /\
            Double.sub (Double.add x v) v = inject_Z zx) as Hrt.
  { intros x zx v zv Hx Bx Hv Bv. split.
    - rewrite (sub_integers x v zx zv Hx Hv) by lia.
      rewrite (add_integers _ v (zx - zv) zv (Qeq_refl _) Hv) by lia.
      f_equal. lia.
    - rewrite (add_integers x v zx zv Hx Hv) by lia.
      rewrite (sub_integers _ v (zx + zv) zv (Qeq_refl _) Hv) by lia.
      f_equal. lia. }
  split.
  - intros x y (zx & Hx & Bx) (zy & Hy & By).
    unfold GameClient.screenToWorld, GameClient.worldToScreen. cbn [fst snd].
    destruct (Hrt x zx _ vx Hx Bx Hvx Bvx) as [-> ->].
    destruct (Hrt y zy _ vy Hy By Hvy Bvy) as [-> ->].
    repeat split; symmetry; assumption.
  - intros a Hin Hother (zx & Hx & Bx) (zy & Hy & By). cbv zeta.
    unfold GameClient.screenToWorld, GameClient.worldToScreen. cbn [fst snd].
    rewrite (proj1 (Hrt _ zx _ vx Hx Bx Hvx Bvx)).
    rewrite (proj1 (Hrt _ zy _ vy Hy By Hvy Bvy)).
    pose proof (findPlayerInRange_sound s (inject_Z zx) (inject_Z zy)) as Hs.
    destruct (GameClient.findPlayerInRange _ _ s) as [target|];
      [exists target; reflexivity|].
    exfalso. apply (Hs a Hin Hother).
    unfold GameClient.distance.
    rewrite (sub_integers _ _ zx zx Hx (Qeq_refl _)) by lia.
    rewrite (sub_integers _ _ zy zy Hy (Qeq_refl _)) by lia.
    rewrite !Z.sub_diag. vm_compute. reflexivity.
Qed.

Lemma X8_screen_world_round_trip_witness :
  exists target,
    GameClient.findPlayerInRange
      (fst (GameClient.screenToWorld 440 300 joined_dead))
      (snd (GameClient.screenToWorld 440 300 joined_dead)) joined_dead
    = Some target.
Proof.
  assert (integral (2 ^ 52) (GameClient.viewportOffsetX joined_dead)) as Hvx
    by (exists 600%Z; split; [vm_compute; reflexivity|vm_compute; discriminate]).
  assert (integral (2 ^ 52) (GameClient.viewportOffsetY joined_dead)) as Hvy
    by (exists 700%Z; split; [vm_compute; reflexivity|vm_compute; discriminate]).
  assert (In (avatar_of "2" joined_dead) (GameClient.values joined_dead)) as Hin
    by (vm_compute; right; left; reflexivity).
  assert (other_player joined_dead (avatar_of "2" joined_dead)) as Ho
    by (vm_compute; reflexivity).
  assert (integral (2 ^ 52) (Avatar.x (avatar_of "2" joined_dead))) as Hx
    by (exists 1040%Z; split; [vm_compute; reflexivity|vm_compute; discriminate]).
  assert (integral (2 ^ 52) (Avatar.y (avatar_of "2" joined_dead))) as Hy
    by (exists 1000%Z; split; [vm_compute; reflexivity|vm_compute; discriminate]).
  destruct (proj2 (X8_screen_world_round_trip joined_dead Hvx Hvy)
              (avatar_of "2" joined_dead) Hin Ho Hx Hy) as [target Ht].
  exists target. rewrite <- Ht. vm_compute. reflexivity.
Defined.

(** *** The roster *)

Section Roster.
Import GameClient.
Implicit Types s : GameClient.t.

Lemma map_get_set_eq {A} k (v : A) m : map_get k (map_set k v m) = Some v.
Proof.
  induction m as [|[k' v'] m IH]; cbn.
  - rewrite String.eqb_refl. reflexivity.
  - destruct (String.eqb k' k) eqn:E; cbn; rewrite E; [reflexivity|exact IH].
Qed.

Lemma map_get_set_ne {A} k k' (v : A) m :
  k <> k' -> map_get k' (map_set k v m) = map_get k' m.
Proof.
  intros Hne. induction m as [|[k0 v0] m IH]; cbn.
  - destruct (String.eqb k k') eqn:E; [|reflexivity].
    apply String.eqb_eq in E. contradiction.
  - destruct (String.eqb k0 k) eqn:E; cbn.
    + apply String.eqb_eq in E. subst k0.
      destruct (String.eqb k k') eqn:E'; [|reflexivity].
      apply String.eqb_eq in E'. contradiction.
    + destruct (String.eqb k0 k'); [reflexivity|exact IH].
Qed.

Lemma map_set_keys {A} k (v : A) m :
  map fst (map_set k v m)
  = match map_get k m with
    | Some _ => map fst m
    | None => (map fst m ++ [k])%list
    end.
Proof.
  induction m as [|[k' v'] m IH]; cbn; [reflexivity|].
  destruct (String.eqb k' k) eqn:E; cbn; [reflexivity|].
  rewrite IH. destruct (map_get k m); reflexivity.
Qed.

Lemma map_get_delete_eq {A} k (m : list (string * A)) :
  map_get k (map_delete k m) = None.
Proof.
  induction m as [|[k' v'] m IH]; cbn; [reflexivity|].
  destruct (String.eqb k' k) eqn:E; cbn; rewrite ?E; exact IH.
Qed.

Lemma map_get_delete_ne {A} k k' (m : list (string * A)) :
  k <> k' -> map_get k' (map_delete k m) = map_get k' m.
Proof.
  intros Hne. induction m as [|[k0 v0] m IH]; cbn; [reflexivity|].
  destruct (String.eqb k0 k) eqn:E; cbn.
  - apply String.eqb_eq in E. subst k0.
    destruct (String.eqb k k') eqn:E'; [|exact IH].
    apply String.eqb_eq in E'. contradiction.
  - destruct (String.eqb k0 k'); [reflexivity|exact IH].
Qed.

Lemma map_get_None_keys {A} k (m : list (string * A)) :
  map_get k m = None <-> ~ In k (map fst m).
Proof.
  induction m as [|[k' v'] m IH]; cbn; [tauto|].
  destruct (String.eqb k' k) eqn:E.
  - apply String.eqb_eq in E. split; [discriminate|]. intros H. exfalso. auto.
  - apply String.eqb_neq in E. rewrite IH. tauto.
Qed.

(** [loadAvatarFrames] changes the frames only. *)
Lemma load_images_spec l : forall n,
  map Avatar.img_src (Avatar.load_images n l) = l /\
  map Avatar.img_id (Avatar.load_images n l) = seq n (length l).
Proof.
  unfold Avatar.load_images. induction l as [|x l IH]; intros n;
    [split; reflexivity|].
  cbn. rewrite Nat.add_0_r.
  assert (imap ((fun i src => {| Avatar.img_id := n + i; Avatar.img_src := src |}) ∘ S) l
          = imap (fun i src => {| Avatar.img_id := S n + i; Avatar.img_src := src |}) l)
    as ->.
  { apply imap_ext. intros i y _. cbn. f_equal. lia. }
  destruct (IH (S n)) as [-> ->]. split; reflexivity.
Qed.

(** The images of a new avatar come from the avatar data given: for
    each direction one image per string, in order, and none for a
    direction the data does not have. *)
Lemma new_Avatar_frames p d n :
  loaded_from (Avatar.fd_north (Avatar.ad_frames d))
    (Avatar.north (Avatar.frames (fst (Avatar.new p (Some d) n)))) /\
  loaded_from (Avatar.fd_south (Avatar.ad_frames d))
    (Avatar.south (Avatar.frames (fst (Avatar.new p (Some d) n)))) /\
  loaded_from (Avatar.fd_east (Avatar.ad_frames d))
    (Avatar.east (Avatar.frames (fst (Avatar.new p (Some d) n)))).
Proof.
  unfold Avatar.new, Avatar.loadAvatarFrames, loaded_from.
  destruct (Avatar.fd_north (Avatar.ad_frames d)) as [ln|],
    (Avatar.fd_south (Avatar.ad_frames d)) as [ls|],
    (Avatar.fd_east (Avatar.ad_frames d)) as [le|]; cbn;
    repeat split; apply load_images_spec.
Qed.

Lemma loadAvatarFrames_fields fd n a :
  exists f, fst (Avatar.loadAvatarFrames fd n a) = Avatar.with_frames f a.
Proof.
  unfold Avatar.loadAvatarFrames.
  destruct (Avatar.fd_north fd), (Avatar.fd_south fd), (Avatar.fd_east fd);
    eexists; reflexivity.
Qed.

Lemma new_Avatar_fields p ad n :
  shows p (fst (Avatar.new p ad n)) /\
  Avatar.isDead (fst (Avatar.new p ad n)) = false /\
  Avatar.id (fst (Avatar.new p ad n)) = Avatar.pd_id p /\
  Avatar.username (fst (Avatar.new p ad n)) = Avatar.pd_username p /\
  Avatar.oid (fst (Avatar.new p ad n)) = n.
Proof.
  unfold Avatar.new. destruct ad as [d|]; [|repeat split].
  match goal with
  | |- context [Avatar.loadAvatarFrames ?fd ?m ?a] =>
      destruct (loadAvatarFrames_fields fd m a) as [f ->]
  end.
  repeat split.
Qed.

(** One round of the roster loop: the player is stored under its key and
    shows its snapshot; a player not known before is alive. *)
Lemma joinPlayer_players s k p :
  exists a,
    players (joinPlayer s (k, p)) = map_set k a (players s) /\
    shows p a /\
    (map_get k (players s) = None ->
     Avatar.isDead a = false /\ Avatar.id a = Avatar.pd_id p) /\
    (forall old, map_get k (players s) = Some old ->
                 Avatar.isDead a = Avatar.isDead old /\
                 Avatar.oid a = Avatar.oid old).
Proof.
  unfold joinPlayer. destruct (map_get k (players s)) as [old|] eqn:E.
  - destruct (avatars s !! Avatar.pd_avatar p) as [d|].
    + destruct (loadAvatarFrames_fields (Avatar.ad_frames d)
                  (next_object (host s)) (Avatar.update p old)) as [f Hf].
      destruct (Avatar.loadAvatarFrames _ _ _) as [a n]. cbn in Hf. subst a.
      eexists. split; [reflexivity|]. split; [repeat split|].
      split; [discriminate|]. intros ? [= <-]. split; reflexivity.
    + eexists. split; [reflexivity|]. split; [repeat split|].
      split; [discriminate|]. intros ? [= <-]. split; reflexivity.
  - unfold new_Avatar.
    pose proof (new_Avatar_fields p (avatars s !! Avatar.pd_avatar p)
                  (next_object (host s))) as (Hs & Hd & Hi & _).
    destruct (Avatar.new _ _ _) as [a n]. cbn in *.
    exists a. split; [reflexivity|]. split; [exact Hs|].
    split; [auto|discriminate].
Qed.

Lemma fold_joinPlayer_other pls : forall s k,
  ~ In k (map fst pls) ->
  map_get k (players (fold_left joinPlayer pls s)) = map_get k (players s).
Proof.
  induction pls as [|[k0 p0] pls IH]; intros s k Hk; [reflexivity|].
  cbn in Hk. cbn [fold_left]. rewrite IH by tauto.
  destruct (joinPlayer_players s k0 p0) as (a & -> & _).
  apply map_get_set_ne. tauto.
Qed.

Lemma fold_joinPlayer_in pls : forall s,
  List.NoDup (map fst pls) ->
  forall k p, In (k, p) pls ->
  exists a,
    map_get k (players (fold_left joinPlayer pls s)) = Some a /\
    shows p a /\
    (map_get k (players s) = None ->
     Avatar.isDead a = false /\ Avatar.id a = Avatar.pd_id p).
Proof.
  induction pls as [|[k0 p0] pls IH]; intros s Hnd k p Hin; [destruct Hin|].
  cbn in Hnd. apply NoDup_cons_iff in Hnd as [Hk0 Hnd]. cbn [fold_left].
  destruct Hin as [[= -> ->]|Hin].
  - rewrite fold_joinPlayer_other by exact Hk0.
    destruct (joinPlayer_players s k p) as (a & -> & Hs & Hnew & _).
    exists a. split; [apply map_get_set_eq|]. split; [exact Hs|exact Hnew].
  - destruct (IH (joinPlayer s (k0, p0)) Hnd k p Hin) as (a & Ha & Hs & Hnew).
    exists a. split; [exact Ha|]. split; [exact Hs|].
    intros Hnone. apply Hnew.
    destruct (joinPlayer_players s k0 p0) as (a0 & -> & _).
    rewrite map_get_set_ne; [exact Hnone|].
    intros ->. apply Hk0. apply (in_map fst) in Hin. exact Hin.
Qed.

Lemma players_fold_avatars (avs : list (string * Avatar.AvatarData)) : forall s,
  players (fold_left (fun s e => set_avatars (<[fst e := snd e]> (avatars s)) s) avs s)
  = players s /\
  myPlayerId (fold_left (fun s e => set_avatars (<[fst e := snd e]> (avatars s)) s) avs s)
  = myPlayerId s.
Proof.
  induction avs as [|e avs IH]; intros s; [split; reflexivity|].
  cbn [fold_left]. destruct (IH (set_avatars (<[fst e := snd e]> (avatars s)) s))
    as [-> ->]. split; reflexivity.
Qed.

Lemma myPlayerId_fold_joinPlayer pls : forall s,
  myPlayerId (fold_left joinPlayer pls s) = myPlayerId s.
Proof.
  induction pls as [|e pls IH]; intros s; [reflexivity|].
  cbn [fold_left]. rewrite IH. unfold joinPlayer, new_Avatar. branches.
Qed.

Lemma centerViewportOnMyAvatar_players s :
  players (centerViewportOnMyAvatar s) = players s /\
  myPlayerId (centerViewportOnMyAvatar s) = myPlayerId s /\
  (myAvatar s <> None -> viewportInitialized (centerViewportOnMyAvatar s) = true).
Proof.
  unfold centerViewportOnMyAvatar.
  destruct (myAvatar s) as [me|]; [|repeat split; congruence].
  destruct (viewportInitialized s) eqn:E; [repeat split; auto|].
  destruct (Qle_bool _ _ && Qle_bool _ _); repeat split.
Qed.

End Roster.

(** X9. A join result that reports failure changes nothing.  One that
    reports success records the local identity, and with a roster whose
    keys are distinct, afterwards every listed player has an avatar under
    its key that shows its snapshot (a player not known before is alive
    and carries the snapshot's id); avatars of players the roster does not
    list are kept as they were; and if the roster lists the local player
    the viewport guard is set. *)
Theorem X9_join_populates_roster
    (s : GameClient.t) (playerId : string)
    (avs : option (list (string * Avatar.AvatarData)))
    (pls : list (string * Avatar.PlayerData)) :
  GameClient.handleJoinGame false playerId avs (Some pls) s = s /\
  let s' := GameClient.handleJoinGame true playerId avs (Some pls) s in
  GameClient.myPlayerId s' = Some playerId /\
  (List.NoDup (map fst pls) ->
   forall k p, In (k, p) pls ->
     exists a,
       GameClient.map_get k (GameClient.players s') = Some a /\
       shows p a /\
       (GameClient.map_get k (GameClient.players s) = None ->
        Avatar.isDead a = false /\ Avatar.id a = Avatar.pd_id p)) /\
  (forall k, ~ In k (map fst pls) ->
     GameClient.map_get k (GameClient.players s')
     = GameClient.map_get k (GameClient.players s)) /\
  (List.NoDup (map fst pls) -> In playerId (map fst pls) ->
   GameClient.viewportInitialized s' = true).
Proof.
  split; [reflexivity|]. cbv zeta. unfold GameClient.handleJoinGame. cbv zeta.
  set (s1 := match avs with
             | Some entries =>
                 fold_left
                   (fun s e => GameClient.set_avatars
                                 (<[fst e := snd e]> (GameClient.avatars s)) s)
                   entries (GameClient.set_myPlayerId (Some playerId) s)
             | None => GameClient.set_myPlayerId (Some playerId) s
             end).
  assert (GameClient.players s1 = GameClient.players s
          /\ GameClient.myPlayerId s1 = Some playerId) as [Hp1 Hm1].
  { unfold s1. destruct avs as [avs|]; [|split; reflexivity].
    destruct (players_fold_avatars avs
                (GameClient.set_myPlayerId (Some playerId) s)) as [-> ->].
    split; reflexivity. }
  destruct (centerViewportOnMyAvatar_players
              (fold_left GameClient.joinPlayer pls s1)) as (Hpc & Hmc & Hvc).
  rewrite Hpc, Hmc, myPlayerId_fold_joinPlayer.
  split; [exact Hm1|]. split; [|split].
  - intros Hnd k p Hin. rewrite <- Hp1. apply fold_joinPlayer_in; assumption.
  - intros k Hk. rewrite <- Hp1. apply fold_joinPlayer_other. exact Hk.
  - intros Hnd Hin. apply Hvc. unfold GameClient.myAvatar.
    rewrite myPlayerId_fold_joinPlayer, Hm1.
    apply in_map_iff in Hin as ([k p] & Hk & Hin). cbn in Hk. subst k.
    destruct (fold_joinPlayer_in pls s1 Hnd playerId p Hin) as (a & -> & _).
    discriminate.
Qed.

Lemma X9_join_populates_roster_witness :
  exists a,
    GameClient.map_get "2" (GameClient.players joined) = Some a /\
    shows (snapshot "2" 1040 1000) a.
Proof.
  destruct (proj1 (proj2 (proj2 (X9_join_populates_roster
                                  (GameClient.step GameClient.SocketOpen started) "1" None
                                  [("1", snapshot "1" 1000 1000);
                                   ("2", snapshot "2" 1040 1000)])))
              ltac:(repeat constructor; cbn; intuition discriminate)
              "2" (snapshot "2" 1040 1000) ltac:(right; left; reflexivity))
    as (a & Ha & Hs & _).
  exists a. split; [exact Ha|exact Hs].
Defined.

(** *** Movement updates *)

Section Moves.
Import GameClient.
Implicit Types s : GameClient.t.

Lemma map_set_same_identity k v a m :
  map_get k m = Some a ->
  identity_of v = identity_of a ->
  map fst (map_set k v m) = map fst m /\
  map (fun e => identity_of (snd e)) (map_set k v m)
  = map (fun e => identity_of (snd e)) m.
Proof.
  induction m as [|[k' v'] m IH]; cbn; [discriminate|].
  destruct (String.eqb k' k) eqn:E; cbn.
  - intros [= ->] Hv. rewrite Hv. split; reflexivity.
  - intros Hg Hv. destruct (IH Hg Hv) as [-> ->]. split; reflexivity.
Qed.

(** One round of the loop of [handlePlayersMoved]. *)
Lemma movePlayer_players s k p :
  players (movePlayer s (k, p))
  = match map_get k (players s) with
    | Some a => map_set k (Avatar.update p a) (players s)
    | None => players s
    end /\
  myPlayerId (movePlayer s (k, p)) = myPlayerId s /\
  viewportOffsetX (movePlayer s (k, p)) = viewportOffsetX s /\
  viewportOffsetY (movePlayer s (k, p)) = viewportOffsetY s /\
  host (movePlayer s (k, p)) = host s.
Proof. unfold movePlayer. destruct (map_get k (players s)); repeat split. Qed.

Lemma fold_movePlayer_frame entries : forall s,
  map fst (players (fold_left movePlayer entries s)) = map fst (players s) /\
  map (fun e => identity_of (snd e)) (players (fold_left movePlayer entries s))
  = map (fun e => identity_of (snd e)) (players s) /\
  myPlayerId (fold_left movePlayer entries s) = myPlayerId s /\
  viewportOffsetX (fold_left movePlayer entries s) = viewportOffsetX s /\
  viewportOffsetY (fold_left movePlayer entries s) = viewportOffsetY s /\
  host (fold_left movePlayer entries s) = host s.
Proof.
  induction entries as [|[k p] entries IH]; intros s; [repeat split|].
  cbn [fold_left].
  destruct (IH (movePlayer s (k, p))) as (-> & -> & -> & -> & -> & ->).
  destruct (movePlayer_players s k p) as (-> & -> & -> & -> & ->).
  destruct (map_get k (players s)) as [a|] eqn:E; [|repeat split].
  destruct (map_set_same_identity k (Avatar.update p a) a (players s) E eq_refl)
    as [-> ->].
  repeat split.
Qed.

Lemma fold_movePlayer_other entries : forall s k,
  ~ In k (map fst entries) ->
  map_get k (players (fold_left movePlayer entries s)) = map_get k (players s).
Proof.
  induction entries as [|[k0 p0] entries IH]; intros s k Hk; [reflexivity|].
  cbn in Hk. cbn [fold_left]. rewrite IH by tauto.
  destruct (movePlayer_players s k0 p0) as (-> & _).
  destruct (map_get k0 (players s)); [|reflexivity].
  apply map_get_set_ne. tauto.
Qed.

Lemma fold_movePlayer_in entries : forall s,
  List.NoDup (map fst entries) ->
  forall k p a, In (k, p) entries ->
  map_get k (players s) = Some a ->
  map_get k (players (fold_left movePlayer entries s)) = Some (Avatar.update p a).
Proof.
  induction entries as [|[k0 p0] entries IH]; intros s Hnd k p a Hin Ha;
    [destruct Hin|].
  cbn in Hnd. apply NoDup_cons_iff in Hnd as [Hk0 Hnd]. cbn [fold_left].
  destruct Hin as [[= -> ->]|Hin].
  - rewrite fold_movePlayer_other by exact Hk0.
    destruct (movePlayer_players s k p) as (-> & _). rewrite Ha.
    apply map_get_set_eq.
  - apply (IH _ Hnd k p a Hin).
    destruct (movePlayer_players s k0 p0) as (-> & _).
    destruct (map_get k0 (players s)); [|exact Ha].
    rewrite map_get_set_ne; [exact Ha|].
    intros ->. apply Hk0. apply (in_map fst) in Hin. exact Hin.
Qed.

End Moves.

(** X10. A movement update never adds, removes or reorders players and
    never changes an avatar's object, id, name, avatar type, death flag or
    images; snapshots of unknown players are ignored, players the update
    does not list are untouched, and with distinct keys every listed known
    player shows its snapshot afterwards.  The local identity, the
    viewport offset and everything of the host are left alone: the
    viewport does not follow the local player. *)
Theorem X10_moves_update_in_place
    (s : GameClient.t) (entries : list (string * Avatar.PlayerData)) :
  let s' := GameClient.step
              (GameClient.SocketMessage (GameClient.players_moved (Some entries))) s in
  map fst (GameClient.players s') = map fst (GameClient.players s) /\
  map identity_of (GameClient.values s') = map identity_of (GameClient.values s) /\
  (forall k, ~ In k (map fst entries) ->
     GameClient.map_get k (GameClient.players s')
     = GameClient.map_get k (GameClient.players s)) /\
  (List.NoDup (map fst entries) ->
   forall k p a, In (k, p) entries ->
     GameClient.map_get k (GameClient.players s) = Some a ->
     GameClient.map_get k (GameClient.players s') = Some (Avatar.update p a)
     /\ shows p (Avatar.update p a)) /\
  GameClient.myPlayerId s' = GameClient.myPlayerId s /\
  GameClient.viewportOffsetX s' = GameClient.viewportOffsetX s /\
  GameClient.viewportOffsetY s' = GameClient.viewportOffsetY s /\
  GameClient.host s' = GameClient.host s.
Proof.
  cbv zeta. unfold GameClient.step, GameClient.handleMessage,
    GameClient.handlePlayersMoved, GameClient.values.
  destruct (fold_movePlayer_frame entries s) as (Hk & Hi & Hm & Hx & Hy & Hh).
  split; [exact Hk|]. split.
  { rewrite !map_map. exact Hi. }
  split; [intros k Hn; apply fold_movePlayer_other, Hn|].
  split; [|repeat split; assumption].
  intros Hnd k p a Hin Ha. split; [|repeat split].
  apply fold_movePlayer_in; assumption.
Qed.

Lemma X10_moves_update_in_place_witness :
  GameClient.map_get "2"
    (GameClient.players
       (GameClient.step
          (GameClient.SocketMessage
             (GameClient.players_moved
                (Some [("2", snapshot "2" 900 950); ("9", snapshot "9" 1 1)])))
          joined))
  = Some (Avatar.update (snapshot "2" 900 950) (avatar_of "2" joined)).
Proof.
  apply (proj1 (proj2 (proj2 (proj2
           (X10_moves_update_in_place joined
              [("2", snapshot "2" 900 950); ("9", snapshot "9" 1 1)]))))).
  - repeat constructor; cbn; intuition discriminate.
  - left. reflexivity.
  - reflexivity.
Defined.

(** *** Players joining and leaving *)

Lemma map_delete_set_fresh {A} k (v : A) m :
  GameClient.map_get k m = None ->
  GameClient.map_delete k (GameClient.map_set k v m) = m.
Proof.
  induction m as [|[k' v'] m IH]; cbn.
  - rewrite String.eqb_refl. reflexivity.
  - destruct (String.eqb k' k) eqn:E; [discriminate|]. cbn. rewrite E.
    intros H. rewrite (IH H). reflexivity.
Qed.

(** X11. A player_joined message always builds a new avatar object, alive
    and showing the snapshot, and stores it under the snapshot's id: a
    known id keeps its place in the iteration order and its old avatar is
    replaced, a new id is appended.  The images come from the avatar data
    of the message itself (one image per string of each direction, in
    order), which is also put into the catalog; without it the new
    avatar has no frames.  Other players are untouched.  A
    player_left message removes the entry of that id and nothing else, so
    a player that joins and leaves again leaves the map as it was. *)
Theorem X11_join_and_leave
    (s : GameClient.t) (p : Avatar.PlayerData) (ad : option Avatar.AvatarData) :
  let s' := GameClient.step
              (GameClient.SocketMessage (GameClient.player_joined p ad)) s in
  let gone := GameClient.step
                (GameClient.SocketMessage (GameClient.player_left (Avatar.pd_id p))) s' in
  (exists a,
      GameClient.map_get (Avatar.pd_id p) (GameClient.players s') = Some a /\
      shows p a /\
      Avatar.isDead a = false /\
      Avatar.id a = Avatar.pd_id p /\
      Avatar.oid a = GameClient.next_object (GameClient.host s) /\
      (ad = None ->
       Avatar.frames a
       = {| Avatar.north := []; Avatar.south := []; Avatar.east := [] |}) /\
      (forall d, ad = Some d ->
         loaded_from (Avatar.fd_north (Avatar.ad_frames d))
           (Avatar.north (Avatar.frames a)) /\
         loaded_from (Avatar.fd_south (Avatar.ad_frames d))
           (Avatar.south (Avatar.frames a)) /\
         loaded_from (Avatar.fd_east (Avatar.ad_frames d))
           (Avatar.east (Avatar.frames a)))) /\
  map fst (GameClient.players s')
  = match GameClient.map_get (Avatar.pd_id p) (GameClient.players s) with
    | Some _ => map fst (GameClient.players s)
    | None => (map fst (GameClient.players s) ++ [Avatar.pd_id p])%list
    end /\
  (forall d, ad = Some d -> GameClient.avatars s' !! Avatar.ad_name d = Some d) /\
  (forall k, k <> Avatar.pd_id p ->
     GameClient.map_get k (GameClient.players s')
     = GameClient.map_get k (GameClient.players s) /\
     GameClient.map_get k (GameClient.players gone)
     = GameClient.map_get k (GameClient.players s)) /\
  GameClient.map_get (Avatar.pd_id p) (GameClient.players gone) = None /\
  (GameClient.map_get (Avatar.pd_id p) (GameClient.players s) = None ->
   GameClient.players gone = GameClient.players s).
Proof.
  cbv zeta. unfold GameClient.step, GameClient.handleMessage,
    GameClient.handlePlayerLeft, GameClient.handlePlayerJoined,
    GameClient.new_Avatar.
  set (s1 := match ad with
             | Some d => GameClient.set_avatars
                           (<[Avatar.ad_name d := d]> (GameClient.avatars s)) s
             | None => s
             end).
  assert (GameClient.players s1 = GameClient.players s
          /\ GameClient.next_object (GameClient.host s1)
             = GameClient.next_object (GameClient.host s)
          /\ (forall d, ad = Some d ->
                GameClient.avatars s1 !! Avatar.ad_name d = Some d))
    as (Hp1 & Hn1 & Hc1).
  { unfold s1. destruct ad as [d|]; cbn; repeat split; try discriminate.
    intros d' [= <-]. apply lookup_insert_eq. }
  pose proof (new_Avatar_fields p ad (GameClient.next_object (GameClient.host s1)))
    as (Hs & Hd & Hi & _ & Ho).
  assert (ad = None ->
          Avatar.frames (fst (Avatar.new p ad
                                (GameClient.next_object (GameClient.host s1))))
          = {| Avatar.north := []; Avatar.south := []; Avatar.east := [] |}) as Hf.
  { intros ->. reflexivity. }
  assert (forall d, ad = Some d ->
            loaded_from (Avatar.fd_north (Avatar.ad_frames d))
              (Avatar.north
                 (Avatar.frames
                    (fst (Avatar.new p ad
                            (GameClient.next_object (GameClient.host s1)))))) /\
            loaded_from (Avatar.fd_south (Avatar.ad_frames d))
              (Avatar.south
                 (Avatar.frames
                    (fst (Avatar.new p ad
                            (GameClient.next_object (GameClient.host s1)))))) /\
            loaded_from (Avatar.fd_east (Avatar.ad_frames d))
              (Avatar.east
                 (Avatar.frames
                    (fst (Avatar.new p ad
                            (GameClient.next_object (GameClient.host s1))))))) as Hl.
  { intros d ->. apply new_Avatar_frames. }
  destruct (Avatar.new p ad (GameClient.next_object (GameClient.host s1)))
    as [a n]. cbn in *. rewrite Hp1.
  split; [|split; [|split; [|split; [|split]]]].
  - exists a. rewrite map_get_set_eq, <- Hn1. repeat split; try apply Hs; auto;
      apply (Hl d); assumption.
  - apply map_set_keys.
  - exact Hc1.
  - intros k Hk. rewrite map_get_delete_ne by congruence.
    rewrite map_get_set_ne by congruence. split; reflexivity.
  - apply map_get_delete_eq.
  - apply map_delete_set_fresh.
Qed.

Lemma X11_join_and_leave_witness :
  GameClient.players
    (GameClient.run
       [GameClient.SocketMessage
          (GameClient.player_joined (snapshot "5" 3 4) (Some knight));
        GameClient.SocketMessage (GameClient.player_left "5")] joined)
  = GameClient.players joined /\
  exists a,
    GameClient.map_get "5"
      (GameClient.players
         (GameClient.step
            (GameClient.SocketMessage
               (GameClient.player_joined (snapshot "5" 3 4) (Some knight))) joined))
    = Some a /\
    map Avatar.img_src (Avatar.east (Avatar.frames a)) = ["e0"; "e1"; "e2"].
Proof.
  pose proof (X11_join_and_leave joined (snapshot "5" 3 4) (Some knight)) as H.
  cbv zeta in H.
  destruct H as ((a & Ha & _ & _ & _ & _ & _ & Hl) & _ & _ & _ & _ & Hgone).
  split; [apply Hgone; reflexivity|].
  exists a. split; [exact Ha|].
  exact (proj2 (proj2 (Hl knight eq_refl))).
Defined.

(** *** Death and respawn *)

(** X12. A player_died or player_respawned message for an id that has no
    avatar changes nothing, so a death of the local player is counted
    only while its avatar is in the map.  For a known player, player_died
    sets the death flag and, exactly when the id is the local one, adds
    one death, recomputes the total and stores the score (the counters
    being integers below 2^52 in magnitude, where doubles count by one);
    it does so for every such message, also when the avatar is already
    dead.  A player_respawned message clears the flag and moves the
    avatar to the given position, leaving the score alone. *)
Theorem X12_death_and_respawn (s : GameClient.t) (k : string) (x y : Q) :
  let died := GameClient.step (GameClient.SocketMessage (GameClient.player_died k)) in
  let respawned :=
    GameClient.step (GameClient.SocketMessage (GameClient.player_respawned k x y)) in
  (GameClient.map_get k (GameClient.players s) = None ->
   died s = s /\ respawned s = s) /\
  (forall a,
      GameClient.map_get k (GameClient.players s) = Some a ->
      GameClient.map_get k (GameClient.players (died s))
      = Some (Avatar.with_isDead true a) /\
      GameClient.map_get k (GameClient.players (respawned (died s)))
      = Some (Avatar.with_position x y (Avatar.with_isDead false a)) /\
      GameClient.score (respawned (died s)) = GameClient.score (died s) /\
      (GameClient.is_myPlayerId s k = false ->
       GameClient.score (died s) = GameClient.score s) /\
      (GameClient.is_myPlayerId s k = true ->
       counters_below (2 ^ 52) s ->
       GameClient.score (died s)
       = {| GameClient.kills := GameClient.kills (GameClient.score s);
            GameClient.deaths := GameClient.deaths (GameClient.score s) + 1;
            GameClient.total := GameClient.kills (GameClient.score s)
                                - (GameClient.deaths (GameClient.score s) + 1) |} /\
       GameClient.localStorage (GameClient.host (died s))
       = Some (GameClient.stringify_score (GameClient.score (died s))) /\
       GameClient.deaths (GameClient.score (died (died s)))
       = (GameClient.deaths (GameClient.score s) + 2)%Z)).
Proof.
  cbv zeta. unfold GameClient.step, GameClient.handleMessage. split.
  - intros Hn. unfold GameClient.handlePlayerDied, GameClient.handlePlayerRespawned.
    rewrite Hn. split; reflexivity.
  - intros a Ha.
    assert (forall s1 a1,
              GameClient.map_get k (GameClient.players s1) = Some a1 ->
              GameClient.map_get k (GameClient.players (GameClient.handlePlayerDied k s1))
              = Some (Avatar.with_isDead true a1)
              /\ GameClient.is_myPlayerId (GameClient.handlePlayerDied k s1) k
                 = GameClient.is_myPlayerId s1 k
              /\ GameClient.score (GameClient.handlePlayerDied k s1)
                 = if GameClient.is_myPlayerId s1 k
                   then GameClient.score (GameClient.addDeath s1)
                   else GameClient.score s1) as Hdied.
    { intros s1 a1 H1. unfold GameClient.handlePlayerDied. rewrite H1. cbv zeta.
      change (GameClient.is_myPlayerId
                (GameClient.set_players
                   (GameClient.map_set k (Avatar.with_isDead true a1)
                      (GameClient.players s1)) s1) k)
        with (GameClient.is_myPlayerId s1 k).
      destruct (GameClient.is_myPlayerId s1 k) eqn:E; cbn;
        rewrite map_get_set_eq; repeat split; exact E. }
    destruct (Hdied s a Ha) as (Hd1 & Hme1 & Hsc1).
    split; [exact Hd1|]. split; [|split; [|split]].
    + unfold GameClient.handlePlayerRespawned. rewrite Hd1. cbn.
      apply map_get_set_eq.
    + unfold GameClient.handlePlayerRespawned. rewrite Hd1. reflexivity.
    + intros E. rewrite Hsc1, E. reflexivity.
    + intros E Hb. rewrite Hsc1, E.
      pose proof (addDeath_score s Hb) as Es.
      split; [exact Es|]. split.
      * unfold GameClient.handlePlayerDied. rewrite Ha. cbv zeta.
        change (GameClient.is_myPlayerId
                  (GameClient.set_players
                     (GameClient.map_set k (Avatar.with_isDead true a)
                        (GameClient.players s)) s) k)
          with (GameClient.is_myPlayerId s k).
        rewrite E. reflexivity.
      * destruct (Hdied _ _ Hd1) as (_ & _ & ->). rewrite Hme1, E.
        destruct Hb as [Hk Hd].
        unfold GameClient.addDeath at 1, GameClient.updateTotalScore. cbn.
        rewrite Hsc1, E, Es. cbn. rewrite add_Z_exact by lia. lia.
Qed.

Lemma X12_death_and_respawn_witness :
  GameClient.deaths
    (GameClient.score
       (GameClient.step (GameClient.SocketMessage (GameClient.player_died "1")) joined))
  = 1%Z.
Proof.
  destruct (proj2 (X12_death_and_respawn joined "1" 0 0) (avatar_of "1" joined)
              eq_refl) as (_ & _ & _ & _ & H).
  assert (counters_below (2 ^ 52) joined) as Hb by (split; reflexivity).
  destruct (H eq_refl Hb) as (-> & _). reflexivity.
Defined.

(** *** Attack results *)

(** X13. An attack result that reports failure changes nothing.  One that
    reports success adds exactly one kill whether or not it carries the
    kill flag (the kill counter being an integer below 2^53 in magnitude,
    where doubles count by one), and stores the score; with the flag the
    roster is left to the server's player_died message, without it the
    target, if known, is marked dead at once and a respawn timer is
    scheduled for its avatar. *)
Theorem X13_attack_results (s : GameClient.t) (targetId : string) :
  let result success kill :=
    GameClient.step
      (GameClient.SocketMessage (GameClient.attack_result success targetId kill)) s in
  (forall kill, result false kill = s) /\
  (forall kill,
      ((Z.abs (GameClient.kills (GameClient.score s)) < 2 ^ 53)%Z ->
       GameClient.kills (GameClient.score (result true kill))
       = (GameClient.kills (GameClient.score s) + 1)%Z) /\
      GameClient.deaths (GameClient.score (result true kill))
      = GameClient.deaths (GameClient.score s) /\
      GameClient.localStorage (GameClient.host (result true kill))
      = Some (GameClient.stringify_score (GameClient.score (result true kill)))) /\
  (GameClient.players (result true true) = GameClient.players s /\
   GameClient.timers (GameClient.host (result true true))
   = GameClient.timers (GameClient.host s)) /\
  (forall a,
      GameClient.map_get targetId (GameClient.players s) = Some a ->
      GameClient.map_get targetId (GameClient.players (result true false))
      = Some (Avatar.with_isDead true a) /\
      GameClient.timers (GameClient.host (result true false))
      = (GameClient.timers (GameClient.host s)
         ++ [GameClient.SimulatedRespawn (Avatar.oid a)])%list) /\
  (GameClient.map_get targetId (GameClient.players s) = None ->
   GameClient.players (result true false) = GameClient.players s /\
   GameClient.timers (GameClient.host (result true false))
   = GameClient.timers (GameClient.host s)).
Proof.
  cbv zeta. unfold GameClient.step, GameClient.handleMessage,
    GameClient.handleAttack, GameClient.simulatePlayerDeath.
  split; [reflexivity|]. split; [|split; [split; reflexivity|split]].
  - intros [|]; cbn.
    + split; [intros Hk; apply add_Z_exact; lia|]. split; reflexivity.
    + destruct (GameClient.map_get targetId (GameClient.players s)); cbn;
        (split; [intros Hk; apply add_Z_exact; lia|]); split; reflexivity.
  - intros a Ha. cbn. rewrite Ha. cbn. rewrite map_get_set_eq.
    split; reflexivity.
  - intros Hn. cbn. rewrite Hn. split; reflexivity.
Qed.

Lemma X13_attack_results_witness :
  GameClient.map_get "2"
    (GameClient.players
       (GameClient.step
          (GameClient.SocketMessage (GameClient.attack_result true "2" false)) joined))
  = Some (Avatar.with_isDead true (avatar_of "2" joined)) /\
  GameClient.kills
    (GameClient.score
       (GameClient.step
          (GameClient.SocketMessage (GameClient.attack_result true "2" false)) joined))
  = (GameClient.kills (GameClient.score joined) + 1)%Z.
Proof.
  split.
  - apply (proj1 (proj2 (proj2 (proj2 (X13_attack_results joined "2"))))
             (avatar_of "2" joined) eq_refl).
  - apply (proj1 (proj1 (proj2 (X13_attack_results joined "2")) false)).
    vm_compute. reflexivity.
Defined.

(** *** The length of a cooldown *)

Lemma run_frames_attackCooldown (k : nat) : forall s,
  (0 <= GameClient.attackCooldown s)%Z ->
  GameClient.attackCooldown
    (GameClient.run (repeat GameClient.AnimationFrame k) s)
  = Z.max 0 (GameClient.attackCooldown s - 16 * Z.of_nat k).
Proof.
  induction k as [|k IH]; intros s H0.
  - cbn. lia.
  - change (GameClient.run (repeat GameClient.AnimationFrame (S k)) s)
      with (GameClient.run (repeat GameClient.AnimationFrame k)
              (GameClient.update s)).
    rewrite IH.
    + rewrite update_attackCooldown by exact H0. lia.
    + rewrite update_attackCooldown by exact H0. lia.
Qed.

(** X14. Frames lower a non-negative cooldown c to max(0, c - 16 k) after k
    of them.  So after an attack, which sets the cooldown to 1000, every
    click is refused (it changes nothing) during the first 62 frames, and
    from the 63rd frame on the cooldown is 0. *)
Theorem X14_cooldown_lasts_63_frames (s : GameClient.t) (k : nat) :
  let s' := GameClient.run (repeat GameClient.AnimationFrame k) s in
  ((0 <= GameClient.attackCooldown s)%Z ->
   GameClient.attackCooldown s'
   = Z.max 0 (GameClient.attackCooldown s - 16 * Z.of_nat k)) /\
  (GameClient.attackCooldown s = GameClient.attackCooldownTime ->
   (k < 63 -> forall clickX clickY,
        GameClient.step (GameClient.Click clickX clickY) s' = s') /\
   (63 <= k -> GameClient.attackCooldown s' = 0%Z)).
Proof.
  cbv zeta. split; [apply run_frames_attackCooldown|].
  intros Hc.
  assert (GameClient.attackCooldown
            (GameClient.run (repeat GameClient.AnimationFrame k) s)
          = Z.max 0 (1000 - 16 * Z.of_nat k)) as Hk.
  { rewrite run_frames_attackCooldown.
    - rewrite Hc. reflexivity.
    - rewrite Hc. unfold GameClient.attackCooldownTime. lia. }
  split.
  - intros Hlt clickX clickY. unfold GameClient.step, GameClient.handleCanvasClick.
    destruct (negb (GameClient.connected _) || negb (GameClient.myPlayerId_truthy _)
              || negb (GameClient.is_playing _)); [reflexivity|].
    rewrite Hk.
    assert ((0 <? Z.max 0 (1000 - 16 * Z.of_nat k))%Z = true) as -> by lia.
    reflexivity.
  - intros Hge. rewrite Hk. lia.
Qed.

Lemma X14_cooldown_lasts_63_frames_witness :
  let s := GameClient.step (GameClient.Click 440 300) joined in
  GameClient.attackCooldown s = GameClient.attackCooldownTime /\
  GameClient.step (GameClient.Click 440 300)
    (GameClient.run (repeat GameClient.AnimationFrame 62) s)
  = GameClient.run (repeat GameClient.AnimationFrame 62) s /\
  GameClient.attackCooldown (GameClient.run (repeat GameClient.AnimationFrame 63) s)
  = 0%Z.
Proof.
  cbv zeta.
  assert (GameClient.attackCooldown (GameClient.step (GameClient.Click 440 300) joined)
          = GameClient.attackCooldownTime) as Hc by (vm_compute; reflexivity).
  split; [exact Hc|]. split.
  - apply (proj1 (proj2 (X14_cooldown_lasts_63_frames _ 62) Hc)). lia.
  - apply (proj2 (proj2 (X14_cooldown_lasts_63_frames _ 63) Hc)). lia.
Defined.

(** *** The frame of an avatar *)

(** X15. When the sequence selected by the facing is not empty,
    [getCurrentFrame] returns a frame with the flip flag of that
    selection.  For an avatar that is not moving its image is the first of
    the sequence; for a moving avatar with a non-negative animation frame
    it is the image at that index modulo the length, so it is always
    defined; for a negative animation frame that is not a multiple of the
    length the index is negative and the frame has no image. *)
Theorem X15_frame_index (a : Avatar.t) :
  let frameSet := fst (Avatar.selectFrameSet a) in
  let flip := snd (Avatar.selectFrameSet a) in
  let len := Z.of_nat (length frameSet) in
  frameSet <> [] ->
  (Avatar.isMoving a = false ->
   Avatar.getCurrentFrame a
   = Some {| Avatar.image := frameSet !! 0%nat; Avatar.flipHorizontal := flip |}
   /\ frameSet !! 0%nat <> None) /\
  (Avatar.isMoving a = true -> (0 <= Avatar.animationFrame a)%Z ->
   exists img,
     frameSet !! Z.to_nat (Avatar.animationFrame a mod len) = Some img /\
     Avatar.getCurrentFrame a
     = Some {| Avatar.image := Some img; Avatar.flipHorizontal := flip |}) /\
  (Avatar.isMoving a = true -> (Avatar.animationFrame a < 0)%Z ->
   (Avatar.animationFrame a mod len <> 0)%Z ->
   Avatar.getCurrentFrame a
   = Some {| Avatar.image := None; Avatar.flipHorizontal := flip |}).
Proof.
  cbv zeta. unfold Avatar.getCurrentFrame.
  destruct (Avatar.selectFrameSet a) as [frameSet flip]. cbn [fst snd].
  intros Hne.
  assert (0 < length frameSet)%nat as Hlen
    by (destruct frameSet; [congruence|cbn; lia]).
  assert ((0 <? length frameSet)%nat = true) as -> by (apply Nat.ltb_lt, Hlen).
  split; [|split].
  - intros ->. rewrite Z.rem_0_l by lia. split; [reflexivity|].
    destruct frameSet; [congruence|discriminate].
  - intros -> Hpos.
    rewrite Z.rem_mod_nonneg by lia.
    pose proof (Z.mod_pos_bound (Avatar.animationFrame a)
                  (Z.of_nat (length frameSet)) ltac:(lia)) as Hb.
    destruct (lookup_lt_is_Some_2 frameSet
                (Z.to_nat (Avatar.animationFrame a mod Z.of_nat (length frameSet)))
                ltac:(lia)) as [img Himg].
    exists img. split; [exact Himg|].
    unfold Avatar.js_index.
    assert ((Avatar.animationFrame a mod Z.of_nat (length frameSet) <? 0)%Z = false)
      as -> by lia.
    rewrite Himg. reflexivity.
  - intros -> Hneg Hmod. unfold Avatar.js_index.
    assert ((Z.rem (Avatar.animationFrame a) (Z.of_nat (length frameSet)) <? 0)%Z
            = true) as ->; [|reflexivity].
    apply Z.ltb_lt.
    pose proof (Z.rem_bound_pos_neg (Avatar.animationFrame a)
                  (Z.of_nat (length frameSet)) ltac:(lia) ltac:(lia)) as Hb.
    assert (Z.rem (Avatar.animationFrame a) (Z.of_nat (length frameSet)) <> 0)%Z.
    { intros Hz. apply Hmod. apply Z.rem_divide in Hz; [|lia].
      apply Z.mod_divide; [lia|exact Hz]. }
    lia.
Qed.

Lemma X15_frame_index_witness :
  let a := Avatar.update
             {| Avatar.pd_id := "7"; Avatar.pd_username := "ann";
                Avatar.pd_x := 10; Avatar.pd_y := 20;
                Avatar.pd_facing := "west"; Avatar.pd_isMoving := true;
                Avatar.pd_animationFrame := Some 4%Z; Avatar.pd_avatar := "knight" |}
             (fst (Avatar.new (snapshot "7" 0 0) (Some knight) 0)) in
  exists img,
    Avatar.getCurrentFrame a
    = Some {| Avatar.image := Some img; Avatar.flipHorizontal := true |}.
Proof.
  cbv zeta.
  destruct (proj1 (proj2 (X15_frame_index
                            (Avatar.update
                               {| Avatar.pd_id := "7"; Avatar.pd_username := "ann";
                                  Avatar.pd_x := 10; Avatar.pd_y := 20;
                                  Avatar.pd_facing := "west"; Avatar.pd_isMoving := true;
                                  Avatar.pd_animationFrame := Some 4%Z;
                                  Avatar.pd_avatar := "knight" |}
                               (fst (Avatar.new (snapshot "7" 0 0) (Some knight) 0)))
                            ltac:(vm_compute; discriminate)))
              eq_refl ltac:(vm_compute; discriminate)) as (img & _ & H).
  exists img. exact H.
Defined.

(** *** Loading the images of an avatar *)

(** X16. [loadAvatarFrames] builds one image per base64 string, in order
    and with that string as source, for each direction the frame data
    has, and keeps the old sequence of a direction it does not have; it
    changes nothing else of the avatar.  The images are new objects,
    numbered consecutively from the first free identity through north,
    south and east, so no two of them are the same object, and the
    identity counter advances by their number. *)
Theorem X16_loadAvatarFrames (fd : Avatar.FrameData) (n : nat) (a : Avatar.t) :
  let a' := fst (Avatar.loadAvatarFrames fd n a) in
  let n' := snd (Avatar.loadAvatarFrames fd n a) in
  let kept (dir : Avatar.Frames -> list Avatar.Image) (o : option (list string)) :=
    match o with
    | Some l => map Avatar.img_src (dir (Avatar.frames a')) = l
    | None => dir (Avatar.frames a') = dir (Avatar.frames a)
    end in
  kept Avatar.north (Avatar.fd_north fd) /\
  kept Avatar.south (Avatar.fd_south fd) /\
  kept Avatar.east (Avatar.fd_east fd) /\
  a' = Avatar.with_frames (Avatar.frames a') a /\
  n' = n + frame_count (Avatar.fd_north fd) + frame_count (Avatar.fd_south fd)
       + frame_count (Avatar.fd_east fd) /\
  (forall ln ls le,
      Avatar.fd_north fd = Some ln -> Avatar.fd_south fd = Some ls ->
      Avatar.fd_east fd = Some le ->
      map Avatar.img_id
        (Avatar.north (Avatar.frames a') ++ Avatar.south (Avatar.frames a')
         ++ Avatar.east (Avatar.frames a'))
      = seq n (length ln + length ls + length le) /\
      List.NoDup
        (map Avatar.img_id
           (Avatar.north (Avatar.frames a') ++ Avatar.south (Avatar.frames a')
            ++ Avatar.east (Avatar.frames a')))).
Proof.
  cbv zeta. unfold Avatar.loadAvatarFrames.
  destruct (Avatar.fd_north fd) as [ln|], (Avatar.fd_south fd) as [ls|],
    (Avatar.fd_east fd) as [le|]; cbn;
    repeat (split; [first [apply load_images_spec | reflexivity | lia]|]);
    intros ln' ls' le' E1 E2 E3; try discriminate.
  injection E1 as <-. injection E2 as <-. injection E3 as <-.
  assert (map Avatar.img_id
            (Avatar.load_images n ln ++ Avatar.load_images (n + length ln) ls
             ++ Avatar.load_images (n + length ln + length ls) le)
          = seq n (length ln + length ls + length le)) as E.
  { rewrite !map_app.
    rewrite (proj2 (load_images_spec ln n)),
      (proj2 (load_images_spec ls (n + length ln))),
      (proj2 (load_images_spec le (n + length ln + length ls))).
    rewrite !seq_app, <- app_assoc.
    replace (n + (length ln + length ls)) with (n + length ln + length ls) by lia.
    reflexivity. }
  rewrite E. split; [reflexivity|]. apply seq_NoDup.
Qed.

Lemma X16_loadAvatarFrames_witness :
  let a' := fst (Avatar.loadAvatarFrames (Avatar.ad_frames knight) 1
                   (fst (Avatar.new (snapshot "7" 0 0) None 0))) in
  map Avatar.img_id
    (Avatar.north (Avatar.frames a') ++ Avatar.south (Avatar.frames a')
     ++ Avatar.east (Avatar.frames a'))
  = seq 1 (1 + 2 + 3).
Proof.
  exact (proj1
           (proj2 (proj2 (proj2 (proj2 (proj2
              (X16_loadAvatarFrames (Avatar.ad_frames knight) 1
                 (fst (Avatar.new (snapshot "7" 0 0) None 0)))))))
              ["n0"] ["s0"; "s1"] ["e0"; "e1"; "e2"] eq_refl eq_refl eq_refl)).
Defined.

(** *** Drawing *)

Lemma Qlt_bool_false a b : Avatar.Qlt_bool a b = false <-> (b <= a)%Q.
Proof.
  unfold Avatar.Qlt_bool. rewrite negb_false_iff. apply Qle_bool_iff.
Qed.

Lemma Qlt_bool_true a b : Avatar.Qlt_bool a b = true <-> (a < b)%Q.
Proof.
  unfold Avatar.Qlt_bool. rewrite negb_true_iff. split.
  - intros H. apply Qnot_le_lt. intros Hle.
    apply Qle_bool_iff in Hle. congruence.
  - intros H. destruct (Qle_bool b a) eqn:E; [|reflexivity].
    apply Qle_bool_iff in E. exfalso. exact (Qlt_not_le _ _ H E).
Qed.

Lemma span_plain a w :
  (0 <= w)%Q ->
  (fst (span 1 a w) == a /\ snd (span 1 a w) == a + w)%Q.
Proof.
  intros Hw. unfold span. cbn [fst snd].
  assert (1 * a <= 1 * (a + w))%Q as H by lra.
  rewrite (Q.min_l _ _ H), (Q.max_r _ _ H). split; ring.
Qed.

Lemma span_mirrored a w :
  (0 <= w)%Q ->
  (fst (span (1 * -1) a w) == - a - w /\
   snd (span (1 * -1) a w) == - a)%Q.
Proof.
  intros Hw. unfold span. cbn [fst snd].
  assert (1 * -1 * (a + w) <= 1 * -1 * a)%Q as H by lra.
  rewrite (Q.min_r _ _ H), (Q.max_l _ _ H). split; ring.
Qed.

Lemma scale_opp m e : (Double.scale (- m) e == - Double.scale m e)%Q.
Proof.
  unfold Double.scale. destruct (0 <=? e)%Z.
  - rewrite Z.mul_opp_l, inject_Z_opp. reflexivity.
  - reflexivity.
Qed.

(** Rounding is symmetric about zero. *)
Lemma round_opp q : (Double.round (- q) == - Double.round q)%Q.
Proof.
  unfold Double.round. rewrite Qred_opp.
  destruct (Qred q) as [n d]. cbn [Qnum Qden Qopp].
  rewrite Z.abs_opp.
  destruct (Z.abs n =? 0)%Z; [reflexivity|].
  rewrite !Qred_correct, Z.sgn_opp, Z.mul_opp_l. apply scale_opp.
Qed.

Lemma half_avatarSize : Double.div Avatar.avatarSize 2 = 16%Q.
Proof. vm_compute. reflexivity. Qed.

(** X17. What [Avatar.render] shows, positions being computed in doubles
    as the code computes them.  An avatar whose canvas position is more
    than one sprite width outside the canvas draws nothing.  Otherwise a
    dead avatar draws no sprite: its only text is its name followed by
    " (DEAD)"; a live avatar that has a current frame draws it on a
    32 x 32 square, mirrored when facing west, and then its name, never
    mirrored; without a frame it draws the name alone.  The square has
    its left edge at the canvas position less 16, and when mirrored its
    right edge at that plus 32.  When the coordinates of the avatar and
    of the viewport are integers (of magnitude at most 2^50) nothing is
    rounded: the square is centred on the canvas position, the same
    square whether the frame is mirrored or not, and the name is 21
    pixels above the centre. *)
Theorem X17_avatar_on_canvas (cw ch vx vy : Q) (a : Avatar.t) :
  let sx := Double.sub (Avatar.x a) vx in
  let sy := Double.sub (Avatar.y a) vy in
  let out := Avatar.render cw ch vx vy a in
  (~ visible cw ch vx vy a -> out = []) /\
  (visible cw ch vx vy a ->
   displays out (sprite a)
     (match sprite a with
      | Some (_, true) => Double.add (Double.sub sx 16) 32 - 32
      | _ => Double.sub sx 16
      end)
     (Double.sub sy 16)
     (label a) sx (Double.sub (Double.sub sy 16) 5)) /\
  (visible cw ch vx vy a ->
   integral (2 ^ 50) (Avatar.x a) -> integral (2 ^ 50) vx ->
   integral (2 ^ 50) (Avatar.y a) -> integral (2 ^ 50) vy ->
   displays out (sprite a)
     (Avatar.x a - vx - 16) (Avatar.y a - vy - 16)
     (label a) (Avatar.x a - vx) (Avatar.y a - vy - 21)).
Proof.
  cbv zeta.
  assert (visible cw ch vx vy a ->
          displays (Avatar.render cw ch vx vy a) (sprite a)
            (match sprite a with
             | Some (_, true) =>
                 Double.add (Double.sub (Double.sub (Avatar.x a) vx) 16) 32 - 32
             | _ => Double.sub (Double.sub (Avatar.x a) vx) 16
             end)
            (Double.sub (Double.sub (Avatar.y a) vy) 16)
            (label a) (Double.sub (Avatar.x a) vx)
            (Double.sub (Double.sub (Double.sub (Avatar.y a) vy) 16) 5)) as Hshow.
  { unfold visible, Avatar.render, displays, sprite, label. cbv zeta.
    intros (H1 & H2 & H3 & H4).
    apply Qlt_bool_false in H1, H2, H3, H4. rewrite H1, H2, H3, H4.
    cbn [orb]. rewrite half_avatarSize.
    set (sx := Double.sub (Avatar.x a) vx).
    set (sy := Double.sub (Avatar.y a) vy).
    clearbody sx sy.
    exists (1 * sx)%Q, (1 * Double.sub (Double.sub sy 16) 5)%Q.
    split; [split; apply Qmult_1_l|].
    destruct (Avatar.isDead a); [reflexivity|].
    destruct (Avatar.getCurrentFrame a) as [[[img|] flip]|]; try reflexivity.
    assert (0 <= Avatar.avatarSize)%Q as Hs by (unfold Avatar.avatarSize; lra).
    destruct (span_plain (Double.sub sy 16) Avatar.avatarSize Hs) as [Ht Hb].
    destruct flip.
    - destruct (span_mirrored (Double.sub (- Double.sub sx 16) Avatar.avatarSize)
                  Avatar.avatarSize Hs) as [Hl Hr].
      eexists _, _, _, _. split; [reflexivity|].
      cbn [fst snd]. rewrite Hl, Hr, Ht, Hb.
      assert (- Double.sub (- Double.sub sx 16) Avatar.avatarSize
              == Double.add (Double.sub sx 16) 32)%Q as ->.
      { set (dx := Double.sub sx 16). unfold Double.sub, Double.add.
        rewrite <- round_opp.
        rewrite (round_comp (- (- dx - Avatar.avatarSize)) (dx + 32));
          [reflexivity|]. clearbody dx. unfold Avatar.avatarSize. ring. }
      generalize (Double.add (Double.sub sx 16) 32) (Double.sub sy 16).
      intros right top. unfold Avatar.avatarSize. repeat split; ring.
    - destruct (span_plain (Double.sub sx 16) Avatar.avatarSize Hs) as [Hl Hr].
      eexists _, _, _, _. split; [reflexivity|].
      cbn [fst snd]. rewrite Hl, Hr, Ht, Hb.
      generalize (Double.sub sx 16) (Double.sub sy 16).
      intros left top. unfold Avatar.avatarSize. repeat split; ring. }
  split; [|split; [exact Hshow|]].
  - unfold visible, Avatar.render. cbv zeta. intros H.
    destruct (Avatar.Qlt_bool (Double.sub (Avatar.x a) vx) (- Avatar.avatarSize))
      eqn:E1; [reflexivity|].
    destruct (Avatar.Qlt_bool (Double.add cw Avatar.avatarSize)
                (Double.sub (Avatar.x a) vx)) eqn:E2; [reflexivity|].
    destruct (Avatar.Qlt_bool (Double.sub (Avatar.y a) vy) (- Avatar.avatarSize))
      eqn:E3; [reflexivity|].
    destruct (Avatar.Qlt_bool (Double.add ch Avatar.avatarSize)
                (Double.sub (Avatar.y a) vy)) eqn:E4; [reflexivity|].
    apply Qlt_bool_false in E1, E2, E3, E4.
    exfalso. apply H. repeat split; assumption.
  - intros Hv (xa & Hxa & Bxa) (xv & Hxv & Bxv) (ya & Hya & Bya) (yv & Hyv & Byv).
    specialize (Hshow Hv).
    assert (Double.sub (Avatar.x a) vx = inject_Z (xa - xv)) as Ex
      by (apply sub_integers; [assumption..|lia]).
    assert (Double.sub (Avatar.y a) vy = inject_Z (ya - yv)) as Ey
      by (apply sub_integers; [assumption..|lia]).
    assert (Double.sub (inject_Z (xa - xv)) 16 = inject_Z (xa - xv - 16)) as Ex'
      by (apply sub_integers; [reflexivity..|lia]).
    assert (Double.sub (inject_Z (ya - yv)) 16 = inject_Z (ya - yv - 16)) as Ey'
      by (apply sub_integers; [reflexivity..|lia]).
    assert (Double.add (inject_Z (xa - xv - 16)) 32 = inject_Z (xa - xv - 16 + 32))
      as Ex'' by (apply add_integers; [reflexivity..|lia]).
    assert (Double.sub (inject_Z (ya - yv - 16)) 5 = inject_Z (ya - yv - 16 - 5))
      as Ey'' by (apply sub_integers; [reflexivity..|lia]).
    rewrite Ex, Ey, Ex', Ey', Ex'', Ey'' in Hshow.
    destruct Hshow as (tx & ty & [Htx Hty] & H).
    assert (forall u v : Z, (inject_Z (u - v) == inject_Z u - inject_Z v)%Q) as Hsub.
    { intros u v. unfold Z.sub. rewrite inject_Z_plus, inject_Z_opp. reflexivity. }
    exists tx, ty. split.
    { rewrite Htx, Hty, !Hsub, Hxa, Hxv, Hya, Hyv.
      change (inject_Z 16) with 16%Q. change (inject_Z 5) with 5%Q.
      split; ring. }
    destruct (sprite a) as [[img flip]|]; [|exact H].
    destruct H as (l & t & r & b & Hseen & Hl & Ht & Hr & Hb).
    exists l, t, r, b. split; [exact Hseen|].
    assert (l == inject_Z (xa - xv - 16))%Q as Hl'.
    { destruct flip; [|exact Hl].
      rewrite Hl, inject_Z_plus, !Hsub.
      change (inject_Z 16) with 16%Q. change (inject_Z 32) with 32%Q. ring. }
    rewrite Hr, Hb, Ht, Hl'.
    assert ((if flip then inject_Z (xa - xv - 16 + 32) - 32
             else inject_Z (xa - xv - 16)) == inject_Z (xa - xv - 16))%Q as ->.
    { destruct flip; [|reflexivity].
      rewrite inject_Z_plus. change (inject_Z 32) with 32%Q. ring. }
    rewrite !Hsub, Hxa, Hxv, Hya, Hyv. change (inject_Z 16) with 16%Q.
    repeat split; ring.
Qed.

Lemma X17_avatar_on_canvas_witness :
  displays (Avatar.render 800 600 0 0 walking_west)
    (Some ({| Avatar.img_id := 5; Avatar.img_src := "e1" |}, true))
    (10 - 0 - 16) (20 - 0 - 16) "7" (10 - 0) (20 - 0 - 21).
Proof.
  assert (visible 800 600 0 0 walking_west) as Hv
    by (vm_compute; repeat split; discriminate).
  assert (forall z : Z, (Z.abs z <= 20)%Z -> integral (2 ^ 50) (inject_Z z)) as Hi.
  { intros z Hz. exists z. split; [reflexivity|]. lia. }
  exact (proj2 (proj2 (X17_avatar_on_canvas 800 600 0 0 walking_west)) Hv
           (Hi 10%Z ltac:(lia)) (Hi 0%Z ltac:(lia))
           (Hi 20%Z ltac:(lia)) (Hi 0%Z ltac:(lia))).
Defined.

Lemma scoped_app a : forall d d' b,
  scoped d a = Some d' -> scoped d (a ++ b) = scoped d' b.
Proof.
  induction a as [|c a IH]; intros d d' b H.
  - injection H as <-. reflexivity.
  - destruct c; cbn in *; try (apply IH; exact H);
      destruct d; try discriminate; apply IH; exact H.
Qed.

Lemma scoped_Avatar_render cw ch vx vy a d :
  scoped d (Avatar.render cw ch vx vy a) = Some d.
Proof.
  unfold Avatar.render.
  destruct (_ || _ || _ || _); [reflexivity|].
  destruct (Avatar.isDead a); [reflexivity|].
  destruct (Avatar.getCurrentFrame a) as [[[img|] []]|]; reflexivity.
Qed.

Lemma scoped_avatars cw ch vx vy l d :
  scoped d (flat_map (Avatar.render cw ch vx vy) l) = Some d.
Proof.
  induction l as [|a l IH]; [reflexivity|].
  cbn [flat_map].
  rewrite (scoped_app _ d d _ (scoped_Avatar_render cw ch vx vy a d)).
  exact IH.
Qed.

Lemma scoped_renderAttackCooldown s d :
  scoped d (GameClient.renderAttackCooldown s) = Some d.
Proof.
  unfold GameClient.renderAttackCooldown.
  destruct (0 <? GameClient.attackCooldown s)%Z; reflexivity.
Qed.

Lemma scoped_renderScore s d : scoped d (GameClient.renderScore s) = Some d.
Proof. reflexivity. Qed.

Lemma scoped_renderAttackRangeIndicator s d :
  scoped d (GameClient.renderAttackRangeIndicator s) = Some d.
Proof.
  unfold GameClient.renderAttackRangeIndicator.
  destruct (GameClient.playersInRange s) as [n|]; [|reflexivity].
  destruct (GameClient.myAvatar s) as [me|]; [|reflexivity].
  destruct (0 <? n)%nat; reflexivity.
Qed.

Lemma scoped_renderGameStateOverlay s d :
  scoped d (GameClient.renderGameStateOverlay s) = Some d.
Proof.
  unfold GameClient.renderGameStateOverlay.
  destruct (GameClient.is_playing s); reflexivity.
Qed.

(** X18. A frame leaves the drawing state of the context as it found
    it: in the calls of [render], for every state of the client, each
    assignment of a style, of the dash pattern or of the transform is
    made between a [save] and the [restore] that undoes it, no [restore]
    is made with nothing saved, and every [save] is restored by the end
    of the frame.  In particular the mirroring of one avatar never
    reaches the next avatar or the heads-up display. *)
Theorem X18_frame_restores_context (s : GameClient.t) :
  scoped 0 (GameClient.render s) = Some 0%nat /\
  forall cw ch vx vy a d, scoped d (Avatar.render cw ch vx vy a) = Some d.
Proof.
  split; [|intros; apply scoped_Avatar_render].
  unfold GameClient.render.
  assert (scoped 0 [Context2D.clearRect 0 0
                      (GameClient.width (GameClient.canvas s))
                      (GameClient.height (GameClient.canvas s));
                    GameClient.drawWorld s] = Some 0%nat) as H0.
  { unfold GameClient.drawWorld. destruct (_ && _); reflexivity. }
  rewrite (scoped_app _ _ _ _ H0).
  rewrite (scoped_app _ _ _ _ (scoped_avatars _ _ _ _ _ 0%nat)).
  rewrite (scoped_app _ _ _ _ (scoped_renderAttackCooldown s 0%nat)).
  rewrite (scoped_app _ _ _ _ (scoped_renderScore s 0%nat)).
  rewrite (scoped_app _ _ _ _ (scoped_renderAttackRangeIndicator s 0%nat)).
  apply scoped_renderGameStateOverlay.
Qed.

Ltac conjuncts := repeat match goal with |- _ /\ _ => split end.

Lemma reachable_attackCooldown_le s :
  GameClient.reachable s -> (0 <= GameClient.attackCooldown s <= 1000)%Z.
Proof.
  induction 1 as [stored w h s Hc|e s Hr IH].
  - rewrite (proj1 (construct_frame _ _ _ _ Hc)). lia.
  - destruct (step_attackCooldown e s (proj1 IH)) as [?|(?&?&?&?&?&->)];
      [lia|unfold GameClient.attackCooldownTime; lia].
Qed.

Lemma Qred_odd_half z : Z.odd z = true -> Qred (z # 2) = z # 2.
Proof.
  intros Ho. unfold Qred.
  generalize (Z.ggcd_gcd z 2) (Z.ggcd_correct_divisors z 2).
  destruct (Z.ggcd z 2) as (g & aa & bb). cbn [fst snd].
  intros Hg [Ha Hb].
  assert (g = 1%Z) as ->.
  { pose proof (Z.gcd_nonneg z 2) as Hn.
    pose proof (Z.gcd_divide_r z 2) as Hk.
    pose proof (Z.gcd_divide_l z 2) as [j Hj].
    rewrite <- Hg in Hn, Hk, Hj.
    pose proof (Z.divide_pos_le g 2 ltac:(lia) Hk) as Hle.
    assert (g <> 0)%Z as Hg0 by (intros ->; destruct Hk as [k Hk]; lia).
    assert (g = 1 \/ g = 2)%Z as [->| ->] by lia; [reflexivity|].
    rewrite Hj, Z.odd_mul in Ho. rewrite andb_false_r in Ho. discriminate. }
  assert (aa = z) as -> by lia. assert (bb = 2%Z) as -> by lia.
  reflexivity.
Qed.

(** Halving an integer of magnitude at most 2^52 is exact. *)
Lemma half_integer z :
  (Z.abs z <= 2 ^ 52)%Z ->
  (Double.div (inject_Z z) 2 == inject_Z z / 2)%Q.
Proof.
  intros Hz. unfold Double.div.
  destruct (Z.odd z) eqn:Ho.
  - assert (inject_Z z / 2 == z # 2)%Q as E
      by (unfold Qeq; cbn; lia).
    rewrite (round_comp _ _ E), E. unfold Double.round.
    rewrite (Qred_odd_half z Ho). cbn [Qnum Qden].
    assert (0 < Z.abs z)%Z as Hn by (destruct z; cbn in *; lia || discriminate).
    assert ((Z.abs z =? 0)%Z = false) as -> by lia.
    assert (Z.abs z <> 2 ^ 52)%Z as Hne.
    { intros E'. assert (Z.odd (Z.abs z) = true) as Ho'
        by (destruct z; exact Ho).
      rewrite E' in Ho'. vm_compute in Ho'. discriminate. }
    assert (Z.log2 (Z.abs z) < 52)%Z as Hl
      by (apply Z.log2_lt_pow2; lia).
    pose proof (Z.log2_nonneg (Z.abs z)) as Hl0.
    destruct (Z.log2_spec _ Hn) as [Hlo Hhi].
    assert (Double.log2_floor (Z.abs z) 2 = Z.log2 (Z.abs z) - 1)%Z as ->.
    { unfold Double.log2_floor. change (Z.log2 2) with 1%Z.
      destruct (0 <=? Z.log2 (Z.abs z) - 1)%Z eqn:E0.
      - apply Z.leb_le in E0.
        assert (2 * 2 ^ (Z.log2 (Z.abs z) - 1) = 2 ^ Z.log2 (Z.abs z))%Z as ->.
        { rewrite <- Z.pow_succ_r by lia. f_equal. lia. }
        assert ((2 ^ Z.log2 (Z.abs z) <=? Z.abs z)%Z = true) as -> by lia.
        reflexivity.
      - apply Z.leb_gt in E0.
        assert (Z.log2 (Z.abs z) = 0)%Z as -> by lia.
        change (- (0 - 1))%Z with 1%Z. change (2 ^ 1)%Z with 2%Z.
        assert ((2 <=? Z.abs z * 2)%Z = true) as -> by lia.
        reflexivity. }
    unfold Double.last_place.
    set (e := Z.max (Z.log2 (Z.abs z) - 1 - 52) (-1074)).
    assert (e <= -2)%Z as He by (unfold e; lia).
    assert ((0 <=? e)%Z = false) as -> by lia.
    assert (0 < 2 ^ (- e - 1))%Z as Hp by (apply Z.pow_pos_nonneg; lia).
    assert (2 ^ (- e) = 2 * 2 ^ (- e - 1))%Z as Hpow.
    { rewrite <- Z.pow_succ_r by lia. f_equal. lia. }
    assert (Double.nearest_even (Z.abs z * 2 ^ (- e)) 2
            = (Z.abs z * 2 ^ (- e - 1))%Z) as ->.
    { unfold Double.nearest_even. rewrite Hpow.
      replace (Z.abs z * (2 * 2 ^ (- e - 1)))%Z
        with (Z.abs z * 2 ^ (- e - 1) * 2)%Z by ring.
      rewrite Z.mod_mul, Z.div_mul by lia. reflexivity. }
    rewrite Qred_correct. unfold Double.scale.
    assert ((0 <=? e)%Z = false) as -> by lia.
    unfold Qeq. cbn [Qnum Qden]. rewrite Z2Pos.id by lia.
    rewrite Hpow.
    replace (Z.sgn z * (Z.abs z * 2 ^ (- e - 1)))%Z
      with (z * 2 ^ (- e - 1))%Z
      by (rewrite Z.mul_assoc; f_equal; destruct z; cbn; lia).
    change (Z.pos 2) with 2%Z. ring.
  - assert (Z.even z = true) as Hev by (rewrite <- Z.negb_odd, Ho; reflexivity).
    apply Z.even_spec in Hev. destruct Hev as [k ->].
    assert (inject_Z (2 * k) / 2 == inject_Z k)%Q as E.
    { rewrite inject_Z_mult. change (inject_Z 2) with 2%Q. field. }
    rewrite (round_integer _ k E) by lia. rewrite E. reflexivity.
Qed.

Lemma checked_below (f : Z -> bool) n :
  forallb f (map Z.of_nat (seq 1 n)) = true ->
  forall c, (1 <= c <= Z.of_nat n)%Z -> f c = true.
Proof.
  intros H c Hc.
  apply (proj1 (forallb_forall f _) H).
  apply in_map_iff. exists (Z.to_nat c). split; [lia|].
  apply in_seq. lia.
Qed.

Lemma fill_ok_spec c fill :
  fill_ok c fill = true ->
  (0 <= fill /\ fill < 200 /\
   Qabs (fill - (200 - inject_Z c / 5)) <= 1 # 2 ^ 40)%Q.
Proof.
  unfold fill_ok. intros H.
  apply andb_true_iff in H. destruct H as [H H3].
  apply andb_true_iff in H. destruct H as [H1 H2].
  split; [apply Qle_bool_iff, H1|].
  split; [apply Qlt_bool_true, H2|apply Qle_bool_iff, H3].
Qed.

(** Checked by computation for each of the thousand values. *)
Lemma fill_checked_all :
  forallb
    (fun c =>
       fill_ok c
         (Double.mul 200
            (Double.sub 1 (Double.div (inject_Z c)
                             (inject_Z GameClient.attackCooldownTime)))))
    (map Z.of_nat (seq 1 1000)) = true.
Proof. vm_compute. reflexivity. Qed.

Lemma fill_bounds c :
  (1 <= c <= 1000)%Z ->
  fill_ok c
    (Double.mul 200
       (Double.sub 1 (Double.div (inject_Z c)
                        (inject_Z GameClient.attackCooldownTime)))) = true.
Proof.
  intros Hc.
  apply (checked_below
           (fun c =>
              fill_ok c
                (Double.mul 200
                   (Double.sub 1 (Double.div (inject_Z c)
                                    (inject_Z GameClient.attackCooldownTime)))))
           1000 fill_checked_all). lia.
Qed.

(** X19. The cooldown bar.  In every state the client can reach, the
    bar is drawn exactly while the cooldown is running; its background
    is 200 wide, and the red fill starts at the same corner with the
    same height.  The width of the fill is computed in doubles: it is
    never negative, stays below the full width (the fill never leaves
    the bar) and is within 2^-40 of 200 - cooldown / 5.  When the width
    of the canvas is an integer (of magnitude at most 2^50) the bar is
    centred on the canvas. *)
Theorem X19_cooldown_bar (s : GameClient.t) :
  let x :=
    Double.div (Double.sub (GameClient.width (GameClient.canvas s)) 200) 2 in
  GameClient.reachable s ->
  (GameClient.attackCooldown s = 0%Z -> GameClient.renderAttackCooldown s = []) /\
  (GameClient.attackCooldown s <> 0%Z ->
   exists fill,
     filled (GameClient.renderAttackCooldown s)
     = [(x, 20, 200, 20); (x, 20, fill, 20)]%Q /\
     (0 <= fill /\ fill < 200 /\
      Qabs (fill - (200 - inject_Z (GameClient.attackCooldown s) / 5))
      <= 1 # 2 ^ 40)%Q) /\
  (integral (2 ^ 50) (GameClient.width (GameClient.canvas s)) ->
   (x + 200 + x == GameClient.width (GameClient.canvas s))%Q).
Proof.
  intros x Hr. pose proof (reachable_attackCooldown_le s Hr) as Hc.
  unfold GameClient.renderAttackCooldown. split; [|split].
  - intros ->. reflexivity.
  - intros Hn.
    assert ((0 <? GameClient.attackCooldown s)%Z = true) as -> by lia.
    eexists. split; [reflexivity|].
    apply fill_ok_spec, fill_bounds. lia.
  - intros (w & Hw & Bw). unfold x.
    rewrite (sub_integers _ _ w 200 Hw) by (reflexivity || lia).
    rewrite half_integer by lia.
    rewrite Hw. unfold Z.sub. rewrite inject_Z_plus.
    change (inject_Z (- (200))) with (- (200))%Q. field.
Qed.

Lemma X19_cooldown_bar_witness :
  (exists fill,
    filled (GameClient.renderAttackCooldown
              (GameClient.run [GameClient.Click 400 300] joined))
    = [(300, 20, 200, 20); (300, 20, fill, 20)]%Q /\
    (0 <= fill /\ fill < 200)%Q) /\
  (300 + 200 + 300 == 800)%Q.
Proof.
  assert (GameClient.reachable (GameClient.run [GameClient.Click 400 300] joined))
    as Hr.
  { do 2 apply run_reachable. apply (GameClient.reachable_construct None 800 600).
    reflexivity. }
  pose proof (X19_cooldown_bar _ Hr) as H. cbv zeta in H.
  assert (GameClient.width
            (GameClient.canvas (GameClient.run [GameClient.Click 400 300] joined))
          = 800%Q) as Ew by (vm_compute; reflexivity).
  assert (Double.div (Double.sub 800 200) 2 = 300%Q) as Ex
    by (vm_compute; reflexivity).
  rewrite Ew, Ex in H.
  destruct H as (_ & Hbar & Hmid).
  split.
  - destruct (Hbar ltac:(vm_compute; discriminate)) as (fill & Hf & H0 & H1 & _).
    exists fill. split; [exact Hf|split; assumption].
  - apply Hmid. exists 800%Z. split; [reflexivity|]. vm_compute. discriminate.
Defined.

(** X20. The world map in a frame, for a world of positive size.  When
    the world is not larger than the canvas in either direction, the
    whole image is drawn, scaled by one factor in both directions (the
    aspect ratio is kept), never shrunk, inside the canvas, centred in
    it, and reaching the canvas edges in at least one direction.
    Otherwise the part of the image under the viewport is drawn pixel
    for pixel over the whole canvas, and when the viewport offset is
    within its bounds that part begins inside the world and, in each
    direction in which the canvas is not larger than the world, ends
    inside it. *)
Theorem X20_world_map (s : GameClient.t) :
  let W := GameClient.worldWidth s in
  let H := GameClient.worldHeight s in
  let cw := GameClient.width (GameClient.canvas s) in
  let ch := GameClient.height (GameClient.canvas s) in
  (0 < W)%Q -> (0 < H)%Q ->
  exists sx sy sw sh dx dy dw dh,
    GameClient.drawWorld s = Context2D.drawImage_world sx sy sw sh dx dy dw dh /\
    ((W <= cw /\ H <= ch ->
      sx == 0 /\ sy == 0 /\ sw == W /\ sh == H /\
      dw * H == dh * W /\ W <= dw /\ H <= dh /\
      0 <= dx /\ 0 <= dy /\
      dx + dw + dx == cw /\ dy + dh + dy == ch /\
      (dw == cw \/ dh == ch)) /\
     (~ (W <= cw /\ H <= ch) ->
      dx == 0 /\ dy == 0 /\ dw == cw /\ dh == ch /\
      sw == cw /\ sh == ch /\
      sx == GameClient.viewportOffsetX s /\ sy == GameClient.viewportOffsetY s /\
      (viewport_in_bounds s ->
       0 <= sx /\ 0 <= sy /\
       (cw <= W -> sx + sw <= W) /\ (ch <= H -> sy + sh <= H))))%Q.
Proof.
  cbv zeta. intros HW HH. unfold GameClient.drawWorld.
  destruct (Qle_bool (GameClient.worldWidth s)
              (GameClient.width (GameClient.canvas s))) eqn:E1;
    [destruct (Qle_bool (GameClient.worldHeight s)
                 (GameClient.height (GameClient.canvas s))) eqn:E2|];
    cbn [andb].
  - apply Qle_bool_iff in E1, E2.
    eexists _, _, _, _, _, _, _, _. split; [reflexivity|].
    split; [intros _|intros Hn; exfalso; apply Hn; split; assumption].
    generalize dependent (GameClient.worldWidth s).
    generalize dependent (GameClient.worldHeight s).
    generalize (GameClient.width (GameClient.canvas s))
      (GameClient.height (GameClient.canvas s)).
    intros cw ch H HH E2 W HW E1.
    assert (cw / W * W == cw)%Q as Hp by (field; lra).
    assert (ch / H * H == ch)%Q as Hq by (field; lra).
    assert (1 <= cw / W)%Q as Hp1.
    { apply Qle_shift_div_l; [exact HW|lra]. }
    assert (1 <= ch / H)%Q as Hq1.
    { apply Qle_shift_div_l; [exact HH|lra]. }
    destruct (Q.min_spec (cw / W) (ch / H)) as [[Hlt ->]|[Hle ->]];
      generalize dependent (cw / W)%Q; generalize dependent (ch / H)%Q;
      intros q Hq Hq1 p Hp Hp1 Hc.
    + conjuncts; try reflexivity; try field;
        unfold Qdiv; try change (/ 2)%Q with (1 # 2)%Q; nra.
    + conjuncts; try reflexivity; try field;
        unfold Qdiv; try change (/ 2)%Q with (1 # 2)%Q; nra.
  - apply Qle_bool_iff in E1.
    eexists _, _, _, _, _, _, _, _. split; [reflexivity|].
    split; [intros [_ H2]; apply Qle_bool_iff in H2; congruence|intros _].
    conjuncts; try reflexivity; intros Hv; conjuncts;
      destruct Hv as (H1 & H2 & H3 & H4); try assumption; intros Hle.
    + rewrite Q.max_r in H2 by lra. lra.
    + rewrite Q.max_r in H4 by lra. lra.
  - eexists _, _, _, _, _, _, _, _. split; [reflexivity|].
    split; [intros [H1 _]; apply Qle_bool_iff in H1; congruence|intros _].
    conjuncts; try reflexivity; intros Hv; conjuncts;
      destruct Hv as (H1 & H2 & H3 & H4); try assumption; intros Hle.
    + rewrite Q.max_r in H2 by lra. lra.
    + rewrite Q.max_r in H4 by lra. lra.
Qed.

Lemma X20_world_map_witness :
  exists sx sy sw sh dx dy dw dh,
    GameClient.drawWorld large_window
    = Context2D.drawImage_world sx sy sw sh dx dy dw dh /\
    (dw * 2048 == dh * 2048 /\
     dx + dw + dx == 4096 /\ dy + dh + dy == 3072 /\
     (dw == 4096 \/ dh == 3072))%Q.
Proof.
  assert (0 < GameClient.worldWidth large_window)%Q as HW
    by (vm_compute; reflexivity).
  assert (0 < GameClient.worldHeight large_window)%Q as HH
    by (vm_compute; reflexivity).
  assert (GameClient.worldWidth large_window
          <= GameClient.width (GameClient.canvas large_window) /\
          GameClient.worldHeight large_window
          <= GameClient.height (GameClient.canvas large_window))%Q as Hf
    by (split; vm_compute; discriminate).
  destruct (X20_world_map large_window HW HH)
    as (sx & sy & sw & sh & dx & dy & dw & dh & Hd & Hfit & _).
  destruct (Hfit Hf)
    as (_ & _ & _ & _ & Hr & _ & _ & _ & _ & Hx & Hy & Hedge).
  change (GameClient.worldWidth large_window) with 2048%Q in *.
  change (GameClient.worldHeight large_window) with 2048%Q in *.
  change (GameClient.width (GameClient.canvas large_window)) with 4096%Q in *.
  change (GameClient.height (GameClient.canvas large_window)) with 3072%Q in *.
  exists sx, sy, sw, sh, dx, dy, dw, dh.
  exact (conj Hd (conj Hr (conj Hx (conj Hy Hedge)))).
Defined.

Lemma filter_length_pos {A} (f : A -> bool) (l : list A) :
  (0 < length (List.filter f l))%nat <-> exists a, In a l /\ f a = true.
Proof.
  split.
  - destruct (List.filter f l) as [|a l'] eqn:E; [cbn; lia|].
    intros _. exists a. apply filter_In. rewrite E. left. reflexivity.
  - intros (a & Ha). apply filter_In in Ha.
    destruct (List.filter f l); [destruct Ha|cbn; lia].
Qed.

(** X21. The hint of the attack range indicator.  When the local avatar
    is known and passes the visibility test of the indicator, the text
    "Click to attack!" is drawn exactly when some other player who is
    not dead stands at a distance of at most 50 from the local avatar
    (the distance as the code computes it, in doubles), and it states
    how many there are.  Whenever a click on the local
    avatar's own position would select a live player, the hint is
    shown. *)
Theorem X21_attack_hint (s : GameClient.t) (me : Avatar.t) :
  GameClient.myPlayerId_truthy s = true ->
  GameClient.myAvatar s = Some me ->
  indicator_visible s me ->
  let near a :=
    In a (GameClient.values s) /\ other_player s a /\ Avatar.isDead a = false /\
    (GameClient.distance a (Avatar.x me) (Avatar.y me)
     <= GameClient.attackRange)%Q in
  (texts (GameClient.renderAttackRangeIndicator s) <> [] <-> exists a, near a) /\
  (forall text, In text (texts (GameClient.renderAttackRangeIndicator s)) ->
     exists n, GameClient.playersInRange s = Some n /\
       text = "Click to attack! (" ++ GameClient.decimal (Z.of_nat n) ++ " in range)") /\
  (forall a, GameClient.findPlayerInRange (Avatar.x me) (Avatar.y me) s = Some a ->
     Avatar.isDead a = false ->
     texts (GameClient.renderAttackRangeIndicator s) <> []).
Proof.
  intros Ht Hme (H1 & H2 & H3 & H4). cbv zeta.
  assert (GameClient.playersInRange s
          = Some (length
                    (List.filter
                       (fun avatar =>
                          negb (GameClient.is_myPlayerId s (Avatar.id avatar)
                                || Avatar.isDead avatar)
                          && Qle_bool
                               (GameClient.distance avatar (Avatar.x me) (Avatar.y me))
                               GameClient.attackRange)
                       (GameClient.values s)))) as Hn.
  { unfold GameClient.playersInRange. rewrite Ht, Hme. cbn [negb]. cbv zeta.
    apply Qlt_bool_false in H1, H2, H3, H4.
    unfold Avatar.Qlt_bool in *. unfold GameClient.Qltb.
    rewrite H1, H2, H3, H4. reflexivity. }
  assert (forall n, GameClient.playersInRange s = Some n ->
            texts (GameClient.renderAttackRangeIndicator s)
            = if (0 <? n)%nat
              then ["Click to attack! (" ++ GameClient.decimal (Z.of_nat n)
                    ++ " in range)"]
              else []) as Hts.
  { intros n E. unfold GameClient.renderAttackRangeIndicator.
    rewrite E, Hme. destruct (0 <? n)%nat; reflexivity. }
  rewrite (Hts _ Hn).
  assert ((exists a,
              In a (GameClient.values s) /\ other_player s a /\
              Avatar.isDead a = false /\
              (GameClient.distance a (Avatar.x me) (Avatar.y me)
               <= GameClient.attackRange)%Q)
          <-> (0 < length
                     (List.filter
                        (fun avatar =>
                           negb (GameClient.is_myPlayerId s (Avatar.id avatar)
                                 || Avatar.isDead avatar)
                           && Qle_bool
                                (GameClient.distance avatar (Avatar.x me) (Avatar.y me))
                                GameClient.attackRange)
                        (GameClient.values s)))%nat) as Hex.
  { rewrite filter_length_pos. split.
    - intros (a & Ha & Ho & Hd & Hr). exists a. split; [exact Ha|].
      unfold other_player in Ho. rewrite Ho, Hd. cbn.
      apply Qle_bool_iff. exact Hr.
    - intros (a & Ha & Hf). exists a.
      apply andb_true_iff in Hf. destruct Hf as [Hf Hr].
      apply negb_true_iff, orb_false_iff in Hf. destruct Hf as [Ho Hd].
      repeat split; try assumption.
      apply Qle_bool_iff. exact Hr. }
  split; [|split].
  - rewrite Hex.
    destruct (0 <? _)%nat eqn:E.
    + apply Nat.ltb_lt in E. split; [intros _; exact E|intros _; discriminate].
    + apply Nat.ltb_ge in E. split; [intros H; contradiction|intros H; lia].
  - intros text Hin. eexists. split; [exact Hn|].
    destruct (0 <? _)%nat; [|destruct Hin].
    destruct Hin as [<-|[]]. reflexivity.
  - intros a Hf Hd.
    pose proof (findPlayerInRange_sound s (Avatar.x me) (Avatar.y me)) as Hs.
    rewrite Hf in Hs. destruct Hs as (Ho & Hr & before & after & Hl & _).
    assert (0 < length
                  (List.filter
                     (fun avatar =>
                        negb (GameClient.is_myPlayerId s (Avatar.id avatar)
                              || Avatar.isDead avatar)
                        && Qle_bool
                             (GameClient.distance avatar (Avatar.x me) (Avatar.y me))
                             GameClient.attackRange)
                     (GameClient.values s)))%nat as Hpos.
    { apply Hex. exists a. repeat split; try assumption.
      - rewrite Hl. apply in_or_app. right. left. reflexivity.
      - apply Qlt_le_weak. exact Hr. }
    apply Nat.ltb_lt in Hpos. rewrite Hpos. discriminate.
Qed.

Lemma X21_attack_hint_witness :
  exists a,
    In a (GameClient.values joined) /\ other_player joined a /\
    Avatar.isDead a = false /\
    (GameClient.distance a (Avatar.x (avatar_of "1" joined))
       (Avatar.y (avatar_of "1" joined))
     <= GameClient.attackRange)%Q.
Proof.
  assert (GameClient.myPlayerId_truthy joined = true) as Ht
    by (vm_compute; reflexivity).
  assert (GameClient.myAvatar joined = Some (avatar_of "1" joined)) as Hme
    by (vm_compute; reflexivity).
  assert (indicator_visible joined (avatar_of "1" joined)) as Hv
    by (vm_compute; conjuncts; discriminate).
  apply (proj1 (proj1 (X21_attack_hint joined (avatar_of "1" joined) Ht Hme Hv))).
  vm_compute. discriminate.
Defined.

(** *** The sockets of a session *)

Section Sockets.
Import GameClient.

Lemma socket_kept_refl s : socket_kept s s.
Proof.
  split; [reflexivity|]. split; [reflexivity|].
  exists []. split; [symmetry; apply app_nil_r|constructor].
Qed.

Lemma socket_kept_trans s1 s2 s3 :
  socket_kept s1 s2 -> socket_kept s2 s3 -> socket_kept s1 s3.
Proof.
  intros (Hw1 & Hn1 & l1 & He1 & Hf1) (Hw2 & Hn2 & l2 & He2 & Hf2).
  split; [congruence|]. split; [congruence|].
  exists (l1 ++ l2)%list. split.
  - rewrite He2, He1, app_assoc. reflexivity.
  - apply Forall_app. split; [exact Hf1|].
    rewrite Hw1 in Hf2. exact Hf2.
Qed.

Lemma socket_kept_control s s' : control_kept s s' -> socket_kept s s'.
Proof.
  intros (_&_&Hw&_&_&_&_&_&_&_&He&Hn).
  split; [exact Hw|]. split; [exact Hn|].
  exists []. split; [rewrite He; symmetry; apply app_nil_r|constructor].
Qed.

(** A state that differs from [s] in other fields only can stand for
    it. *)
Lemma socket_kept_from s0 s s' :
  websocket s0 = websocket s ->
  next_socket (host s0) = next_socket (host s) ->
  effects (host s0) = effects (host s) ->
  socket_kept s0 s' -> socket_kept s s'.
Proof.
  intros Hw Hn He (Hw' & Hn' & l & He' & Hf).
  split; [congruence|]. split; [congruence|].
  exists l. split; [congruence|]. rewrite <- Hw. exact Hf.
Qed.

Lemma socket_kept_websocket_send a s : socket_kept s (websocket_send a s).
Proof.
  unfold websocket_send. destruct (websocket s) as [w|] eqn:Hw;
    [|apply socket_kept_refl].
  split; [reflexivity|]. split; [reflexivity|].
  exists [WsSend w a]. split; [reflexivity|].
  constructor; [exact Hw|constructor].
Qed.

Lemma socket_kept_sendMoveCommand d s : socket_kept s (sendMoveCommand d s).
Proof.
  unfold sendMoveCommand. destruct (negb (connected s));
    [apply socket_kept_refl|apply socket_kept_websocket_send].
Qed.

Lemma socket_kept_sendStopCommand s : socket_kept s (sendStopCommand s).
Proof.
  unfold sendStopCommand. destruct (negb (connected s));
    [apply socket_kept_refl|apply socket_kept_websocket_send].
Qed.

Lemma socket_kept_joinGame s : socket_kept s (joinGame s).
Proof.
  unfold joinGame. destruct (negb (connected s));
    [apply socket_kept_refl|apply socket_kept_websocket_send].
Qed.

Ltac unchanged :=
  split; [reflexivity|]; split; [reflexivity|];
  exists []; split; [symmetry; apply app_nil_r|constructor].

Ltac via s0 L :=
  apply (socket_kept_from s0); [reflexivity|reflexivity|reflexivity|apply L].

Lemma socket_kept_handleKeyDown code s : socket_kept s (handleKeyDown code s).
Proof.
  unfold handleKeyDown.
  destruct (negb (is_playing s)); [apply socket_kept_refl|].
  destruct (keyMap code) as [d|]; [|apply socket_kept_refl].
  cbv zeta.
  via (set_pressedKeys ({[ code ]} ∪ pressedKeys s) s) socket_kept_sendMoveCommand.
Qed.

Lemma socket_kept_handleKeyUp code s : socket_kept s (handleKeyUp code s).
Proof.
  unfold handleKeyUp.
  destruct (negb (is_playing s)); [apply socket_kept_refl|].
  destruct (keyMap code) as [d|]; [|apply socket_kept_refl].
  cbv zeta. destruct (_ =? _)%nat; [|unchanged].
  via (set_pressedKeys (pressedKeys s ∖ {[ code ]}) s) socket_kept_sendStopCommand.
Qed.

Lemma socket_kept_handleCanvasClick clickX clickY s :
  socket_kept s (handleCanvasClick clickX clickY s).
Proof.
  unfold handleCanvasClick.
  destruct (_ || _ || _); [apply socket_kept_refl|].
  destruct (0 <? attackCooldown s)%Z; [apply socket_kept_refl|].
  cbv zeta. destruct (findPlayerInRange _ _ s) as [target|];
    [|apply socket_kept_refl].
  unfold attackPlayer.
  destruct (negb (connected s)); [apply socket_kept_refl|].
  destruct (websocket s) as [w|] eqn:Hw; [|apply socket_kept_refl].
  split; [reflexivity|]. split; [reflexivity|].
  exists [WsSend w (attack (Avatar.id target))]. split; [reflexivity|].
  constructor; [exact Hw|constructor].
Qed.

Lemma socket_kept_update s : socket_kept s (update s).
Proof.
  unfold update. destruct (0 <? attackCooldown s)%Z; [|apply socket_kept_refl].
  cbv zeta. destruct (_ <? 0)%Z; unchanged.
Qed.

Lemma socket_kept_updateViewport s : socket_kept s (updateViewport s).
Proof.
  unfold updateViewport. destruct (_ && _); [|apply socket_kept_refl].
  destruct (myAvatar s); [unchanged|apply socket_kept_refl].
Qed.

Lemma socket_kept_togglePause now s : socket_kept s (togglePause now s).
Proof.
  unfold togglePause, pauseGame, resumeGame.
  destruct (gameState s) eqn:E; [| |apply socket_kept_refl].
  - unfold is_playing. rewrite E. cbv zeta. cbn [negb].
    via (set_pauseStartTime now (set_gameState paused s))
      socket_kept_sendStopCommand.
  - unchanged.
Qed.

Lemma socket_kept_stopGame s : socket_kept s (stopGame s).
Proof.
  unfold stopGame. cbv zeta.
  change (websocket (set_gameState stopped s)) with (websocket s).
  destruct (websocket s) as [w|] eqn:Hw; [|unchanged].
  split; [reflexivity|]. split; [reflexivity|].
  exists [WsClose w]. split; [reflexivity|].
  constructor; [exact Hw|constructor].
Qed.

Lemma socket_kept_resetScore s : socket_kept s (resetScore s).
Proof. unchanged. Qed.

Lemma socket_use_app a : forall cur next b,
  socket_use cur next (a ++ b)
  = match socket_use cur next a with
    | Some (cur', next') => socket_use cur' next' b
    | None => None
    end.
Proof.
  induction a as [|e a IH]; intros cur next b; [reflexivity|].
  destruct e as [n|n|n act]; cbn.
  - destruct (_ && _); [apply IH|reflexivity].
  - destruct cur as [[w c]|]; [|reflexivity].
    destruct (n =? w)%nat; [apply IH|reflexivity].
  - destruct cur as [[w c]|]; [|reflexivity].
    destruct (n =? w)%nat; [apply IH|reflexivity].
Qed.

(** Calls on the newest socket keep a log in order. *)
Lemma socket_use_kept w l : forall closed next,
  Forall (fun e =>
            match e with
            | WsNew _ => False
            | WsSend n _ | WsClose n => Some w = Some n
            end) l ->
  exists closed',
    socket_use (Some (w, closed)) next l = Some (Some (w, closed'), next).
Proof.
  induction l as [|e l IH]; intros closed next Hf.
  - exists closed. reflexivity.
  - inversion Hf as [|e' l' He Hl]; subst.
    destruct e as [n|n|n act]; [destruct He| |]; injection He as <-; cbn;
      rewrite Nat.eqb_refl; apply IH; exact Hl.
Qed.

Lemma sockets_in_order_kept s s' :
  sockets_in_order s -> socket_kept s s' -> sockets_in_order s'.
Proof.
  intros (w & closed & Hw & Hn & Hu) (Hw' & Hn' & l & He & Hf).
  rewrite Hw in Hf.
  destruct (socket_use_kept w l closed (S w) Hf) as (closed' & Hl).
  exists w, closed'. split; [congruence|]. split; [congruence|].
  rewrite He, socket_use_app, Hu. exact Hl.
Qed.

(** [connectToServer] calls [close] on the socket it finds and replaces
    it by a new one. *)
Lemma sockets_in_order_connectToServer s :
  sockets_in_order s -> sockets_in_order (connectToServer s).
Proof.
  intros (w & closed & Hw & Hn & Hu).
  exists (S w), false. unfold connectToServer. rewrite Hw. cbn.
  rewrite Hn. split; [reflexivity|]. split; [reflexivity|].
  rewrite <- app_assoc, socket_use_app, Hu. cbn.
  rewrite !Nat.eqb_refl. reflexivity.
Qed.

Lemma sockets_in_order_from s0 s :
  websocket s0 = websocket s ->
  next_socket (host s0) = next_socket (host s) ->
  effects (host s0) = effects (host s) ->
  sockets_in_order s -> sockets_in_order s0.
Proof.
  intros Hw Hn He (w & closed & Hw' & Hn' & Hu).
  exists w, closed. rewrite Hw, Hn, He. repeat split; assumption.
Qed.

Lemma sockets_in_order_handleGameControlKeys code ctrlKey metaKey now s :
  sockets_in_order s ->
  sockets_in_order (handleGameControlKeys code ctrlKey metaKey now s).
Proof.
  intros H. unfold handleGameControlKeys.
  destruct (String.eqb code "Space");
    [exact (sockets_in_order_kept _ _ H (socket_kept_togglePause now s))|].
  destruct (String.eqb code "Escape");
    [exact (sockets_in_order_kept _ _ H (socket_kept_stopGame s))|].
  destruct (String.eqb code "KeyR").
  { destruct (ctrlKey || metaKey); [|exact H].
    unfold restartGame. cbv zeta.
    apply sockets_in_order_connectToServer.
    eapply sockets_in_order_from; [| | |exact H]; reflexivity. }
  destruct (String.eqb code "KeyS"); [|exact H].
  destruct (ctrlKey || metaKey); [|exact H].
  exact (sockets_in_order_kept _ _ H (socket_kept_resetScore s)).
Qed.

Lemma sockets_in_order_step e s :
  sockets_in_order s -> sockets_in_order (step e s).
Proof.
  intros H.
  destruct e as [code ctrlKey metaKey now|code|clickX clickY| |w h| | | |m|i];
    unfold step.
  - cbv zeta. apply sockets_in_order_handleGameControlKeys.
    exact (sockets_in_order_kept _ _ H (socket_kept_handleKeyDown code s)).
  - exact (sockets_in_order_kept _ _ H (socket_kept_handleKeyUp code s)).
  - exact (sockets_in_order_kept _ _ H (socket_kept_handleCanvasClick _ _ s)).
  - exact (sockets_in_order_kept _ _ H (socket_kept_update s)).
  - cbv zeta. apply (sockets_in_order_kept
                       (set_canvas {| width := w; height := h |} s));
      [|apply socket_kept_updateViewport].
    eapply sockets_in_order_from; [| | |exact H]; reflexivity.
  - cbv zeta. apply (sockets_in_order_kept (set_connected true s));
      [|apply socket_kept_joinGame].
    eapply sockets_in_order_from; [| | |exact H]; reflexivity.
  - eapply sockets_in_order_from; [| | |exact H]; reflexivity.
  - exact H.
  - apply (sockets_in_order_kept _ _ H), socket_kept_control,
      control_kept_handleMessage.
  - apply (sockets_in_order_kept _ _ H), socket_kept_control,
      control_kept_runTimeout.
Qed.

Lemma sockets_in_order_construct stored w h s :
  construct stored w h = Returns s -> sockets_in_order s.
Proof.
  unfold construct. intros H.
  assert (forall s1, loadScore (fresh stored w h) = Returns s1 ->
                     websocket s1 = None /\ next_socket (host s1) = 0%nat /\
                     effects (host s1) = []) as Hl.
  { unfold loadScore. cbn [fresh localStorage host]. intros s1 H1.
    destruct stored as [saved|]; [|injection H1 as <-; repeat split].
    destruct (String.eqb saved EmptyString);
      [injection H1 as <-; repeat split|].
    destruct (JSON.parse saved); [|discriminate].
    destruct (score_of_json _); [|discriminate|discriminate].
    injection H1 as <-. repeat split. }
  destruct (loadScore (fresh stored w h)) as [s1| |]; try discriminate.
  injection H as <-. destruct (Hl s1 eq_refl) as (Hw & Hn & He).
  exists 0%nat, false. unfold connectToServer. rewrite Hw. cbn.
  rewrite Hn, He. repeat split.
Qed.

End Sockets.

(** X22. The sockets of a session.  In every state the client can reach
    it holds a socket, the newest one it created, and the calls it has
    made on sockets are in order: a socket is created only after [close]
    was called on the one before it, so that at most one socket is left
    open, and every [send] and every [close] is made on the newest
    socket, never on an older one. *)
Theorem X22_one_socket_at_a_time (s : GameClient.t) :
  GameClient.reachable s -> sockets_in_order s.
Proof.
  induction 1 as [stored w h s Hc|e s Hr IH].
  - exact (sockets_in_order_construct _ _ _ _ Hc).
  - exact (sockets_in_order_step e s IH).
Qed.

Lemma X22_one_socket_at_a_time_witness :
  sockets_in_order
    (GameClient.run
       [GameClient.KeyDown "ArrowUp" false false 0;
        GameClient.KeyDown "KeyR" true false 0;
        GameClient.SocketOpen] joined).
Proof.
  assert (forall es s, GameClient.reachable s ->
                       GameClient.reachable (GameClient.run es s)) as Hrun.
  { induction es as [|e es IH]; intros s Hs; [exact Hs|].
    apply IH. apply GameClient.reachable_step. exact Hs. }
  apply X22_one_socket_at_a_time.
  do 2 apply Hrun. apply (GameClient.reachable_construct None 800 600).
  reflexivity.
Defined.
